(** * Port-based composition and 180-degree bend routing of a photonic layout generator

    A shallow embedding of the component factories and of the routing helper
    of the layout library: [triangle], [coupler90], [get_routes_bend180],
    [straight_heater_connector] and [straight_with_heater] follow their
    Python sources statement by statement.  The classes they are written
    against (ports, components, references, the factory cache) live in
    modules that are not part of the sources at hand and are modelled from
    the design document; each such definition says so.

    Python floats are modelled as exact rationals ([Qc]); rounding is not
    modelled.  Python dictionaries are insertion-ordered association lists,
    the factory cache is a finite map. *)

From Stdlib Require Import QArith Qcanon Qround.
From stdpp Require Import base numbers list strings gmap pretty.
Local Open Scope Qc_scope.

(** ** Numbers *)

(** Integer literals. *)
Definition num (z : Z) : Qc := Qc_of_Z z.

Definition floor (a : Qc) : Z := Qfloor a.

(** Python's [a % m] on numbers, for a positive modulus: the result has the
    sign of [m]. *)
Definition pymod (a m : Qc) : Qc := a - m * Qc_of_Z (floor (a / m)).

(** The trigonometric functions of numpy, in degrees.  They are kept
    abstract: only their values at 0 are ever relied upon. *)
Class Trig := {
  cosd : Qc → Qc;
  sind : Qc → Qc;
  cosd_0 : cosd 0 = 1;
  sind_0 : sind 0 = 0
}.

(** A computable instance: Bhaskara's rational approximation of the sine,
    which is exact at every multiple of 90 degrees. *)
Definition bhaskara_half (x : Qc) : Qc :=
  num 4 * x * (num 180 - x) / (num 40500 - x * (num 180 - x)).

Definition bhaskara_sind (a : Qc) : Qc :=
  let x := pymod a (num 360) in
  if decide (x ≤ num 180) then bhaskara_half x else - bhaskara_half (x - num 180).

Definition bhaskara_cosd (a : Qc) : Qc := bhaskara_sind (a + num 90).

#[global] Instance bhaskara_trig : Trig :=
  {| cosd := bhaskara_cosd; sind := bhaskara_sind;
     cosd_0 := ltac:(compute_done); sind_0 := ltac:(compute_done) |}.

(** ** Errors *)

(** The exceptions the modelled code can raise.  [DuplicateNameError] is the
    design document's name for a port-name collision. *)
Inductive PyError :=
  | AssertionError
  | KeyError
  | IndexError
  | TypeError
  | ValueError
  | AttributeError
  | DuplicateNameError.

#[global] Instance PyError_eq_dec : EqDecision PyError.
Proof. solve_decision. Defined.

Inductive Result (A : Type) :=
  | Ok (a : A)
  | Err (e : PyError).
Arguments Ok {A} a.
Arguments Err {A} e.

#[global] Instance Result_ret : MRet Result := λ A a, Ok a.
#[global] Instance Result_bind : MBind Result := λ A B f m,
  match m with Ok a => f a | Err e => Err e end.
#[global] Instance Result_fmap : FMap Result := λ A B f m,
  match m with Ok a => Ok (f a) | Err e => Err e end.

Definition is_ok {A} (r : Result A) : bool :=
  match r with Ok _ => true | Err _ => false end.

(** ** Dictionaries *)

(** A Python [dict]: an association list in insertion order, each key at
    most once. *)
Definition Dict (K V : Type) : Type := list (K * V).

Section dict.
Context {K V : Type} `{EqDecision K}.

Fixpoint dict_get (k : K) (d : Dict K V) : option V :=
  match d with
  | [] => None
  | (k', v) :: d' => if decide (k = k') then Some v else dict_get k d'
  end.

(** [d[k] = v]: overwrite in place, or append. *)
Fixpoint dict_set (k : K) (v : V) (d : Dict K V) : Dict K V :=
  match d with
  | [] => [(k, v)]
  | (k', v') :: d' =>
      if decide (k = k') then (k, v) :: d' else (k', v') :: dict_set k v d'
  end.

Definition dict_keys (d : Dict K V) : list K := d.*1.
Definition dict_values (d : Dict K V) : list V := d.*2.
Definition dict_len (d : Dict K V) : nat := length d.

(** [{k: v for ...}], built by successive assignments. *)
Definition dict_of_list (kvs : list (K * V)) : Dict K V :=
  foldl (λ d kv, dict_set kv.1 kv.2 d) [] kvs.

(** [d[k]], raising [KeyError]. *)
Definition dict_item (k : K) (d : Dict K V) : Result V :=
  match dict_get k d with Some v => Ok v | None => Err KeyError end.

End dict.

(** ** Data model *)

Definition Point : Type := Qc * Qc.
Definition Layer : Type := Z * Z.

(** Port names are dictionary keys: strings, or the integers that
    [straight_with_heater] uses. *)
Inductive Name :=
  | NStr (s : string)
  | NInt (i : Z).

#[global] Instance Name_eq_dec : EqDecision Name.
Proof. solve_decision. Defined.

Coercion NStr : string >-> Name.

(** Modelled from the spec: the Port class (its module is not among the
    sources).  "Attributes: name, position (2-D coordinate), orientation
    (angle in degrees), width, layer (integer pair), role (tag)". *)
Record Port := Build_Port {
  port_name : Name;
  midpoint : Point;
  orientation : Qc;
  width : Qc;
  layer : Layer;
  port_type : string
}.

#[global] Instance Port_eq_dec : EqDecision Port.
Proof. solve_decision. Defined.

(** Modelled from the spec: [p.x] and [p.y], the coordinates of the
    position. *)
Definition port_x (p : Port) : Qc := (midpoint p).1.
Definition port_y (p : Port) : Qc := (midpoint p).2.

(** Modelled from the spec: a polygon, "ordered sequence of 2-D points +
    layer". *)
Record Polygon := Build_Polygon {
  points : list Point;
  polygon_layer : Layer
}.

#[global] Instance Polygon_eq_dec : EqDecision Polygon.
Proof. solve_decision. Defined.

(** Modelled from the spec: a finished Component and the references it
    holds (the Component class is not among the sources).  "A set of
    polygons, a set of child references (each: child Component handle + 2-D
    translation + rotation angle + mirror flag), a mapping name→Port".
    [comp_length] is the [length] attribute that bend factories set; it is
    [None] when the attribute is absent. *)
Inductive Component : Type :=
  Build_Component
    (polygons : list Polygon)
    (references : list ComponentReference)
    (ports : Dict Name Port)
    (comp_length : option Qc)
with ComponentReference : Type :=
  Build_ComponentReference
    (parent : Component)
    (origin : Point)
    (rotation : Qc)
    (x_reflection : bool).

Definition polygons (c : Component) : list Polygon :=
  match c with Build_Component ps _ _ _ => ps end.
Definition references (c : Component) : list ComponentReference :=
  match c with Build_Component _ rs _ _ => rs end.
Definition ports (c : Component) : Dict Name Port :=
  match c with Build_Component _ _ ps _ => ps end.
Definition comp_length (c : Component) : option Qc :=
  match c with Build_Component _ _ _ l => l end.

Definition parent (r : ComponentReference) : Component :=
  match r with Build_ComponentReference c _ _ _ => c end.
Definition origin (r : ComponentReference) : Point :=
  match r with Build_ComponentReference _ o _ _ => o end.
Definition rotation (r : ComponentReference) : Qc :=
  match r with Build_ComponentReference _ _ a _ => a end.
Definition x_reflection (r : ComponentReference) : bool :=
  match r with Build_ComponentReference _ _ _ m => m end.

(** [component.length], raising [AttributeError] when it was never set. *)
Definition length_attr (c : Component) : Result Qc :=
  match comp_length c with Some l => Ok l | None => Err AttributeError end.

(** ** Rigid transforms and references *)

(** [p + d] on coordinate pairs. *)
Definition translate (d p : Point) : Point := (p.1 + d.1, p.2 + d.2).

(** Rotation of [p] by [angle] degrees about [center]. *)
Definition rotate_point `{Trig} (angle : Qc) (center p : Point) : Point :=
  let dx := p.1 - center.1 in
  let dy := p.2 - center.2 in
  (center.1 + (dx * cosd angle - dy * sind angle),
   center.2 + (dx * sind angle + dy * cosd angle)).

(** Modelled from the spec: how a child reference (translation, rotation
    angle, mirror flag) places a point of its child: mirror about the x
    axis, rotate about the child's origin, translate. *)
Definition transform_point `{Trig} (r : ComponentReference) (p : Point) : Point :=
  let p1 := if x_reflection r then (p.1, - p.2) else p in
  translate (origin r) (rotate_point (rotation r) (0, 0) p1).

(** Modelled from the spec: a polygon of the child as the reference places
    it, point by point, on the same layer. *)
Definition transform_polygon `{Trig} (r : ComponentReference) (g : Polygon) : Polygon :=
  Build_Polygon (transform_point r <$> points g) (polygon_layer g).

(** Modelled from the spec: the port of a child as seen through a
    reference.  "Invariant: orientation is always normalized to [0, 360)". *)
Definition transform_port `{Trig} (r : ComponentReference) (p : Port) : Port :=
  Build_Port (port_name p)
    (transform_point r (midpoint p))
    (pymod ((if x_reflection r then - orientation p else orientation p) + rotation r)
       (num 360))
    (width p) (layer p) (port_type p).

(** Modelled from the spec: [reference.ports], the ports of the child as
    the reference places them, under the child's names and in its order. *)
Definition ref_ports `{Trig} (r : ComponentReference) : Dict Name Port :=
  prod_map id (transform_port r) <$> ports (parent r).

(** Modelled from the spec: [component.ref()], a reference to the
    Component with the identity transform. *)
Definition ref (c : Component) : ComponentReference :=
  Build_ComponentReference c (0, 0) 0 false.

(** Modelled from the spec: [component.ref(position=p)], a reference
    translated to [p]. *)
Definition ref_at (c : Component) (position : Point) : ComponentReference :=
  Build_ComponentReference c position 0 false.

(** Modelled from the spec: the "rigid 2-D transform (translation,
    rotation, optional mirror)" of a reference, changed in place:
    [reference.move], [movex], [movey] and [rotate]. *)
Definition move (d : Point) (r : ComponentReference) : ComponentReference :=
  Build_ComponentReference (parent r) (translate d (origin r)) (rotation r) (x_reflection r).

Definition movex (dx : Qc) : ComponentReference → ComponentReference := move (dx, 0).
Definition movey (dy : Qc) : ComponentReference → ComponentReference := move (0, dy).

Definition rotate `{Trig} (angle : Qc) (center : Point) (r : ComponentReference)
  : ComponentReference :=
  Build_ComponentReference (parent r)
    (rotate_point angle center (origin r)) (rotation r + angle) (x_reflection r).

(** Modelled from the spec: [reference.connect(port, destination)].
    "Alignment is computed by translating the second component so that the
    target port's position matches the first's, then optionally rotating by
    the angular difference needed so the two orientations are antiparallel".
    The rotation is applied first, about the port, and the translation is
    taken from the rotated port: the placement is the same and the two
    positions match exactly. *)
Definition connect `{Trig} (port : Name) (destination : Port) (r : ComponentReference)
  : Result ComponentReference :=
  p ← dict_item port (ref_ports r);
  let r1 := rotate (num 180 + orientation destination - orientation p) (midpoint p) r in
  p1 ← dict_item port (ref_ports r1);
  Ok (move ((midpoint destination).1 - (midpoint p1).1,
            (midpoint destination).2 - (midpoint p1).2) r1).

(** Modelled from the spec: the flattened polygon view of a Component,
    "the transformed child" polygons included. *)
Fixpoint get_polygons `{Trig} (c : Component) : list Polygon :=
  match c with
  | Build_Component ps rs _ _ =>
      ps ++ flat_map (λ r,
              match r with
              | Build_ComponentReference child o a m =>
                  transform_polygon (Build_ComponentReference child o a m)
                    <$> get_polygons child
              end) rs
  end.

(** Modelled from the spec: [reference.get_polygons()], the child's
    flattened polygons as the reference places them. *)
Definition ref_polygons `{Trig} (r : ComponentReference) : list Polygon :=
  transform_polygon r <$> get_polygons (parent r).

(** Modelled from the spec: "supports bounding-box queries".  The box of
    an empty polygon set is the origin. *)
Definition xs_of (gs : list Polygon) : list Qc := flat_map (λ g, (points g).*1) gs.

Definition fold_min (l : list Qc) : Qc :=
  match l with
  | [] => 0
  | x :: l' => foldl (λ m y, if decide (y < m) then y else m) x l'
  end.

Definition fold_max (l : list Qc) : Qc :=
  match l with
  | [] => 0
  | x :: l' => foldl (λ m y, if decide (m < y) then y else m) x l'
  end.

Definition ref_xmin `{Trig} (r : ComponentReference) : Qc := fold_min (xs_of (ref_polygons r)).
Definition ref_xmax `{Trig} (r : ComponentReference) : Qc := fold_max (xs_of (ref_polygons r)).

(** Modelled from the spec: [reference.xmin = v] and [reference.xmax = v]
    move the reference along x until its box starts, or ends, at [v]. *)
Definition set_xmin `{Trig} (v : Qc) (r : ComponentReference) : ComponentReference :=
  movex (v - ref_xmin r) r.
Definition set_xmax `{Trig} (v : Qc) (r : ComponentReference) : ComponentReference :=
  movex (v - ref_xmax r) r.

(** ** Components under construction *)

(** Modelled from the spec: a Component while its factory is still
    running.  Reference objects are mutable and shared between the
    component's reference list and the factory's local variables, so they
    live in a store ([objs]) and are named by their index; absorbing a
    reference removes its handle from [b_references] and keeps the object. *)
Record Building := Build_Building {
  objs : list ComponentReference;
  b_polygons : list Polygon;
  b_references : list nat;
  b_ports : Dict Name Port;
  b_length : option Qc
}.

(** Modelled from the spec: [Component()], an empty Component. *)
Definition Component_new : Building := Build_Building [] [] [] [] None.

#[global] Instance Component_inhabited : Inhabited Component :=
  populate (Build_Component [] [] [] None).
#[global] Instance ComponentReference_inhabited : Inhabited ComponentReference :=
  populate (ref inhabitant).

(** The reference object behind a handle. *)
Definition get_ref (c : Building) (h : nat) : ComponentReference := objs c !!! h.

(** In-place mutation of the reference object behind a handle. *)
Definition update_ref (h : nat) (f : ComponentReference → ComponentReference) (c : Building)
  : Building :=
  Build_Building (alter f h (objs c)) (b_polygons c) (b_references c) (b_ports c) (b_length c).

(** Modelled from the spec: [component.add(reference)]; the handle of the
    stored object is returned. *)
Definition add (r : ComponentReference) (c : Building) : nat * Building :=
  (length (objs c),
   Build_Building (objs c ++ [r]) (b_polygons c) (b_references c ++ [length (objs c)])
     (b_ports c) (b_length c)).

(** Modelled from the spec: "add_reference(child, transform) ->
    reference_handle", here [c << child] and [c.add_ref(child)], which place
    the child with the identity transform. *)
Definition add_ref (child : Component) (c : Building) : nat * Building :=
  add (ref child) c.

(** Modelled from the spec: [component.add_polygon(points, layer)]; the
    Component "exclusively owns its polygon list". *)
Definition add_polygon (pts : list Point) (l : Layer) (c : Building) : Building :=
  Build_Building (objs c) (b_polygons c ++ [Build_Polygon pts l]) (b_references c)
    (b_ports c) (b_length c).

(** [list.remove(x)]: the first occurrence. *)
Fixpoint remove_first (h : nat) (l : list nat) : list nat :=
  match l with
  | [] => []
  | x :: l' => if decide (h = x) then l' else x :: remove_first h l'
  end.

(** Modelled from the spec: "absorb(reference_handle): transforms the
    referenced child's polygons ... into the parent's own polygon ... storage
    and removes the indirection; fails if the reference was already absorbed
    or does not belong to this Component".  The port map of the parent is
    left alone: [coupler90] and [straight_heater] add the child's ports
    themselves, under their old names, after absorbing. *)
Definition absorb `{Trig} (h : nat) (c : Building) : Result Building :=
  if decide (h ∈ b_references c) then
    Ok (Build_Building (objs c) (b_polygons c ++ ref_polygons (get_ref c h))
          (remove_first h (b_references c)) (b_ports c) (b_length c))
  else Err ValueError.

(** Modelled from the spec: a copy of a port under another name, "may be
    renamed/re-exposed by a parent Component". *)
Definition rename_port (name : Name) (p : Port) : Port :=
  Build_Port name (midpoint p) (orientation p) (width p) (layer p) (port_type p).

(** Modelled from the spec: "add_port(name, port_or_fields) fails with a
    DuplicateNameError if name already exists in this Component".  This is
    the form that takes an existing port, stored under the new name. *)
Definition add_port (name : Name) (p : Port) (c : Building) : Result Building :=
  match dict_get name (b_ports c) with
  | Some _ => Err DuplicateNameError
  | None =>
      Ok (Build_Building (objs c) (b_polygons c) (b_references c)
            (b_ports c ++ [(name, rename_port name p)]) (b_length c))
  end.

(** Modelled from the spec: [add_port] from fields.  A new Port is made,
    its orientation "normalized to [0, 360)". *)
Definition add_port_fields (name : Name) (mid : Point) (w o : Qc) (l : Layer) (t : string)
  (c : Building) : Result Building :=
  add_port name (Build_Port name mid (pymod o (num 360)) w l t) c.

(** [component.ports[name].orientation = o].  Modelled from the spec as a
    plain store into the port: "intentional orientation overrides during
    port re-exposition (e.g. assigning an explicit external-facing
    direction)". *)
Definition set_port_orientation (name : Name) (o : Qc) (c : Building) : Result Building :=
  match dict_get name (b_ports c) with
  | None => Err KeyError
  | Some p =>
      Ok (Build_Building (objs c) (b_polygons c) (b_references c)
            (dict_set name
               (Build_Port (port_name p) (midpoint p) o (width p) (layer p) (port_type p))
               (b_ports c))
            (b_length c))
  end.

(** Modelled from the spec: the Component a factory returns, "treated as
    immutable content" from then on; its references are the objects now in
    its reference list. *)
Definition finalize (c : Building) : Component :=
  Build_Component (b_polygons c) (get_ref c <$> b_references c) (b_ports c) (b_length c).

(** A list comprehension whose body can raise: the first failure wins. *)
Fixpoint mapR {A B} (f : A → Result B) (l : list A) : Result (list B) :=
  match l with
  | [] => Ok []
  | x :: l' => y ← f x; ys ← mapR f l'; Ok (y :: ys)
  end.

(** [enumerate(l)]. *)
Definition enumerate {A} (l : list A) : list (nat * A) := zip (seq 0 (length l)) l.

(** ** Factories and the factory cache *)

(** Keyword-argument values. *)
Inductive PyVal :=
  | VNum (q : Qc)
  | VInt (z : Z)
  | VStr (s : string)
  | VLayer (l : Layer)
  | VNone.

#[global] Instance PyVal_eq_dec : EqDecision PyVal.
Proof. solve_decision. Defined.

#[global] Instance PyVal_countable : Countable PyVal.
Proof.
  refine (inj_countable'
    (λ v, match v with
          | VNum q => inl q
          | VInt z => inr (inl z)
          | VStr s => inr (inr (inl s))
          | VLayer l => inr (inr (inr (inl l)))
          | VNone => inr (inr (inr (inr ())))
          end)
    (λ e, match e with
          | inl q => VNum q
          | inr (inl z) => VInt z
          | inr (inr (inl s)) => VStr s
          | inr (inr (inr (inl l))) => VLayer l
          | inr (inr (inr (inr ()))) => VNone
          end) _).
  by intros [].
Defined.

(** [**kwargs]. *)
Definition Kwargs : Type := Dict string PyVal.

(** Modelled from the spec: the instances the caching layer hands out.
    "Two calls ... return the identical cached Component instance": an
    instance is a Component together with the identity of the object. *)
Record Instance := Build_Instance {
  uid : nat;
  component : Component
}.

(** Modelled from the spec: "the factory result cache ... keyed by (factory
    identity, normalized parameter tuple)", the "sole shared, mutable
    resource", with the counter that numbers the instances. *)
Record World := Build_World {
  CACHE : gmap (string * gmap string PyVal) Instance;
  next_uid : nat
}.

Definition empty_world : World := Build_World ∅ 0.

(** Modelled from the spec: the cache key of a call, "(factory identity,
    normalized parameter tuple)": the parameters as a finite map, so that
    the order in which keywords are written does not matter. *)
Definition cache_key (fname : string) (args : Kwargs) : string * gmap string PyVal :=
  (fname, list_to_map args).

(** Code that reads and writes the cache and can raise. *)
Definition M (A : Type) : Type := World → Result A * World.

#[global] Instance M_ret : MRet M := λ A a w, (Ok a, w).
#[global] Instance M_bind : MBind M := λ A B f m w,
  match m w with
  | (Ok a, w') => f a w'
  | (Err e, w') => (Err e, w')
  end.

Definition raise {A} (e : PyError) : M A := λ w, (Err e, w).
Definition lift {A} (r : Result A) : M A := λ w, (r, w).

(** Modelled from the spec: the [@cell] decorator (its module is not among
    the sources).  "A caching layer keyed by (factory name, parameter
    values) guarantees identical parameter sets return the same cached
    Component instance"; a call that misses builds the Component, stores it
    as a new instance and returns it; "a failed factory ... call leaves no
    visible Component behind". *)
Definition cell (fname : string) (args : Kwargs) (body : M Component) : M Instance :=
  λ w,
    match CACHE w !! cache_key fname args with
    | Some i => (Ok i, w)
    | None =>
        match body w with
        | (Ok c, w') =>
            let i := Build_Instance (next_uid w') c in
            (Ok i, Build_World (<[cache_key fname args := i]> (CACHE w')) (S (next_uid w')))
        | (Err e, w') => (Err e, w')
        end
    end.

(** A cross-section: only its [info] dictionary is read. *)
Record CrossSection := Build_CrossSection {
  info : Dict string Qc
}.

Definition CrossSectionFactory : Type := Kwargs → M CrossSection.

(** A component factory that takes [cross_section=] and keyword
    arguments. *)
Definition ComponentFactory : Type := CrossSectionFactory → Kwargs → M Component.

(** [ComponentOrFactory]: a factory, or a Component built beforehand. *)
Inductive ComponentOrFactory :=
  | AFactory (f : ComponentFactory)
  | AComponent (c : Component).

(** A call with explicit keywords and [**kwargs]: Python raises [TypeError]
    when a keyword is given twice. *)
Definition keywords (explicit : Kwargs) (kwargs : Kwargs) : Result Kwargs :=
  if decide (Exists (λ k, k ∈ dict_keys kwargs) (dict_keys explicit))
  then Err TypeError
  else Ok (explicit ++ kwargs).

(** ** routing/get_routes_bend180.py *)

(** [ports: Union[List[Port], Dict[str, Port]]]. *)
Inductive PortsArg :=
  | PortList (l : list Port)
  | PortDict (d : Dict string Port).

(** Modelled from the spec: the [Routes] record built on line 30, "ordered
    sequence of component references ..., mapping of route-endpoint index →
    resulting Port, parallel sequence of path lengths". *)
Record Routes := Build_Routes {
  routes_references : list ComponentReference;
  routes_ports : Dict string Port;
  routes_lengths : list Qc
}.

(** Line 24: [list(ports.values()) if isinstance(ports, dict) else ports]. *)
Definition ports_list (ports : PortsArg) : list Port :=
  match ports with
  | PortDict d => dict_values d
  | PortList l => l
  end.

(** [get_routes_bend180], lines 24 to 30.  Only the call of the factory
    touches the cache; the rest is a computation on the bend and the ports
    that can raise. *)
Definition get_routes_bend180 `{Trig} (ports : PortsArg) (bend_factory : ComponentOrFactory)
  (cross_section : CrossSectionFactory) (kwargs : Kwargs) : M Routes :=
  let ports := ports_list ports in
  kw ← lift (keywords [("angle", VInt 180)] kwargs);
  bend ← match bend_factory with
         | AFactory f => f cross_section kw
         | AComponent _ => raise TypeError
         end;
  lift (
    let references := (λ port, ref bend) <$> ports in
    references ← mapR (λ '(port, r), connect "W0" port r) (zip ports references);
    ports ← dict_of_list <$>
              mapR (λ '(i, r), p ← dict_item (NStr "W1") (ref_ports r); Ok (pretty i, p))
                (enumerate references);
    length ← length_attr bend;
    let lengths := replicate (dict_len ports) length in
    Ok (Build_Routes references ports lengths)).

(** ** components/triangle.py *)

(** The body of [triangle]. *)
Definition triangle (x xtop y : Qc) (layer : Layer) : M Component :=
  let c := Component_new in
  let points := [(0, 0); (x, 0); (xtop, y); (0, y)] in
  let c := add_polygon points layer c in
  mret (finalize c).

(** [triangle] as decorated with [@cell]. *)
Definition triangle_cell (x xtop y : Qc) (layer : Layer) : M Instance :=
  cell "triangle" [("x", VNum x); ("xtop", VNum xtop); ("y", VNum y); ("layer", VLayer layer)]
    (triangle x xtop y layer).

(** Twice the signed area of a closed polygon (shoelace formula). *)
Definition shoelace (pts : list Point) : Qc :=
  match pts with
  | [] => 0
  | p0 :: _ =>
      foldr Qcplus 0
        (zip_with (λ p q : Point, p.1 * q.2 - q.1 * p.2) pts (drop 1 pts ++ [p0]))
  end.

(** ** components/coupler90.py *)

Section coupler90.
Context `{Trig}.

(** [gdsfactory.components.straight.straight], a factory that is not among
    the sources. *)
Variable straight : ComponentFactory.

(** [coupler90], lines 38 to 69.  The module-level [straight] is always
    callable, so [callable(straight)] takes its first branch. *)
Definition coupler90 (gap radius : Qc) (bend : ComponentOrFactory)
  (cross_section : CrossSectionFactory) (kwargs : Kwargs) : M Component :=
  let c := Component_new in
  kw ← lift (keywords [("radius", VNum radius)] kwargs);
  x ← cross_section kw;
  bend90 ← match bend with
           | AFactory f => f cross_section kwargs
           | AComponent b => mret b
           end;
  let '(bend_ref, c) := add_ref bend90 c in
  n0 ← lift (dict_item (NStr "N0") (ports bend90));
  w0 ← lift (dict_item (NStr "W0") (ports bend90));
  kw ← lift (keywords [("length", VNum ((midpoint n0).1 - (midpoint w0).1))] kwargs);
  straight_component ← straight cross_section kw;
  let '(wg_ref, c) := add_ref straight_component c in
  width ← lift (dict_item "width" (info x));
  pbw ← lift (dict_item (NStr "W0") (ref_ports (get_ref c bend_ref)));
  let c := update_ref bend_ref (movey ((midpoint pbw).2 + gap + width)) c in
  c ← lift (absorb wg_ref c);
  c ← lift (absorb bend_ref c);
  p ← lift (dict_item (NStr "E0") (ref_ports (get_ref c wg_ref)));
  c ← lift (add_port "E0" p c);
  p ← lift (dict_item (NStr "N0") (ref_ports (get_ref c bend_ref)));
  c ← lift (add_port "N0" p c);
  p ← lift (dict_item (NStr "W0") (ref_ports (get_ref c wg_ref)));
  c ← lift (add_port "W0" p c);
  p ← lift (dict_item (NStr "W0") (ref_ports (get_ref c bend_ref)));
  c ← lift (add_port "W1" p c);
  mret (finalize c).

End coupler90.

(** ** components/straight_heater.py *)

(** [list.sort(key=...)]: a stable sort. *)
Fixpoint insert_by {A} (key : A → Qc) (x : A) (l : list A) : list A :=
  match l with
  | [] => [x]
  | y :: l' => if decide (key y < key x) then y :: insert_by key x l' else x :: y :: l'
  end.

Definition sort_by {A} (key : A → Qc) (l : list A) : list A :=
  foldr (insert_by key) [] l.

(** [l[i]] and [l[-1]], raising [IndexError]. *)
Definition list_item {A} (i : nat) (l : list A) : Result A :=
  match l !! i with Some x => Ok x | None => Err IndexError end.

Definition list_last {A} (l : list A) : Result A :=
  match last l with Some x => Ok x | None => Err IndexError end.

(** [assert b]. *)
Definition assert (b : bool) : Result () :=
  if b then Ok () else Err AssertionError.

(** [sum(points)] of coordinate pairs. *)
Definition point_sum (ps : list Point) : Point :=
  foldl (λ a p, (a.1 + p.1, a.2 + p.2)) (0, 0) ps.

(** A loop whose body can raise. *)
Fixpoint foldR {A B} (f : B → A → Result B) (b : B) (l : list A) : Result B :=
  match l with
  | [] => Ok b
  | x :: l' => b' ← f b x; foldR f b' l'
  end.

Section straight_heater.
Context `{Trig}.

(** [pp.components.electrical.tlm.tlm(width, height, layers, vias=[])] and
    [pp.components.extension.line(p_start, p_end, width)], which are not
    among the sources. *)
Variable tlm : Qc → Qc → list Layer → M Component.
Variable line : Point → Point → Qc → list Point.

(** The default of [tlm_layers], built from layer constants that are not
    among the sources. *)
Variable tlm_layers_default : list Layer.

(** [pp.port.auto_rename_ports], which is not among the sources. *)
Variable auto_rename_ports : Building → Building.

(** [straight_heater_connector], lines 183 to 242.  [port_width] is taken
    as a number: its [None] is not modelled. *)
Definition straight_heater_connector (heater_ports : list Port) (tlm_layers : list Layer)
  (port_width : Qc) (port_orientation : option Qc) : M Component :=
  let component := Component_new in
  _ ← lift (assert (bool_decide (length heater_ports = 2%nat)));
  p0 ← lift (list_item 0 heater_ports);
  p1 ← lift (list_item 1 heater_ports);
  _ ← lift (assert (bool_decide (orientation p0 = orientation p1)));
  let angle := orientation p0 in
  let angle := pymod angle (num 360) in
  _ ← lift (assert (bool_decide (angle ∈ [0; num 180])));
  let dx : Qc := 0 in
  let dy : Qc := 0 in
  let angle_to_dps : Dict Qc (list Point) :=
    [(0, [(- dx, - dy); (- dx, dy)]); (num 180, [(dx, - dy); (dx, dy)])] in
  let ports := heater_ports in
  let hw := width p0 in
  let ports :=
    if bool_decide (angle ∈ [0; num 180]) then sort_by port_y ports else sort_by port_x ports in
  _heater_to_metal ← tlm (Q2Qc 0.5) (Q2Qc 0.5) tlm_layers;
  dps ← lift (dict_item angle angle_to_dps);
  let '(tlm_positions, component) :=
    foldl (λ '(tlm_positions, component) '(port, dp),
             let p := midpoint port in
             let tlm_pos := translate dp p in
             let hm := ref_at _heater_to_metal tlm_pos in
             (tlm_positions ++ [tlm_pos], (add hm component).2))
      ([], component) (zip ports dps) in
  let ss : Qc := if bool_decide (angle = 0) then 1 else num (-1) in
  let edge_metal_piece_width : Qc := num 7 in
  let x := ss * edge_metal_piece_width / num 2 in
  top_metal_layer ← lift (list_last tlm_layers);
  t0 ← lift (list_item 0 tlm_positions);
  t1 ← lift (list_item 1 tlm_positions);
  let component :=
    add_polygon
      (line (translate (x, - hw / num 2) t0) (translate (x, hw / num 2) t1)
         edge_metal_piece_width)
      top_metal_layer component in
  let s := point_sum tlm_positions in
  component ← lift (add_port_fields "0"
                      (translate (ss * edge_metal_piece_width / num 2, 0)
                         (Q2Qc 0.5 * s.1, Q2Qc 0.5 * s.2))
                      port_width
                      (match port_orientation with Some o => o | None => angle end)
                      top_metal_layer "dc" component);
  mret (finalize component).

(** The default [connector] of [straight_with_heater]: the connector with
    its default [tlm_layers] and [port_orientation]. *)
Definition connector_default (heater_ports : list Port) (port_width : Qc) : M Component :=
  straight_heater_connector heater_ports tlm_layers_default port_width None.

(** [straight_with_heater], lines 267 to 292. *)
Definition straight_with_heater (length : Qc) (straight_heater : Kwargs → M Component)
  (connector : list Port → Qc → M Component) (port_width : Qc)
  (port_orientation_input port_orientation_output : Qc) (kwargs : Kwargs) : M Component :=
  let component := Component_new in
  kw ← lift (keywords [("length", VNum length)] kwargs);
  heater ← straight_heater kw;
  let '(wg_heater, component) := add_ref heater component in
  hbe0 ← lift (dict_item (NStr "HBE0") (ref_ports (get_ref component wg_heater)));
  hte0 ← lift (dict_item (NStr "HTE0") (ref_ports (get_ref component wg_heater)));
  connector1 ← connector [hbe0; hte0] port_width;
  hbw0 ← lift (dict_item (NStr "HBW0") (ref_ports (get_ref component wg_heater)));
  htw0 ← lift (dict_item (NStr "HTW0") (ref_ports (get_ref component wg_heater)));
  connector2 ← connector [hbw0; htw0] port_width;
  let '(conn1, component) := add_ref connector1 component in
  let '(conn2, component) := add_ref connector2 component in
  let component :=
    update_ref conn1 (set_xmin (ref_xmin (get_ref component wg_heater))) component in
  let component :=
    update_ref conn2 (set_xmax (ref_xmax (get_ref component wg_heater))) component in
  component ← lift (foldR (λ component '(port_name, p), add_port port_name p component)
                      component (ref_ports (get_ref component wg_heater)));
  p ← lift (dict_item (NStr "0") (ref_ports (get_ref component conn1)));
  component ← lift (add_port (NInt 1) p component);
  p ← lift (dict_item (NStr "0") (ref_ports (get_ref component conn2)));
  component ← lift (add_port (NInt 2) p component);
  component ← lift (set_port_orientation (NInt 1) port_orientation_input component);
  component ← lift (set_port_orientation (NInt 2) port_orientation_output component);
  let component := auto_rename_ports component in
  mret (finalize component).

End straight_heater.

(** A factory decorated with [@cell], used as a component factory: the
    caller receives the cached instance's Component.  Modelled from the
    spec: the cache is "keyed by (factory name, parameter values)", and the
    cross-section that the factory is called with is one of its parameters.
    A cross-section factory is a function object: [xs_key] gives the value
    under which it enters a cache key (the identity of the object). *)
Definition cell_factory (xs_key : CrossSectionFactory → PyVal) (fname : string)
  (body : ComponentFactory) : ComponentFactory :=
  λ cross_section kwargs,
    i ← cell fname (("cross_section", xs_key cross_section) :: kwargs)
          (body cross_section kwargs);
    mret (component i).

(** ** Further functions of the sources *)

(** [np.sign] and [abs]. *)
Definition np_sign (a : Qc) : Qc :=
  if decide (a < 0) then num (-1) else if decide (0 < a) then 1 else 0.

Definition py_abs (a : Qc) : Qc := if decide (a < 0) then - a else a.

(** A number out of a keyword value: arithmetic on anything else raises
    [TypeError]. *)
Definition as_num (v : PyVal) : Result Qc :=
  match v with
  | VNum q => Ok q
  | VInt z => Ok (num z)
  | _ => Err TypeError
  end.

(** [prefix + name] for a port name: a string is concatenated, an integer
    name raises [TypeError]. *)
Definition prefix_name (prefix : string) (name : Name) : Result Name :=
  match name with
  | NStr s => Ok (NStr (prefix +:+ s))
  | NInt _ => Err TypeError
  end.

(** A loop whose body reads and writes the cache and can raise. *)
Fixpoint foldM {A B} (f : B → A → M B) (b : B) (l : list A) : M B :=
  match l with
  | [] => mret b
  | x :: l' => b' ← f b x; foldM f b' l'
  end.

(** [component.ports = d]: the port map is replaced. *)
Definition set_ports (d : Dict Name Port) (c : Building) : Building :=
  Build_Building (objs c) (b_polygons c) (b_references c) d (b_length c).

(** Modelled from the spec: [component.ref(port_id=name, position=p)], a
    reference translated so that the child's port [name] lies at [p]
    ("translating the second component so that the target port's position
    matches"); the method is not among the sources. *)
Definition ref_port_at (child : Component) (port_id : Name) (position : Point)
  : Result ComponentReference :=
  p ← dict_item port_id (ports child);
  Ok (ref_at child (position.1 - (midpoint p).1, position.2 - (midpoint p).2)).

(** *** Exceptions of arithmetic *)

(** [add_trenches] divides by a value of its input: besides the exceptions
    of [PyError] it can raise [ZeroDivisionError]. *)
Inductive Exn :=
  | Py (e : PyError)
  | ZeroDivisionError.

#[global] Instance Exn_eq_dec : EqDecision Exn.
Proof. solve_decision. Defined.

Inductive Res (A : Type) :=
  | Fine (a : A)
  | Raise (e : Exn).
Arguments Fine {A} a.
Arguments Raise {A} e.

#[global] Instance Res_ret : MRet Res := λ A a, Fine a.
#[global] Instance Res_bind : MBind Res := λ A B f m,
  match m with Fine a => f a | Raise e => Raise e end.

(** A computation that cannot divide by zero, as one that can. *)
Definition Res_of {A} (r : Result A) : Res A :=
  match r with Ok a => Fine a | Err e => Raise (Py e) end.

Definition is_fine {A} (r : Res A) : bool :=
  match r with Fine _ => true | Raise _ => false end.

Definition MZ (A : Type) : Type := World → Res A * World.

#[global] Instance MZ_ret : MRet MZ := λ A a w, (Fine a, w).
#[global] Instance MZ_bind : MBind MZ := λ A B f m w,
  match m w with
  | (Fine a, w') => f a w'
  | (Raise e, w') => (Raise e, w')
  end.

(** A computation that cannot divide by zero, run as one that can. *)
Definition liftM {A} (m : M A) : MZ A := λ w,
  match m w with
  | (Ok a, w') => (Fine a, w')
  | (Err e, w') => (Raise (Py e), w')
  end.

Definition liftR {A} (r : Result A) : MZ A := liftM (lift r).

Definition liftZ {A} (r : Res A) : MZ A := λ w, (r, w).

Fixpoint foldMZ {A B} (f : B → A → MZ B) (b : B) (l : list A) : MZ B :=
  match l with
  | [] => mret b
  | x :: l' => b' ← f b x; foldMZ f b' l'
  end.

(** *** components/straight_heater.py: heater, add_trenches, straight_heater *)

(** One entry of [trenches], a [Dict[str, Number]] read through the keys
    "lane", "x_start_offset", "nb_segments" and "segments"; a key that is
    absent is [None]. *)
Record Trench := Build_Trench {
  lane : option Qc;
  x_start_offset : option Qc;
  nb_segments : option Z;
  segments : option (list Qc)
}.

(** The body of the loop of [heater], lines 31 to 33: [p.layer] and
    [p.port_type] are overwritten. *)
Definition retag_port (layer_heater : Layer) (p : Port) : Port :=
  Build_Port (port_name p) (midpoint p) (orientation p) (width p) layer_heater "heater".

(** [trench[key]], raising [KeyError]. *)
Definition trench_item {A} (v : option A) : Result A :=
  match v with Some a => Ok a | None => Err KeyError end.

(** Lines 65 and 66: the height at which the trenches of a lane lie. *)
Definition trench_y (a tko trench_width heater_width lane : Qc) : Qc :=
  let td := tko + a + (trench_width + heater_width) / num 2 in
  np_sign lane * (td + (py_abs lane - 1) * (trench_width + tko)).

(** Lines 69 to 74: the lengths of the segments of a trench.  Without
    "segments" the trench is cut in "nb_segments" equal parts, [sstw] apart;
    "nb_segments" is taken as an [int], as [[trench_length] * nb_segments]
    asks. *)
Definition trench_segments (length sstw : Qc) (trench : Trench) : Res (list Qc) :=
  match segments trench with
  | None =>
      nb_segments ← Res_of (trench_item (nb_segments trench));
      if bool_decide (nb_segments = 0%Z) then Raise ZeroDivisionError
      else
        let trench_length := (length - num (nb_segments - 1) * sstw) / num nb_segments in
        Fine (replicate (Z.to_nat nb_segments) trench_length)
  | Some segments => Fine segments
  end.

Section straight_heater_more.
Context `{Trig}.

(** [pp.components.hline.hline(length, width, layer)] and
    [pp.cross_section.get_waveguide_settings(waveguide, **settings)], which
    are not among the sources. *)
Variable hline : Qc → Qc → Layer → M Component.
Variable get_waveguide_settings : string → Kwargs → M Kwargs.

(** The body of [heater], lines 27 to 34.  [c.ports = _ref.ports] takes
    the ports of the reference, which are copies of the child's; the loop
    retags them. *)
Definition heater (length width : Qc) (layer_heater : Layer) : M Component :=
  let c := Component_new in
  h ← hline length width layer_heater;
  let '(_ref, c) := add_ref h c in
  let c := set_ports (ref_ports (get_ref c _ref)) c in
  let c :=
    set_ports
      (prod_map id (retag_port layer_heater) <$> b_ports c) c in
  c ← lift (absorb _ref c);
  mret (finalize c).

(** [heater] as decorated with [@cell]. *)
Definition heater_cell (length width : Qc) (layer_heater : Layer) : M Component :=
  i ← cell "heater"
        [("length", VNum length); ("width", VNum width); ("layer_heater", VLayer layer_heater)]
        (heater length width layer_heater);
  mret (component i).

(** The inner loop of [add_trenches], lines 75 to 85: one trench segment
    after the other, from [x] on. *)
Definition place_segments (c : Building) (trench_width sstw : Qc) (layer_trench : Layer)
  (x y : Qc) (segments : list Qc) : MZ (Qc * Building) :=
  foldMZ (λ '(x, c) trench_length,
            trench ← liftM (hline trench_length trench_width layer_trench);
            w0 ← liftR (dict_item (NStr "W0") (b_ports c));
            _trench ← liftR (ref_port_at trench "W0" (translate (x, y) (midpoint w0)));
            let '(h, c) := add _trench c in
            c ← liftR (absorb h c);
            mret (x + trench_length + sstw, c))
    (x, c) segments.

(** [add_trenches], lines 52 to 87.  The four settings are read from
    [c.settings], which is kept beside the component here. *)
Definition add_trenches (c : Building) (settings : Dict string Qc)
  (sstw trench_width trench_keep_out : Qc) (trenches : list Trench) (layer_trench : Layer)
  : MZ Building :=
  heater_width ← liftR (dict_item "heater_width" settings);
  heater_spacing ← liftR (dict_item "heater_spacing" settings);
  width ← liftR (dict_item "width" settings);
  length ← liftR (dict_item "length" settings);
  let a := heater_spacing + (width + heater_width) / num 2 in
  if bool_decide (0 < trench_width) then
    let tko := trench_keep_out in
    foldMZ (λ c trench,
              lane ← liftR (trench_item (lane trench));
              let y := trench_y a tko trench_width heater_width lane in
              x_start_offset ← liftR (trench_item (x_start_offset trench));
              segments ← liftZ (trench_segments length sstw trench);
              let x := x_start_offset in
              xc ← place_segments c trench_width sstw layer_trench x y segments;
              mret xc.2)
      c trenches
  else mret c.

(** The body of [straight_heater], lines 124 to 164.  The settings
    written on lines 156 to 159 are returned beside the Component. *)
Definition straight_heater (length heater_width heater_spacing sstw trench_width
    trench_keep_out : Qc) (trenches : list Trench) (layer_heater : Layer)
    (straight_factory : Kwargs → M Component) (layer_trench : Layer) (waveguide : string)
    (waveguide_settings : Kwargs) : MZ (Component * Dict string Qc) :=
  let c := Component_new in
  _heater ← liftM (heater_cell length heater_width layer_heater);
  waveguide_settings ← liftM (get_waveguide_settings waveguide waveguide_settings);
  width ← liftR (v ← dict_item "width" waveguide_settings; as_num v);
  let y_heater := heater_spacing + (width + heater_width) / num 2 in
  let '(heater_top, c) := add_ref _heater c in
  let '(heater_bot, c) := add_ref _heater c in
  let c := update_ref heater_top (movey y_heater) c in
  let c := update_ref heater_bot (movey (- y_heater)) c in
  kw ← liftR (keywords [("length", VNum length); ("waveguide", VStr waveguide)]
                waveguide_settings);
  wgc ← liftM (straight_factory kw);
  let '(wg, c) := add_ref wgc c in
  c ← liftR (foldR (λ c i, absorb i c) c [heater_top; heater_bot; wg]);
  c ← liftR (foldR (λ c p, add_port (port_name p) p c) c
               (dict_values (ref_ports (get_ref c wg))));
  c ← liftR (foldR (λ c p, name ← prefix_name "HT" (port_name p); add_port name p c) c
               (dict_values (ref_ports (get_ref c heater_top))));
  c ← liftR (foldR (λ c p, name ← prefix_name "HB" (port_name p); add_port name p c) c
               (dict_values (ref_ports (get_ref c heater_bot))));
  let settings :=
    dict_set "width" width
      (dict_set "length" length
         (dict_set "heater_spacing" heater_spacing
            (dict_set "heater_width" heater_width []))) in
  c ← add_trenches c settings sstw trench_width trench_keep_out trenches layer_trench;
  mret (finalize c, settings).

End straight_heater_more.

(** *** components/fiber_array.py *)

Section fiber_array.
Context `{Trig}.

(** [pp.components.fiber.circle(radius, layer)], which is not among the
    sources, and the defaults that [add_port] gives to the position, the
    layer and the type of a port. *)
Variable circle : Qc → Layer → M Component.
Variable default_midpoint : Point.
Variable default_layer : Layer.
Variable default_port_type : string.

(** The body of [fiber_array], lines 35 to 44; [range(n)] is empty for a
    negative [n]. *)
Definition fiber_array (n : Z) (pitch core_diameter cladding_diameter : Qc)
  (layer_core layer_cladding : Layer) : M Component :=
  let c := Component_new in
  c ← foldM (λ c i,
               co ← circle (core_diameter / num 2) layer_core;
               let '(core, c) := add_ref co c in
               cl ← circle (cladding_diameter / num 2) layer_cladding;
               let '(cladding, c) := add_ref cl c in
               let c := update_ref core (movex (num (Z.of_nat i) * pitch)) c in
               let c := update_ref cladding (movex (num (Z.of_nat i) * pitch)) c in
               lift (add_port_fields (NStr ("F" +:+ pretty i)) default_midpoint core_diameter 0
                       default_layer default_port_type c))
         c (seq 0 (Z.to_nat n));
  mret (finalize c).

End fiber_array.

(** ** Predicates used in the statements *)

(** The cache is sound when every cached instance was numbered before the
    counter's current value and no two keys share an instance. *)
Definition world_ok (w : World) : Prop :=
  (∀ k i, CACHE w !! k = Some i → (uid i < next_uid w)%nat) ∧
  (∀ k1 k2 i1 i2,
     CACHE w !! k1 = Some i1 → CACHE w !! k2 = Some i2 → uid i1 = uid i2 → k1 = k2).

(** A factory body may itself call cached factories: it keeps the cache
    sound and never winds the counter back. *)
Definition preserves_world {A} (m : M A) : Prop :=
  ∀ w, world_ok w → world_ok (m w).2 ∧ (next_uid w ≤ next_uid (m w).2)%nat.


(** What the three assertions of [straight_heater_connector] ask of
    [heater_ports]. *)
Definition connector_precondition (heater_ports : list Port) : Prop :=
  ∃ p0 p1,
    heater_ports = [p0; p1] ∧
    orientation p0 = orientation p1 ∧
    (pymod (orientation p0) (num 360) = 0 ∨ pymod (orientation p0) (num 360) = num 180).

(** "Orientation is always normalized to [0, 360).  Width > 0." *)
Definition port_ok (p : Port) : Prop :=
  0 ≤ orientation p ∧ orientation p < num 360 ∧ 0 < width p.

#[global] Instance port_ok_dec p : Decision (port_ok p).
Proof. unfold port_ok. apply _. Defined.

Definition ports_ok (d : Dict Name Port) : Prop := Forall (λ kp, port_ok kp.2) d.

Definition widths_positive (d : Dict Name Port) : Prop := Forall (λ kp, 0 < width kp.2) d.

(** Every reference object of a component under construction points to a
    child whose ports have a positive width. *)
Definition objs_ok (c : Building) : Prop :=
  Forall (λ r, widths_positive (ports (parent r))) (objs c).

(** What [bend(...) if callable(bend) else bend] evaluates to. *)
Definition bend_of (bend : ComponentOrFactory) (cross_section : CrossSectionFactory)
  (kwargs : Kwargs) : M Component :=
  match bend with
  | AFactory f => f cross_section kwargs
  | AComponent b => mret b
  end.

(** The handles of the reference list name stored objects, as they do in
    every component built with [add] and [absorb]. *)
Definition handles_ok (c : Building) : Prop :=
  Forall (λ h, (h < length (objs c))%nat) (b_references c).

(** From [c] to [c'] only polygons were added (and reference objects that
    are referenced no more). *)
Definition only_polygons_added (c c' : Building) : Prop :=
  b_ports c' = b_ports c ∧
  b_references c' = b_references c ∧
  b_length c' = b_length c ∧
  (∃ gs, b_polygons c' = b_polygons c ++ gs) ∧
  (∃ os, objs c' = objs c ++ os).

(** The entries that a loop of [add_port] calls appends to the port map:
    each port under its new name. *)
Definition exposed (names : list Name) (ps : list Port) : Dict Name Port :=
  zip_with (λ n p, (n, rename_port n p)) names ps.

(** The entry that [fiber_array] adds to the port map for the fibre [i]. *)
Definition fiber_port (default_midpoint : Point) (default_layer : Layer)
  (default_port_type : string) (core_diameter : Qc) (i : nat) : Name * Port :=
  (NStr ("F" +:+ pretty i),
   Build_Port (NStr ("F" +:+ pretty i)) default_midpoint 0 core_diameter default_layer
     default_port_type).

(** The state of the loop of [fiber_array] after [k] fibres: two references
    a fibre, both moved to the fibre's place, and one port a fibre. *)
Definition fiber_array_inv (circle : Qc → Layer → M Component) (default_midpoint : Point)
  (default_layer : Layer) (default_port_type : string)
  (pitch core_diameter cladding_diameter : Qc) (layer_core layer_cladding : Layer)
  (k : nat) (b : Building) : Prop :=
  length (objs b) = (2 * k)%nat ∧
  b_references b = seq 0 (2 * k) ∧
  b_polygons b = [] ∧
  b_length b = None ∧
  b_ports b
    = fiber_port default_midpoint default_layer default_port_type core_diameter <$> seq 0 k ∧
  ∀ i, (i < k)%nat →
    ∃ co cl,
      (∃ w0 w1, circle (core_diameter / num 2) layer_core w0 = (Ok co, w1)) ∧
      (∃ w0 w1, circle (cladding_diameter / num 2) layer_cladding w0 = (Ok cl, w1)) ∧
      objs b !! (2 * i)%nat = Some (movex (num (Z.of_nat i) * pitch) (ref co)) ∧
      objs b !! (2 * i + 1)%nat = Some (movex (num (Z.of_nat i) * pitch) (ref cl)).

(** A polygon is degenerate when all its points lie on one line
    [a x + b y = c]: it then encloses no area, however it winds. *)
Definition collinear (pts : list Point) : Prop :=
  ∃ a b c : Qc, (a ≠ 0 ∨ b ≠ 0) ∧ ∀ p, p ∈ pts → a * p.1 + b * p.2 = c.

(** ** Worked examples *)

(** Two pads 150 apart and a 180-degree bend of radius 37.5. *)
Definition ex_optical_port (name : string) (x y o : Qc) : Port :=
  Build_Port name (x, y) o (Q2Qc 0.5) (1, 0)%Z "optical".

Definition ex_bend180 : Component :=
  Build_Component
    [Build_Polygon [(0, 0); (Q2Qc 37.5, Q2Qc 37.5); (0, num 75)] (1, 0)%Z]
    []
    [(NStr "W0", ex_optical_port "W0" 0 0 (num 180));
     (NStr "W1", ex_optical_port "W1" 0 (num 75) (num 180))]
    (Some (Q2Qc 117.81)).

Definition ex_bend_body : ComponentFactory := λ _ _, mret ex_bend180.

(** The only cross-section of the examples is [strip]. *)
Definition ex_xs_key : CrossSectionFactory → PyVal := λ _, VStr "strip".

Definition ex_strip : CrossSectionFactory :=
  λ _, mret (Build_CrossSection [("width", Q2Qc 0.5)]).

Definition ex_pad0 : Port := ex_optical_port "S0" (num 1000) (num (-200)) (num 270).
Definition ex_pad1 : Port := ex_optical_port "S1" (num 1150) (num (-200)) (num 270).
Definition ex_pads : list Port := [ex_pad0; ex_pad1].

(** A heater with four heater ports, and stand-ins for [tlm] and [line]. *)
Definition ex_tlm : Qc → Qc → list Layer → M Component := λ w h layers,
  mret (Build_Component
          ((λ l, Build_Polygon
                   [(- w / num 2, - h / num 2); (w / num 2, - h / num 2);
                    (w / num 2, h / num 2); (- w / num 2, h / num 2)] l) <$> layers)
          [] [] None).

Definition ex_line : Point → Point → Qc → list Point := λ a b w,
  [(a.1 - w / num 2, a.2); (a.1 + w / num 2, a.2);
   (b.1 + w / num 2, b.2); (b.1 - w / num 2, b.2)].

Definition ex_tlm_layers : list Layer := [(40, 0)%Z; (41, 0)%Z; (45, 0)%Z].

Definition ex_heater_port (name : string) (x y o : Qc) : Name * Port :=
  (NStr name, Build_Port name (x, y) o (Q2Qc 0.5) (47, 0)%Z "heater").

Definition ex_heater : Component :=
  Build_Component
    [Build_Polygon [(0, num (-3)); (num 10, num (-3)); (num 10, num 3); (0, num 3)] (1, 0)%Z]
    []
    [(NStr "W0", ex_optical_port "W0" 0 0 (num 180));
     (NStr "E0", ex_optical_port "E0" (num 10) 0 0);
     ex_heater_port "HTW0" 0 (num 2) (num 180);
     ex_heater_port "HTE0" (num 10) (num 2) 0;
     ex_heater_port "HBW0" 0 (num (-2)) (num 180);
     ex_heater_port "HBE0" (num 10) (num (-2)) 0]
    None.

Definition ex_straight_heater : Kwargs → M Component := λ _, mret ex_heater.

(** A 90-degree bend of radius 10 and a straight of a given length. *)
Definition ex_bend90 : Component :=
  Build_Component
    [Build_Polygon [(0, 0); (num 10, 0); (num 10, num 10)] (1, 0)%Z]
    []
    [(NStr "W0", ex_optical_port "W0" 0 0 (num 180));
     (NStr "N0", ex_optical_port "N0" (num 10) (num 10) (num 90))]
    (Some (Q2Qc 15.7)).

Definition ex_bend90_factory : ComponentFactory := λ _ _, mret ex_bend90.

Definition ex_straight_of (l : Qc) : Component :=
  Build_Component
    [Build_Polygon [(0, - Q2Qc 0.25); (l, - Q2Qc 0.25); (l, Q2Qc 0.25); (0, Q2Qc 0.25)]
       (1, 0)%Z]
    []
    [(NStr "W0", ex_optical_port "W0" 0 0 (num 180));
     (NStr "E0", ex_optical_port "E0" l 0 0)]
    (Some l).

Definition ex_straight : ComponentFactory := λ _ kwargs,
  match dict_get "length" kwargs with
  | Some (VNum l) => mret (ex_straight_of l)
  | _ => raise TypeError
  end.

(** A bend whose "W0" port lies 3 above the x axis. *)
Definition ex_bend90_raised : Component :=
  Build_Component
    [Build_Polygon [(0, num 3); (num 10, num 3); (num 10, num 13)] (1, 0)%Z]
    []
    [(NStr "W0", ex_optical_port "W0" 0 (num 3) (num 180));
     (NStr "N0", ex_optical_port "N0" (num 10) (num 13) (num 90))]
    (Some (Q2Qc 15.7)).

(** Stand-ins for [hline], [get_waveguide_settings], the [straight]
    factory of [straight_heater] and [circle], and the default
    [trenches]. *)
Definition ex_hline : Qc → Qc → Layer → M Component := λ l w layer,
  mret (Build_Component
          [Build_Polygon [(0, - w / num 2); (l, - w / num 2); (l, w / num 2); (0, w / num 2)]
             layer]
          []
          [(NStr "W0", Build_Port "W0" (0, 0) (num 180) w layer "optical");
           (NStr "E0", Build_Port "E0" (l, 0) 0 w layer "optical")]
          None).

Definition ex_get_waveguide_settings : string → Kwargs → M Kwargs := λ waveguide settings,
  mret (("width", VNum (Q2Qc 0.5)) :: settings).

Definition ex_straight_factory : Kwargs → M Component := ex_straight ex_strip.

Definition ex_trenches : list Trench :=
  [Build_Trench (Some 1) (Some 0) (Some 2%Z) None;
   Build_Trench (Some (num (-1))) (Some 0) (Some 2%Z) None].

Definition ex_circle : Qc → Layer → M Component := λ r layer,
  mret (Build_Component
          [Build_Polygon [(r, 0); (0, r); (- r, 0); (0, - r)] layer] [] [] None).

(** A component with the port "W0" and the four settings that
    [add_trenches] reads, and a trench that asks for no segment. *)
Definition ex_trench_base : Building :=
  Build_Building [] [] [] [(NStr "W0", ex_optical_port "W0" 0 0 (num 180))] None.

Definition ex_settings : Dict string Qc :=
  [("heater_width", Q2Qc 0.5); ("heater_spacing", Q2Qc 1.2); ("length", num 10);
   ("width", Q2Qc 0.5)].

Definition ex_trench_empty : Trench := Build_Trench (Some 1) (Some 0) (Some 0%Z) None.

(** A [circle] that always fails. *)
Definition ex_circle_broken : Qc → Layer → M Component := λ _ _, raise ValueError.

(** * Properties *)

(** ** Arithmetic of [pymod] *)

Lemma floor_le a : Qc_of_Z (floor a) ≤ a.
Proof. unfold Qcle, floor. simpl. apply Qfloor_le. Qed.

Lemma floor_lt a : a < Qc_of_Z (floor a) + 1.
Proof.
  rewrite <- Z2Qc_inj_1, <- Z2Qc_inj_add.
  unfold Qclt, floor. simpl. apply Qlt_floor.
Qed.

Lemma floor_unique (a : Qc) (k : Z) :
  Qc_of_Z k ≤ a → a < Qc_of_Z k + 1 → floor a = k.
Proof.
  intros Hle Hlt.
  pose proof (floor_le a) as H1. pose proof (floor_lt a) as H2.
  assert (Qc_of_Z k < Qc_of_Z (floor a) + 1) as A by (eapply Qcle_lt_trans; eauto).
  assert (Qc_of_Z (floor a) < Qc_of_Z k + 1) as B by (eapply Qcle_lt_trans; eauto).
  rewrite <- Z2Qc_inj_1, <- Z2Qc_inj_add in A, B.
  apply Z2Qc_inj_lt in A, B. lia.
Qed.

Lemma num_360_pos : 0 < num 360.
Proof. compute_done. Qed.

Lemma num_360_ne : num 360 ≠ 0.
Proof. compute_done. Qed.

Lemma pymod_range a : 0 ≤ pymod a (num 360) ∧ pymod a (num 360) < num 360.
Proof.
  unfold pymod. set (k := Qc_of_Z (floor (a / num 360))).
  pose proof (floor_le (a / num 360)) as H1.
  pose proof (floor_lt (a / num 360)) as H2.
  fold k in H1, H2.
  apply (Qcmult_le_mono_pos_l _ _ (num 360) num_360_pos) in H1.
  apply (Qcmult_lt_mono_pos_l _ _ (num 360) num_360_pos) in H2.
  rewrite Qcmult_div_r in H1, H2 by apply num_360_ne.
  split.
  - apply (Qcplus_le_mono_r _ _ (num 360 * k)).
    replace (a - num 360 * k + num 360 * k) with a by ring.
    by rewrite Qcplus_0_l.
  - apply (Qcplus_lt_mono_r _ _ (num 360 * k)).
    replace (a - num 360 * k + num 360 * k) with a by ring.
    by replace (num 360 + num 360 * k) with (num 360 * (k + 1)) by ring.
Qed.

Lemma pymod_small a : 0 ≤ a → a < num 360 → pymod a (num 360) = a.
Proof.
  intros H0 H1. unfold pymod.
  rewrite (floor_unique (a / num 360) 0).
  - rewrite Z2Qc_inj_0. ring.
  - rewrite Z2Qc_inj_0. apply (Qcmult_le_mono_pos_l _ _ (num 360) num_360_pos).
    rewrite Qcmult_div_r by apply num_360_ne. by rewrite Qcmult_0_r.
  - rewrite Z2Qc_inj_0, Qcplus_0_l.
    apply (Qcmult_lt_mono_pos_l _ _ (num 360) num_360_pos).
    rewrite Qcmult_div_r by apply num_360_ne. by rewrite Qcmult_1_r.
Qed.

(** Whole turns do not change an orientation. *)
Lemma pymod_add_turns a (k : Z) :
  pymod (a + num 360 * Qc_of_Z k) (num 360) = pymod a (num 360).
Proof.
  unfold pymod.
  assert (floor ((a + num 360 * Qc_of_Z k) / num 360) = (floor (a / num 360) + k)%Z) as ->.
  { assert ((a + num 360 * Qc_of_Z k) / num 360 = a / num 360 + Qc_of_Z k) as ->
      by (field; apply num_360_ne).
    apply floor_unique; rewrite Z2Qc_inj_add.
    - apply Qcplus_le_mono_r, floor_le.
    - replace (Qc_of_Z (floor (a / num 360)) + Qc_of_Z k + 1)
        with (Qc_of_Z (floor (a / num 360)) + 1 + Qc_of_Z k) by ring.
      apply Qcplus_lt_mono_r, floor_lt. }
  rewrite Z2Qc_inj_add. ring.
Qed.

Lemma pymod_sub_pymod a b :
  pymod (a + (b - pymod a (num 360))) (num 360) = pymod b (num 360).
Proof.
  unfold pymod at 2.
  replace (a + (b - (a - num 360 * Qc_of_Z (floor (a / num 360)))))
    with (b + num 360 * Qc_of_Z (floor (a / num 360))) by ring.
  apply pymod_add_turns.
Qed.

(** ** The error and state monads *)

Lemma bind_ok {A B} (m : M A) (f : A → M B) w a w' :
  m w = (Ok a, w') → (m ≫= f) w = f a w'.
Proof. intros E. unfold mbind, M_bind. by rewrite E. Qed.

Lemma bind_err {A B} (m : M A) (f : A → M B) w e w' :
  m w = (Err e, w') → (m ≫= f) w = (Err e, w').
Proof. intros E. unfold mbind, M_bind. by rewrite E. Qed.

Lemma bind_lift_ok {A B} (r : Result A) (f : A → M B) w a :
  r = Ok a → (lift r ≫= f) w = f a w.
Proof. by intros ->. Qed.

Lemma bind_lift_err {A B} (r : Result A) (f : A → M B) w e :
  r = Err e → (lift r ≫= f) w = (Err e, w).
Proof. by intros ->. Qed.

Lemma bind_inv {A B} (m : M A) (f : A → M B) w b w' :
  (m ≫= f) w = (Ok b, w') → ∃ a w1, m w = (Ok a, w1) ∧ f a w1 = (Ok b, w').
Proof.
  unfold mbind, M_bind. destruct (m w) as [[a|e] w1]; [eauto | done].
Qed.

Lemma bind_lift_inv {A B} (r : Result A) (f : A → M B) w b w' :
  (lift r ≫= f) w = (Ok b, w') → ∃ a, r = Ok a ∧ f a w = (Ok b, w').
Proof. destruct r as [a|e]; [eauto | done]. Qed.

Lemma mret_inv {A} (a b : A) (w w' : World) :
  (mret a : M A) w = (Ok b, w') → a = b ∧ w = w'.
Proof. by intros [= -> ->]. Qed.

Lemma mapR_ok {A B} (f : A → Result B) (g : A → B) l :
  (∀ x, x ∈ l → f x = Ok (g x)) → mapR f l = Ok (g <$> l).
Proof.
  induction l as [|x l IH]; intros Hf; simpl; [done|].
  rewrite (Hf x) by left. simpl.
  rewrite IH; [done|]. intros y Hy. apply Hf. by right.
Qed.

Lemma mapR_inv {A B} (f : A → Result B) l l' :
  mapR f l = Ok l' → Forall2 (λ x y, f x = Ok y) l l'.
Proof.
  revert l'. induction l as [|x l IH]; intros l'; simpl.
  - intros [= <-]. constructor.
  - destruct (f x) as [y|] eqn:E; [|done]. simpl.
    destruct (mapR f l) as [ys|]; [|done]. simpl.
    intros [= <-]. constructor; auto.
Qed.

(** ** Dictionaries *)

Section dict_facts.
Context {K V : Type} `{EqDecision K}.
Implicit Types (d : Dict K V) (k : K) (v : V).

Lemma dict_get_None k d : dict_get k d = None ↔ k ∉ dict_keys d.
Proof.
  unfold dict_keys. induction d as [|[k' v] d IH]; simpl.
  - split; [intros _; apply not_elem_of_nil | done].
  - rewrite not_elem_of_cons. destruct (decide (k = k')) as [->|Hne].
    + split; [done | intros [Hk _]; by destruct Hk].
    + tauto.
Qed.

Lemma dict_get_Some_elem k v d : dict_get k d = Some v → (k, v) ∈ d.
Proof.
  induction d as [|[k' v'] d IH]; simpl; [done|].
  destruct (decide (k = k')) as [->|]; [intros [= ->]; left | right; auto].
Qed.

Lemma dict_set_fresh k v d : k ∉ dict_keys d → dict_set k v d = d ++ [(k, v)].
Proof.
  unfold dict_keys. induction d as [|[k' v'] d IH]; simpl; [done|].
  rewrite not_elem_of_cons. intros [Hne Hk].
  destruct (decide (k = k')); [done|]. by rewrite IH.
Qed.

Lemma dict_of_list_NoDup_aux (kvs : list (K * V)) d :
  NoDup (dict_keys d ++ kvs.*1) →
  foldl (λ d kv, dict_set kv.1 kv.2 d) d kvs = d ++ kvs.
Proof.
  revert d. induction kvs as [|[k v] kvs IH]; intros d Hnd; simpl.
  - by rewrite app_nil_r.
  - simpl in Hnd. rewrite dict_set_fresh.
    + rewrite IH; [by rewrite <- app_assoc|].
      unfold dict_keys. rewrite fmap_app. simpl. by rewrite <- app_assoc.
    + apply NoDup_app in Hnd as (_ & Hd & _). intros Hk. apply (Hd k Hk). left.
Qed.

(** A comprehension over distinct keys is the list of its items. *)
Lemma dict_of_list_NoDup (kvs : list (K * V)) : NoDup kvs.*1 → dict_of_list kvs = kvs.
Proof. intros Hnd. unfold dict_of_list. by rewrite dict_of_list_NoDup_aux. Qed.

Lemma dict_get_lookup (kvs : list (K * V)) i k v :
  NoDup kvs.*1 → kvs !! i = Some (k, v) → dict_get k kvs = Some v.
Proof.
  revert i. induction kvs as [|[k' v'] kvs IH]; intros i Hnd Hi; [done|].
  simpl. apply NoDup_cons in Hnd as [Hk' Hnd]. destruct i as [|i]; simpl in Hi.
  - injection Hi as -> ->. by rewrite decide_True.
  - rewrite decide_False; [eauto|]. intros ->. apply Hk'.
    apply list_elem_of_fmap. exists (k', v). split; [done|].
    by eapply list_elem_of_lookup_2.
Qed.

Lemma dict_get_fmap {W} (f : V → W) k d :
  dict_get k (prod_map id f <$> d) = f <$> dict_get k d.
Proof.
  induction d as [|[k' v] d IH]; simpl; [done|].
  by destruct (decide (k = k')).
Qed.

Lemma dict_item_Ok k d v : dict_item k d = Ok v ↔ dict_get k d = Some v.
Proof. unfold dict_item. destruct (dict_get k d); naive_solver. Qed.

Lemma dict_get_set_eq k v d : dict_get k (dict_set k v d) = Some v.
Proof.
  induction d as [|[k' v'] d IH]; simpl; [by rewrite decide_True|].
  destruct (decide (k = k')) as [->|Hne]; simpl; [by rewrite decide_True|].
  by rewrite decide_False.
Qed.

Lemma dict_get_set_ne k k' v d : k' ≠ k → dict_get k' (dict_set k v d) = dict_get k' d.
Proof.
  intros Hne. induction d as [|[k0 v0] d IH]; simpl; [by rewrite decide_False|].
  destruct (decide (k = k0)) as [->|Hk]; simpl.
  - by rewrite !decide_False.
  - destruct (decide (k' = k0)); [done | apply IH].
Qed.

End dict_facts.

(** ** References *)

Lemma Result_bind_eq {A B} (r : Result A) (f : A → Result B) a :
  r = Ok a → (r ≫= f) = f a.
Proof. by intros ->. Qed.

Lemma Result_bind_inv {A B} (r : Result A) (f : A → Result B) b :
  (r ≫= f) = Ok b → ∃ a, r = Ok a ∧ f a = Ok b.
Proof. destruct r as [a|e]; [eauto | done]. Qed.

Lemma Result_fmap_inv {A B} (r : Result A) (f : A → B) b :
  f <$> r = Ok b → ∃ a, r = Ok a ∧ b = f a.
Proof. destruct r as [a|e]; [|done]. intros [= <-]. eauto. Qed.

Lemma lift_inv {A} (r : Result A) w a w' : lift r w = (Ok a, w') → r = Ok a ∧ w' = w.
Proof. by intros [= -> ->]. Qed.

Lemma Result_bind_Ok {A B} (a : A) (f : A → Result B) : (Ok a ≫= f) = f a.
Proof. done. Qed.

Section references.
Context `{Trig}.

Lemma ref_ports_get (r : ComponentReference) k :
  dict_get k (ref_ports r) = transform_port r <$> dict_get k (ports (parent r)).
Proof. apply dict_get_fmap. Qed.

Lemma rotate_point_0 c p : rotate_point 0 c p = p.
Proof.
  destruct c as [cx cy], p as [px py]. unfold rotate_point. simpl.
  rewrite cosd_0, sind_0. f_equal; ring.
Qed.

(** A reference that is only translated shifts every point by its origin. *)
Lemma transform_point_unrotated r p :
  rotation r = 0 → x_reflection r = false →
  transform_point r p = translate (origin r) p.
Proof.
  intros Hr Hm. unfold transform_point. by rewrite Hr, Hm, rotate_point_0.
Qed.

Lemma transform_point_move d r p :
  transform_point (move d r) p = translate d (transform_point r p).
Proof.
  destruct r as [c [ox oy] a m], d as [dx dy]. unfold transform_point, translate. simpl.
  f_equal; ring.
Qed.

(** What [connect] establishes: the reference's port sits on the destination
    port and faces it. *)
Lemma connect_spec port destination r p0 :
  dict_get port (ports (parent r)) = Some p0 →
  ∃ r' p',
    connect port destination r = Ok r' ∧
    parent r' = parent r ∧
    dict_get port (ref_ports r') = Some p' ∧
    midpoint p' = midpoint destination ∧
    orientation p' = pymod (orientation destination + num 180) (num 360) ∧
    width p' = width p0.
Proof.
  intros Hp0. unfold connect.
  set (p := transform_port r p0).
  set (r1 := rotate (num 180 + orientation destination - orientation p) (midpoint p) r).
  set (p1 := transform_port r1 p0).
  assert (dict_item port (ref_ports r) = Ok p) as ->.
  { apply dict_item_Ok. by rewrite ref_ports_get, Hp0. }
  rewrite Result_bind_Ok. cbv zeta. fold r1.
  assert (dict_item port (ref_ports r1) = Ok p1) as ->.
  { apply dict_item_Ok. rewrite ref_ports_get.
    change (parent r1) with (parent r). by rewrite Hp0. }
  rewrite Result_bind_Ok.
  eexists _, _. split; [done|]. split; [done|].
  split.
  { rewrite ref_ports_get. change (parent (move _ r1)) with (parent r). by rewrite Hp0. }
  split; [|split; [|done]].
  - change (midpoint (transform_port ?r' p0)) with (transform_point r' (midpoint p0)).
    rewrite transform_point_move.
    change (midpoint p1) with (transform_point r1 (midpoint p0)).
    destruct (transform_point r1 (midpoint p0)) as [x1 y1].
    destruct (midpoint destination) as [xd yd].
    unfold translate. simpl. f_equal; ring.
  - destruct r as [c o a m]. simpl.
    set (o' := if m then - orientation p0 else orientation p0).
    replace (o' + (a + (num 180 + orientation destination - pymod (o' + a) (num 360))))
      with ((o' + a) + ((orientation destination + num 180) - pymod (o' + a) (num 360)))
      by ring.
    apply pymod_sub_pymod.
Qed.

Lemma connect_missing port destination r :
  dict_get port (ports (parent r)) = None → connect port destination r = Err KeyError.
Proof.
  intros Hp. unfold connect.
  assert (dict_item port (ref_ports r) = Err KeyError) as ->; [|done].
  unfold dict_item. by rewrite ref_ports_get, Hp.
Qed.

End references.

(** ** get_routes_bend180 *)

Lemma keywords_ok (explicit kwargs : Kwargs) :
  Forall (λ k, k ∉ dict_keys kwargs) (dict_keys explicit) →
  keywords explicit kwargs = Ok (explicit ++ kwargs).
Proof.
  intros Hf. unfold keywords. rewrite decide_False; [done|].
  intros Hex. apply Exists_exists in Hex as (k & Hk & Hin).
  rewrite Forall_forall in Hf. by apply (Hf k).
Qed.

Lemma keywords_inv (explicit kwargs kw : Kwargs) :
  keywords explicit kwargs = Ok kw → kw = explicit ++ kwargs.
Proof. unfold keywords. case_decide; [done|]. by intros [= <-]. Qed.

Lemma zip_const_r {A B} (l : list A) (b : B) :
  zip l ((λ _, b) <$> l) = (λ a, (a, b)) <$> l.
Proof. induction l as [|a l IH]; simpl; [done|]. by f_equal. Qed.

Lemma mapR_fmap {A B C} (f : B → Result C) (h : A → B) l :
  mapR f (h <$> l) = mapR (f ∘ h) l.
Proof.
  induction l as [|a l IH]; [done|].
  change (mapR f (h <$> a :: l)) with (y ← f (h a); ys ← mapR f (h <$> l); Ok (y :: ys)).
  by rewrite IH.
Qed.

Lemma enumerate_lookup {A} (l : list A) i x :
  l !! i = Some x → enumerate l !! i = Some (i, x).
Proof.
  intros Hi. unfold enumerate. apply lookup_zip_with_Some. exists i, x.
  split; [done|]. split; [|done].
  apply lookup_seq. split; [done|]. by eapply lookup_lt_Some.
Qed.

Lemma enumerate_keys {A B C} (g : nat → C) (f : nat → A → B) (l : list A) :
  ((λ '(i, x), (g i, f i x)) <$> enumerate l).*1 = g <$> seq 0 (length l).
Proof.
  unfold enumerate. rewrite <- list_fmap_compose.
  rewrite <- (fst_zip (seq 0 (length l)) l) at 2 by (by rewrite length_seq).
  rewrite <- list_fmap_compose.
  apply list_fmap_ext. by intros _ [i x] _.
Qed.

Lemma enumerate_length {A} (l : list A) : length (enumerate l) = length l.
Proof. unfold enumerate. rewrite length_zip_with, length_seq. lia. Qed.

Lemma enumerate_elem {A} (l : list A) i x : (i, x) ∈ enumerate l → x ∈ l.
Proof. unfold enumerate. intros Hin. by apply elem_of_zip_r in Hin. Qed.

Section get_routes_bend180_facts.
Context `{Trig}.

(** The pure part of the function, after the bend has been built: what
    lines 26 to 30 compute from the bend and the ports. *)
Lemma get_routes_bend180_unfold ps f xs kwargs w bend w' pw0 pw1 l :
  "angle" ∉ dict_keys kwargs →
  f xs (("angle", VInt 180) :: kwargs) w = (Ok bend, w') →
  dict_get (NStr "W0") (ports bend) = Some pw0 →
  dict_get (NStr "W1") (ports bend) = Some pw1 →
  comp_length bend = Some l →
  ∃ place : Port → ComponentReference,
    (∀ port, connect "W0" port (ref bend) = Ok (place port)) ∧
    get_routes_bend180 ps (AFactory f) xs kwargs w =
      (Ok (Build_Routes
             (place <$> ports_list ps)
             ((λ '(i, r), (pretty i, transform_port r pw1))
                <$> enumerate (place <$> ports_list ps))
             (replicate (length (ports_list ps)) l)), w').
Proof.
  intros Hkw Hf Hw0 Hw1 Hl.
  assert (∀ port, ∃ r, connect "W0" port (ref bend) = Ok r ∧ parent r = bend) as Hc.
  { intros port. destruct (connect_spec "W0" port (ref bend) pw0 Hw0)
      as (r & p' & Hr & Hpar & _). eauto. }
  set (place := λ port,
    match connect "W0" port (ref bend) with Ok r => r | Err _ => ref bend end).
  assert (∀ port, connect "W0" port (ref bend) = Ok (place port)) as Hplace.
  { intros port. unfold place. by destruct (Hc port) as (r & -> & _). }
  assert (∀ port, parent (place port) = bend) as Hparent.
  { intros port. destruct (Hc port) as (r & Hr & Hp). rewrite Hplace in Hr. congruence. }
  exists place. split; [done|].
  unfold get_routes_bend180.
  rewrite (bind_lift_ok _ _ _ ([("angle", VInt 180)] ++ kwargs)).
  2:{ apply keywords_ok. repeat constructor. done. }
  rewrite (bind_ok _ _ _ _ _ Hf).
  unfold lift. f_equal. cbv zeta.
  rewrite zip_const_r, mapR_fmap.
  rewrite (Result_bind_eq _ _ (place <$> ports_list ps)).
  2:{ apply mapR_ok. intros port _. simpl. apply Hplace. }
  rewrite (Result_bind_eq _ _
    ((λ '(i, r), (pretty i, transform_port r pw1)) <$> enumerate (place <$> ports_list ps))).
  2:{ rewrite (mapR_ok _ (λ '(i, r), (pretty i, transform_port r pw1))).
      - simpl. f_equal. apply dict_of_list_NoDup.
        rewrite (enumerate_keys pretty (λ _ r, transform_port r pw1)).
        apply (NoDup_fmap_2 _), NoDup_seq.
      - intros [i r] Hin. apply enumerate_elem in Hin.
        apply list_elem_of_fmap in Hin as (port & -> & _).
        rewrite (proj2 (dict_item_Ok _ _ (transform_port (place port) pw1))); [done|].
        by rewrite ref_ports_get, Hparent, Hw1. }
  rewrite (Result_bind_eq _ _ l) by (unfold length_attr; by rewrite Hl).
  unfold dict_len. by rewrite length_fmap, enumerate_length, length_fmap.
Qed.

(** C1: for every ordered collection of input ports (the non-empty ones
    included), when [bend_factory(angle=180, ...)] returns a bend that has
    the ports "W0" and "W1" and a length, [get_routes_bend180] returns a
    Routes record holding exactly one reference, one output port and one
    path length per input port; the i-th reference is a placement of that
    bend whose "W0" port sits on the i-th input port and faces it, and the
    port stored under the index i is the "W1" port of the i-th reference. *)
Theorem get_routes_bend180_one_bend_per_port ps f xs kwargs w bend w' pw0 pw1 l :
  "angle" ∉ dict_keys kwargs →
  f xs (("angle", VInt 180) :: kwargs) w = (Ok bend, w') →
  dict_get (NStr "W0") (ports bend) = Some pw0 →
  dict_get (NStr "W1") (ports bend) = Some pw1 →
  comp_length bend = Some l →
  ∃ routes,
    get_routes_bend180 ps (AFactory f) xs kwargs w = (Ok routes, w') ∧
    length (routes_references routes) = length (ports_list ps) ∧
    dict_len (routes_ports routes) = length (ports_list ps) ∧
    length (routes_lengths routes) = length (ports_list ps) ∧
    ∀ i port, ports_list ps !! i = Some port →
      ∃ r p0 p1,
        routes_references routes !! i = Some r ∧
        connect "W0" port (ref bend) = Ok r ∧
        parent r = bend ∧
        dict_get (NStr "W0") (ref_ports r) = Some p0 ∧
        midpoint p0 = midpoint port ∧
        orientation p0 = pymod (orientation port + num 180) (num 360) ∧
        dict_get (NStr "W1") (ref_ports r) = Some p1 ∧
        dict_get (pretty i) (routes_ports routes) = Some p1.
Proof.
  intros Hkw Hf Hw0 Hw1 Hl.
  destruct (get_routes_bend180_unfold ps f xs kwargs w bend w' pw0 pw1 l)
    as (place & Hplace & Hrun); try done.
  eexists. split; [exact Hrun|]. simpl.
  rewrite length_fmap, length_replicate. unfold dict_len.
  rewrite length_fmap, enumerate_length, length_fmap.
  do 3 (split; [done|]).
  intros i port Hi.
  destruct (connect_spec "W0" port (ref bend) pw0 Hw0)
    as (r & p0 & Hr & Hpar & Hp0 & Hmid & Hor & _).
  rewrite Hplace in Hr. injection Hr as <-.
  change (parent (ref bend)) with bend in Hpar.
  exists (place port), p0, (transform_port (place port) pw1).
  split; [by rewrite list_lookup_fmap, Hi|].
  do 5 (split; [done|]).
  split; [by rewrite ref_ports_get, Hpar, Hw1|].
  apply (dict_get_lookup _ i).
  - rewrite (enumerate_keys pretty (λ _ r, transform_port r pw1)).
    apply (NoDup_fmap_2 _), NoDup_seq.
  - rewrite list_lookup_fmap.
    rewrite (enumerate_lookup _ i (place port)); [done|].
    by rewrite list_lookup_fmap, Hi.
Qed.

Lemma mapR_keys {A B C} (g : A → Result B) (h : nat → C) (l : list (nat * A)) l' :
  mapR (λ '(i, r), p ← g r; Ok (h i, p)) l = Ok l' → l'.*1 = h <$> l.*1.
Proof.
  revert l'. induction l as [|[i r] l IH]; intros l'; simpl.
  - by intros [= <-].
  - destruct (g r) as [p|]; [|done]. simpl.
    destruct (mapR _ l) as [ys|]; [|done]. simpl.
    intros [= <-]. simpl. f_equal. by apply IH.
Qed.

(** C2: every path length in the Routes that [get_routes_bend180] returns
    is the [length] attribute of the one bend that
    [bend_factory(angle=180, ...)] returned: the list of lengths is that
    value repeated once per input port, whatever the ports are and wherever
    they lie. *)
Theorem get_routes_bend180_lengths ps bend_factory xs kwargs w routes w' :
  get_routes_bend180 ps bend_factory xs kwargs w = (Ok routes, w') →
  ∃ f bend l,
    bend_factory = AFactory f ∧
    f xs (("angle", VInt 180) :: kwargs) w = (Ok bend, w') ∧
    comp_length bend = Some l ∧
    routes_lengths routes = replicate (length (ports_list ps)) l ∧
    ∀ x, x ∈ routes_lengths routes → x = l.
Proof.
  unfold get_routes_bend180. intros Hrun.
  apply bind_lift_inv in Hrun as (kw & Hkw & Hrun).
  apply keywords_inv in Hkw as ->.
  apply bind_inv in Hrun as (bend & w1 & Hbend & Hrun).
  destruct bend_factory as [f|c]; [|done].
  apply lift_inv in Hrun as [Hrun ->]. cbv zeta in Hrun.
  apply Result_bind_inv in Hrun as (refs & Hrefs & Hrun).
  apply Result_bind_inv in Hrun as (d & Hd & Hrun).
  apply Result_bind_inv in Hrun as (l & Hl & Hrun).
  injection Hrun as <-. simpl.
  apply Result_fmap_inv in Hd as (kvs & Hkvs & ->).
  assert (dict_len (dict_of_list kvs) = length (ports_list ps)) as ->.
  { pose proof (mapR_keys _ _ _ _ Hkvs) as Hkeys.
    rewrite dict_of_list_NoDup.
    - unfold dict_len. rewrite <- (length_fmap fst), Hkeys, length_fmap, length_fmap.
      rewrite enumerate_length.
      apply mapR_inv, Forall2_length in Hrefs.
      rewrite <- Hrefs, length_zip_with, length_fmap. lia.
    - rewrite Hkeys. unfold enumerate.
      rewrite fst_zip by (by rewrite length_seq).
      apply (NoDup_fmap_2 _), NoDup_seq. }
  exists f, bend, l. split; [done|]. split; [done|].
  split; [unfold length_attr in Hl; by destruct (comp_length bend) as [?|]; simplify_eq|].
  split; [done|]. intros x Hx. by apply elem_of_replicate in Hx as [-> _].
Qed.

(** *** Calls through the factory cache *)

Lemma cell_cached fname args body w i w' :
  cell fname args body w = (Ok i, w') → CACHE w' !! cache_key fname args = Some i.
Proof.
  unfold cell. destruct (CACHE w !! cache_key fname args) as [j|] eqn:E.
  - by intros [= <- <-].
  - destruct (body w) as [[c|e] w1]; [|done]. intros [= <- <-]. simpl.
    by rewrite lookup_insert_eq.
Qed.

Lemma cell_hit fname args body w i :
  CACHE w !! cache_key fname args = Some i → cell fname args body w = (Ok i, w).
Proof. intros E. unfold cell. by rewrite E. Qed.

(** A cached ([@cell]) factory is stable: called again in the state its
    own call left, with the same cross-section and keywords, it returns the
    same Component and leaves the state alone. *)
Lemma cell_factory_stable xs_key fname body xs kw w bend w1 :
  cell_factory xs_key fname body xs kw w = (Ok bend, w1) →
  cell_factory xs_key fname body xs kw w1 = (Ok bend, w1).
Proof.
  unfold cell_factory. intros Hbend.
  apply bind_inv in Hbend as (i & wb & Hcell & Hret).
  apply mret_inv in Hret as [<- ->].
  apply cell_cached in Hcell.
  by rewrite (bind_ok _ _ _ i w1) by by apply cell_hit.
Qed.

(** Calls of a cached factory with cross-sections of different identity
    have different cache keys. *)
Lemma cell_factory_keys_cross_section (xs_key : CrossSectionFactory → PyVal) fname
    (xs xs' : CrossSectionFactory) (kwargs : Kwargs) :
  xs_key xs ≠ xs_key xs' →
  cache_key fname (("cross_section", xs_key xs) :: kwargs)
    ≠ cache_key fname (("cross_section", xs_key xs') :: kwargs).
Proof.
  intros Hne [= Heq]. apply Hne.
  apply (f_equal (λ m : gmap string PyVal, m !! "cross_section")) in Heq.
  rewrite !lookup_insert_eq in Heq. by injection Heq.
Qed.

(** C3: [get_routes_bend180] is deterministic and order-preserving.  With a
    bend factory that returns the same bend when it is called again in the
    state its call left (as every cached, [@cell], factory does), a second
    call on the same ordered ports (given as the same list, or as a mapping
    with the same values in insertion order), made in the state the first
    call left, returns the same Routes: the same references, the same
    index-to-port mapping and the same path lengths, and leaves the state
    unchanged.  The indices are "0" .. "n-1" in the enumeration order of
    the input ports: the index [i] holds the "W1" port of the reference
    whose "W0" port was connected to the [i]-th input port, and lies on
    it. *)
Theorem get_routes_bend180_deterministic ps ps' f xs kwargs w routes w1 :
  ports_list ps' = ports_list ps →
  (∀ kw bend, f xs kw w = (Ok bend, w1) → f xs kw w1 = (Ok bend, w1)) →
  get_routes_bend180 ps (AFactory f) xs kwargs w = (Ok routes, w1) →
  get_routes_bend180 ps' (AFactory f) xs kwargs w1 = (Ok routes, w1) ∧
  dict_keys (routes_ports routes) = pretty <$> seq 0 (length (ports_list ps)) ∧
  ∃ bend l,
    f xs (("angle", VInt 180) :: kwargs) w = (Ok bend, w1) ∧
    routes_lengths routes = replicate (length (ports_list ps)) l ∧
    ∀ i port, ports_list ps !! i = Some port →
      ∃ r p0 p1,
        routes_references routes !! i = Some r ∧
        connect "W0" port (ref bend) = Ok r ∧
        dict_get (NStr "W0") (ref_ports r) = Some p0 ∧
        midpoint p0 = midpoint port ∧
        dict_get (NStr "W1") (ref_ports r) = Some p1 ∧
        dict_get (pretty i) (routes_ports routes) = Some p1.
Proof.
  intros Hps Hstable Hrun. unfold get_routes_bend180 in *. rewrite Hps.
  apply bind_lift_inv in Hrun as (kw & Hkw & Hrun). rewrite Hkw.
  rewrite (bind_lift_ok _ _ _ kw) by done.
  apply bind_inv in Hrun as (bend & wa & Hbend & Hrun).
  apply lift_inv in Hrun as [Hrun ->].
  pose proof (Hstable _ _ Hbend) as Hagain.
  rewrite (bind_ok _ _ _ _ _ Hagain). unfold lift. rewrite Hrun. split; [done|].
  apply keywords_inv in Hkw as ->.
  cbv zeta in Hrun.
  apply Result_bind_inv in Hrun as (refs & Hrefs & Hrun).
  apply Result_bind_inv in Hrun as (d & Hd & Hrun).
  apply Result_bind_inv in Hrun as (l & Hl & Hrun).
  injection Hrun as <-. cbn [routes_references routes_ports routes_lengths].
  apply Result_fmap_inv in Hd as (kvs & Hkvs & ->).
  pose proof (mapR_keys _ _ _ _ Hkvs) as Hkeys.
  rewrite zip_const_r, mapR_fmap in Hrefs.
  pose proof (mapR_inv _ _ _ Hrefs) as Hall.
  assert (length refs = length (ports_list ps)) as Hlen
    by (by apply Forall2_length in Hall).
  unfold enumerate in Hkeys. rewrite fst_zip in Hkeys by (by rewrite length_seq).
  assert (NoDup kvs.*1) as Hnd by (rewrite Hkeys; apply (NoDup_fmap_2 _), NoDup_seq).
  rewrite dict_of_list_NoDup by done.
  split; [unfold dict_keys; by rewrite Hkeys, Hlen|].
  exists bend, l. split; [done|]. split.
  { unfold dict_len. by rewrite <- (length_fmap fst), Hkeys, length_fmap, length_seq, Hlen. }
  intros i port Hi.
  destruct (Forall2_lookup_l _ _ _ _ _ Hall Hi) as (r & Hr & Hconn).
  cbn [compose] in Hconn.
  assert (∃ pw0, dict_get (NStr "W0") (ports bend) = Some pw0) as [pw0 Hw0].
  { unfold connect in Hconn.
    apply Result_bind_inv in Hconn as (p & Hp%dict_item_Ok & _).
    rewrite ref_ports_get in Hp. cbn [parent ref] in Hp.
    destruct (dict_get (NStr "W0") (ports bend)) as [pw0|]; [by eexists|done]. }
  destruct (connect_spec "W0" port (ref bend) pw0 Hw0)
    as (r' & p0 & Hconn' & _ & Hp0 & Hmid & _).
  rewrite Hconn in Hconn'. injection Hconn' as <-.
  pose proof (mapR_inv _ _ _ Hkvs) as Hall2.
  destruct (Forall2_lookup_l _ _ _ _ _ Hall2 (enumerate_lookup refs i r Hr))
    as ([k p1] & Hkv & Hitem).
  apply Result_bind_inv in Hitem as (p1' & Hp1%dict_item_Ok & [= <- <-]).
  exists r, p0, p1'. repeat (split; [done|]).
  by apply (dict_get_lookup _ i).
Qed.

(** [bend_factory] is declared as a Component or a factory, but a Component
    built beforehand is called all the same. *)
Lemma get_routes_bend180_prebuilt ps c xs kwargs w :
  "angle" ∉ dict_keys kwargs →
  get_routes_bend180 ps (AComponent c) xs kwargs w = (Err TypeError, w).
Proof.
  intros Hkw. unfold get_routes_bend180.
  by rewrite (bind_lift_ok _ _ _ ([("angle", VInt 180)] ++ kwargs))
    by (apply keywords_ok; by repeat constructor).
Qed.

(** Without a "W0" port on the bend, the first input port already makes
    the call fail. *)
Lemma get_routes_bend180_missing_port ps port rest f xs kwargs w bend w' :
  "angle" ∉ dict_keys kwargs →
  f xs (("angle", VInt 180) :: kwargs) w = (Ok bend, w') →
  dict_get (NStr "W0") (ports bend) = None →
  ports_list ps = port :: rest →
  get_routes_bend180 ps (AFactory f) xs kwargs w = (Err KeyError, w').
Proof.
  intros Hkw Hf Hw0 Hps. unfold get_routes_bend180.
  rewrite (bind_lift_ok _ _ _ ([("angle", VInt 180)] ++ kwargs))
    by (apply keywords_ok; by repeat constructor).
  rewrite (bind_ok _ _ _ _ _ Hf).
  unfold lift. f_equal. cbv zeta.
  rewrite zip_const_r, mapR_fmap, Hps.
  change (mapR ?g (port :: rest)) with (y ← g port; ys ← mapR g rest; Ok (y :: ys)).
  simpl. by rewrite connect_missing.
Qed.
End get_routes_bend180_facts.

Lemma get_routes_bend180_one_bend_per_port_witness :
  ∃ routes,
    get_routes_bend180 (PortList ex_pads) (AFactory ex_bend_body) ex_strip [] empty_world
      = (Ok routes, empty_world) ∧
    length (routes_references routes) = 2%nat ∧
    dict_len (routes_ports routes) = 2%nat ∧
    length (routes_lengths routes) = 2%nat.
Proof.
  destruct (get_routes_bend180_one_bend_per_port (PortList ex_pads) ex_bend_body ex_strip []
              empty_world ex_bend180 empty_world
              (ex_optical_port "W0" 0 0 (num 180))
              (ex_optical_port "W1" 0 (num 75) (num 180)) (Q2Qc 117.81))
    as (routes & Hrun & Hrefs & Hports & Hlengths & _).
  - compute_done.
  - reflexivity.
  - reflexivity.
  - reflexivity.
  - reflexivity.
  - exists routes. by repeat split.
Defined.

Lemma get_routes_bend180_lengths_witness :
  ∃ routes,
    (get_routes_bend180 (PortList ex_pads) (AFactory ex_bend_body) ex_strip [] empty_world).1
      = Ok routes ∧
    routes_lengths routes = [Q2Qc 117.81; Q2Qc 117.81].
Proof.
  destruct (get_routes_bend180 (PortList ex_pads) (AFactory ex_bend_body) ex_strip []
              empty_world) as [[routes|e] w'] eqn:Hrun; [|by vm_compute in Hrun].
  destruct (get_routes_bend180_lengths _ _ _ _ _ _ _ Hrun)
    as (f & bend & l & Hf & Hbend & Hl & Hlengths & _).
  injection Hf as <-. injection Hbend as <- <-. injection Hl as <-.
  exists routes. split; [done|]. by rewrite Hlengths.
Defined.

Lemma get_routes_bend180_deterministic_witness :
  ∃ routes w1,
    get_routes_bend180 (PortList ex_pads)
      (AFactory (cell_factory ex_xs_key "bend_euler" ex_bend_body)) ex_strip [] empty_world
      = (Ok routes, w1) ∧
    get_routes_bend180 (PortDict [("S0", ex_pad0); ("S1", ex_pad1)])
      (AFactory (cell_factory ex_xs_key "bend_euler" ex_bend_body)) ex_strip [] w1
      = (Ok routes, w1) ∧
    dict_keys (routes_ports routes) = ["0"; "1"] ∧
    ∃ bend l,
      cell_factory ex_xs_key "bend_euler" ex_bend_body ex_strip [("angle", VInt 180)]
        empty_world = (Ok bend, w1) ∧
      routes_lengths routes = [l; l] ∧
      ∀ i port, ex_pads !! i = Some port →
        ∃ r p0 p1,
          routes_references routes !! i = Some r ∧
          connect "W0" port (ref bend) = Ok r ∧
          dict_get (NStr "W0") (ref_ports r) = Some p0 ∧
          midpoint p0 = midpoint port ∧
          dict_get (NStr "W1") (ref_ports r) = Some p1 ∧
          dict_get (pretty i) (routes_ports routes) = Some p1.
Proof.
  destruct (get_routes_bend180 (PortList ex_pads)
              (AFactory (cell_factory ex_xs_key "bend_euler" ex_bend_body)) ex_strip []
              empty_world)
    as [[routes|e] w1] eqn:Hrun.
  - exists routes, w1. split; [reflexivity|].
    exact (get_routes_bend180_deterministic (PortList ex_pads)
             (PortDict [("S0", ex_pad0); ("S1", ex_pad1)])
             (cell_factory ex_xs_key "bend_euler" ex_bend_body) ex_strip [] empty_world
             routes w1 eq_refl
             (λ kw bend, cell_factory_stable ex_xs_key "bend_euler" ex_bend_body ex_strip kw
                           empty_world bend w1)
             Hrun).
  - exfalso.
    assert (is_ok (get_routes_bend180 (PortList ex_pads)
                     (AFactory (cell_factory ex_xs_key "bend_euler" ex_bend_body))
                     ex_strip [] empty_world).1 = true) as Hok
      by (vm_compute; reflexivity).
    rewrite Hrun in Hok. discriminate Hok.
Defined.

(** ** Absorbing a reference *)

Section absorb_facts.
Context `{Trig}.

Lemma get_polygons_unfold c :
  get_polygons c = polygons c ++ flat_map ref_polygons (references c).
Proof.
  destruct c as [ps rs d l]. simpl. f_equal.
  apply flat_map_ext. by intros [child o a m].
Qed.

Lemma remove_first_Permutation h l : h ∈ l → l ≡ₚ h :: remove_first h l.
Proof.
  induction l as [|x l IH]; [by intros ?%elem_of_nil|].
  intros Hin. simpl. destruct (decide (h = x)) as [->|Hne]; [done|].
  apply elem_of_cons in Hin as [?|Hin]; [done|].
  rewrite (IH Hin) at 1. apply Permutation_swap.
Qed.

Lemma remove_first_not_elem h l : NoDup l → h ∉ remove_first h l.
Proof.
  induction 1 as [|x l Hx Hnd IH]; simpl; [apply not_elem_of_nil|].
  destruct (decide (h = x)) as [->|Hne]; [done|].
  rewrite not_elem_of_cons. by split.
Qed.

(** C4: absorbing a reference that the Component holds succeeds, bakes the
    transformed polygons of the child into the parent's own polygon list
    and drops the reference; the flattened polygon set of the Component is
    the same before and after, as a multiset of polygons with exact
    coordinates. *)
Theorem absorb_preserves_polygons h c :
  h ∈ b_references c →
  ∃ c',
    absorb h c = Ok c' ∧
    b_polygons c' = b_polygons c ++ ref_polygons (get_ref c h) ∧
    b_references c' = remove_first h (b_references c) ∧
    get_polygons (finalize c') ≡ₚ get_polygons (finalize c).
Proof.
  intros Hin. unfold absorb. rewrite decide_True by done.
  eexists. split; [done|]. do 2 (split; [done|]).
  rewrite !get_polygons_unfold. simpl.
  rewrite <- app_assoc. apply Permutation_app_head.
  rewrite (Permutation_flat_map ref_polygons
             (fmap_Permutation (get_ref c) _ _ (remove_first_Permutation h _ Hin))).
  done.
Qed.

(** A reference can be absorbed once. *)
Lemma absorb_twice h c c' :
  NoDup (b_references c) → absorb h c = Ok c' → absorb h c' = Err ValueError.
Proof.
  intros Hnd. unfold absorb. case_decide; [|done]. intros [= <-]. simpl.
  rewrite decide_False; [done|]. by apply remove_first_not_elem.
Qed.

Lemma absorb_foreign h c : h ∉ b_references c → absorb h c = Err ValueError.
Proof. intros Hin. unfold absorb. by rewrite decide_False. Qed.

End absorb_facts.

Lemma absorb_preserves_polygons_witness :
  0%nat ∈ b_references (add_ref ex_bend180 Component_new).2 ∧
  ∃ c',
    absorb 0 (add_ref ex_bend180 Component_new).2 = Ok c' ∧
    b_polygons c' = b_polygons (add_ref ex_bend180 Component_new).2
                      ++ ref_polygons (get_ref (add_ref ex_bend180 Component_new).2 0) ∧
    b_references c' = remove_first 0%nat (b_references (add_ref ex_bend180 Component_new).2) ∧
    get_polygons (finalize c') ≡ₚ get_polygons (finalize (add_ref ex_bend180 Component_new).2).
Proof.
  split; [compute_done|]. apply absorb_preserves_polygons. compute_done.
Defined.

(** ** The factory cache *)


Lemma mret_preserves_world {A} (a : A) : preserves_world (mret a : M A).
Proof. intros w Hw. by split. Qed.





(** ** triangle *)

(** C6, as the code has it: [triangle] and [fiber_array] validate nothing.
    For every base, top and height, negative ones included, [triangle]
    returns a Component whose only polygon is (0,0), (x,0), (xtop,y), (0,y)
    on the given layer, with no ports, and the cached call never raises
    either; twice the signed area of that polygon is y (x + xtop), and the
    polygon is degenerate, all its points on one line, exactly when y = 0 or
    x = xtop = 0.  [fiber_array] returns the empty Component for every
    [n <= 0], whatever the pitch and the diameters are; for [n > 0] the
    first thing it does is to call [circle] with half the core diameter as
    it was given, so that a failure of that call is the failure of
    [fiber_array]: it rejects no diameter itself. *)
Theorem no_parameter_validation :
  (∀ x xtop y layer w,
     triangle x xtop y layer w =
       (Ok (Build_Component [Build_Polygon [(0, 0); (x, 0); (xtop, y); (0, y)] layer] [] []
              None), w) ∧
     is_ok (triangle_cell x xtop y layer w).1 = true ∧
     shoelace [(0, 0); (x, 0); (xtop, y); (0, y)] = y * (x + xtop) ∧
     (collinear [(0, 0); (x, 0); (xtop, y); (0, y)] ↔ y = 0 ∨ (x = 0 ∧ xtop = 0))) ∧
  (∀ circle default_midpoint default_layer default_port_type n pitch core_diameter
     cladding_diameter layer_core layer_cladding w,
     ((n ≤ 0)%Z →
        fiber_array circle default_midpoint default_layer default_port_type n pitch
          core_diameter cladding_diameter layer_core layer_cladding w
        = (Ok (Build_Component [] [] [] None), w)) ∧
     ((0 < n)%Z →
        ∀ e w', circle (core_diameter / num 2) layer_core w = (Err e, w') →
          fiber_array circle default_midpoint default_layer default_port_type n pitch
            core_diameter cladding_diameter layer_core layer_cladding w
          = (Err e, w'))).
Proof.
  split.
  - intros x xtop y layer w. split; [done|]. split.
    { unfold triangle_cell, cell. by case_match. }
    split.
    { unfold shoelace. simpl. ring. }
    split.
    + intros (a & b & c & Hab & Hline).
      pose proof (Hline (0, 0) ltac:(repeat constructor)) as H0.
      pose proof (Hline (x, 0) ltac:(repeat constructor)) as H1.
      pose proof (Hline (xtop, y) ltac:(repeat constructor)) as H2.
      pose proof (Hline (0, y) ltac:(repeat constructor)) as H3.
      cbn [fst snd] in *.
      assert (c = 0) as -> by (rewrite <- H0; ring).
      assert (b * y = 0) as Hby by (rewrite <- H3; ring).
      assert (a * x = 0) as Hax by (rewrite <- H1; ring).
      assert (a * xtop = 0) as Haxtop.
      { replace (a * xtop) with (a * xtop + b * y - b * y) by ring. rewrite H2, Hby. ring. }
      destruct (decide (y = 0)) as [Hy|Hy]; [by left|right].
      apply Qcmult_integral in Hby as [Hb|?]; [|done].
      destruct Hab as [Ha|?]; [|done].
      apply Qcmult_integral in Hax as [?|Hx]; [done|].
      apply Qcmult_integral in Haxtop as [?|Hxtop]; done.
    + intros [->|[-> ->]].
      * exists 0, 1, 0. split; [by right|].
        intros p Hp. repeat (apply elem_of_cons in Hp as [->|Hp]); try (simpl; ring).
        by apply elem_of_nil in Hp.
      * exists 1, 0, 0. split; [by left|].
        intros p Hp. repeat (apply elem_of_cons in Hp as [->|Hp]); try (simpl; ring).
        by apply elem_of_nil in Hp.
  - intros circle default_midpoint default_layer default_port_type n pitch core_diameter
      cladding_diameter layer_core layer_cladding w. split.
    + intros Hn. unfold fiber_array. by rewrite Z2Nat.nonpos by done.
    + intros Hn e w' Hc. unfold fiber_array.
      destruct (Z.to_nat n) as [|m] eqn:Hm; [lia|].
      cbn [seq foldM].
      rewrite (bind_err _ _ _ e w'); [done|].
      rewrite (bind_err _ _ _ e w'); [done|].
      by rewrite (bind_err _ _ _ _ _ Hc).
Qed.

Lemma no_parameter_validation_witness :
  collinear [(0, 0); (num (-10), 0); (0, 0); (0, 0)] ∧
  fiber_array ex_circle (0, 0) (1, 0)%Z "optical" 0 (num (-127)) (num (-10)) (num (-125))
    (1, 0)%Z (111, 0)%Z empty_world = (Ok (Build_Component [] [] [] None), empty_world) ∧
  fiber_array ex_circle_broken (0, 0) (1, 0)%Z "optical" 8 (num 127) (num (-10)) (num 125)
    (1, 0)%Z (111, 0)%Z empty_world = (Err ValueError, empty_world).
Proof.
  split; [|split].
  - apply (proj2 (proj2 (proj2 (proj2 (proj1 no_parameter_validation (num (-10)) 0 0 (1, 0)%Z
                                         empty_world))))).
    by left.
  - apply (proj1 (proj2 no_parameter_validation ex_circle (0, 0) (1, 0)%Z "optical" 0%Z
                    (num (-127)) (num (-10)) (num (-125)) (1, 0)%Z (111, 0)%Z empty_world)).
    done.
  - apply (proj2 (proj2 no_parameter_validation ex_circle_broken (0, 0) (1, 0)%Z "optical" 8%Z
                    (num 127) (num (-10)) (num 125) (1, 0)%Z (111, 0)%Z empty_world)).
    + done.
    + reflexivity.
Defined.

(** A negative base is accepted, and the polygon returned for it here has
    no area. *)
Lemma triangle_negative_base_accepted :
  ∃ c g,
    triangle (num (-10)) 0 0 (1, 0)%Z empty_world = (Ok c, empty_world) ∧
    polygons c = [g] ∧
    points g = [(0, 0); (num (-10), 0); (0, 0); (0, 0)] ∧
    shoelace (points g) = 0.
Proof.
  eexists _, _. split; [reflexivity|]. split; [reflexivity|]. split; [reflexivity|].
  compute_done.
Qed.

(** ** straight_heater_connector *)

Lemma sort_by_pair {A} (key : A → Qc) (a b : A) :
  sort_by key [a; b] = if decide (key b < key a) then [b; a] else [a; b].
Proof. done. Qed.

Lemma in_0_180 (a : Qc) : a ∈ [0; num 180] ↔ a = 0 ∨ a = num 180.
Proof. rewrite !elem_of_cons, elem_of_nil. tauto. Qed.

Section straight_heater_connector_facts.
Context `{Trig}.
Variable tlm : Qc → Qc → list Layer → M Component.
Variable line : Point → Point → Qc → list Point.

(** The run of the function once its assertions have passed, when [tlm]
    returns and [tlm_layers] is not empty. *)
Lemma straight_heater_connector_runs p0 p1 tlm_layers port_width port_orientation w t w' :
  orientation p0 = orientation p1 →
  pymod (orientation p0) (num 360) ∈ [0; num 180] →
  tlm (Q2Qc 0.5) (Q2Qc 0.5) tlm_layers w = (Ok t, w') →
  tlm_layers ≠ [] →
  ∃ c p,
    straight_heater_connector tlm line [p0; p1] tlm_layers port_width port_orientation w
      = (Ok c, w') ∧
    ports c = [(NStr "0", p)] ∧
    length (references c) = 2%nat ∧
    length (polygons c) = 1%nat ∧
    width p = port_width ∧
    orientation p =
      pymod (match port_orientation with
             | Some o => o
             | None => pymod (orientation p0) (num 360)
             end) (num 360).
Proof.
  intros Ho Hangle Htlm Hlayers.
  unfold straight_heater_connector.
  rewrite (bind_lift_ok _ _ _ ()) by done.
  rewrite (bind_lift_ok _ _ _ p0) by done.
  rewrite (bind_lift_ok _ _ _ p1) by done.
  rewrite (bind_lift_ok _ _ _ ()) by (by rewrite bool_decide_true).
  cbv zeta.
  rewrite (bind_lift_ok _ _ _ ()) by (by rewrite bool_decide_true).
  rewrite (bool_decide_true _ Hangle).
  rewrite (bind_ok _ _ _ _ _ Htlm).
  destruct (exists_last Hlayers) as (ls & top & ->).
  rewrite sort_by_pair.
  apply in_0_180 in Hangle as [Ha|Ha]; rewrite Ha;
    destruct (decide (port_y p1 < port_y p0));
    (eexists _, _; split; [unfold list_last; rewrite last_snoc; reflexivity|];
     by repeat split).
Qed.

(** An input that breaks the precondition fails the first assertion it
    breaks, before anything else happens. *)
Lemma straight_heater_connector_rejects heater_ports tlm_layers port_width port_orientation w :
  ¬ connector_precondition heater_ports →
  straight_heater_connector tlm line heater_ports tlm_layers port_width port_orientation w
    = (Err AssertionError, w).
Proof.
  intros Hpre. unfold straight_heater_connector.
  destruct (decide (length heater_ports = 2%nat)) as [Hlen|Hlen].
  2:{ by rewrite (bind_lift_err _ _ _ AssertionError) by (by rewrite bool_decide_false). }
  destruct heater_ports as [|p0 [|p1 [|]]]; try done.
  rewrite (bind_lift_ok _ _ _ ()) by done.
  rewrite (bind_lift_ok _ _ _ p0) by done.
  rewrite (bind_lift_ok _ _ _ p1) by done.
  destruct (decide (orientation p0 = orientation p1)) as [Ho|Ho].
  2:{ by rewrite (bind_lift_err _ _ _ AssertionError) by (by rewrite bool_decide_false). }
  rewrite (bind_lift_ok _ _ _ ()) by (by rewrite bool_decide_true).
  cbv zeta.
  rewrite (bind_lift_err _ _ _ AssertionError); [done|].
  rewrite bool_decide_false; [done|].
  intros Hin%in_0_180. apply Hpre. by exists p0, p1.
Qed.

(** C10: [straight_heater_connector] has an assertion-enforced
    precondition: exactly two heater ports, with equal orientations, whose
    common orientation modulo 360 is 0 or 180.  Every other input makes the
    call raise AssertionError, before anything else happens; under the
    precondition no assertion of the function fails: the call raises
    AssertionError only if [tlm] does, and it returns a Component with the
    single port "0" as soon as [tlm] returns and [tlm_layers] is not
    empty. *)
Theorem straight_heater_connector_assertions heater_ports tlm_layers port_width
    port_orientation w :
  (¬ connector_precondition heater_ports →
     straight_heater_connector tlm line heater_ports tlm_layers port_width port_orientation w
       = (Err AssertionError, w)) ∧
  (connector_precondition heater_ports →
     (tlm (Q2Qc 0.5) (Q2Qc 0.5) tlm_layers w).1 ≠ Err AssertionError →
     (straight_heater_connector tlm line heater_ports tlm_layers port_width port_orientation w).1
       ≠ Err AssertionError) ∧
  (connector_precondition heater_ports →
     ∀ t w', tlm (Q2Qc 0.5) (Q2Qc 0.5) tlm_layers w = (Ok t, w') → tlm_layers ≠ [] →
     ∃ c p,
       straight_heater_connector tlm line heater_ports tlm_layers port_width port_orientation w
         = (Ok c, w') ∧
       ports c = [(NStr "0", p)]).
Proof.
  split; [|split].
  - apply straight_heater_connector_rejects.
  - intros (p0 & p1 & -> & Ho & Hangle%in_0_180) Htlm.
    destruct (tlm (Q2Qc 0.5) (Q2Qc 0.5) tlm_layers w) as [[t|e] w'] eqn:Et.
    + destruct tlm_layers as [|l ls] eqn:El.
      * unfold straight_heater_connector.
        rewrite (bind_lift_ok _ _ _ ()) by done.
        rewrite (bind_lift_ok _ _ _ p0) by done.
        rewrite (bind_lift_ok _ _ _ p1) by done.
        rewrite (bind_lift_ok _ _ _ ()) by (by rewrite bool_decide_true).
        cbv zeta.
        rewrite (bind_lift_ok _ _ _ ()) by (by rewrite bool_decide_true).
        rewrite (bool_decide_true _ Hangle).
        rewrite (bind_ok _ _ _ _ _ Et).
        rewrite sort_by_pair.
        apply in_0_180 in Hangle as [Ha|Ha]; rewrite Ha;
          by destruct (decide (port_y p1 < port_y p0)).
      * destruct (straight_heater_connector_runs p0 p1 (l :: ls) port_width port_orientation
                    w t w' Ho Hangle Et) as (c & p & -> & _); done.
    + unfold straight_heater_connector.
      rewrite (bind_lift_ok _ _ _ ()) by done.
      rewrite (bind_lift_ok _ _ _ p0) by done.
      rewrite (bind_lift_ok _ _ _ p1) by done.
      rewrite (bind_lift_ok _ _ _ ()) by (by rewrite bool_decide_true).
      cbv zeta.
      rewrite (bind_lift_ok _ _ _ ()) by (by rewrite bool_decide_true).
      rewrite (bind_err _ _ _ _ _ Et). simpl in *. congruence.
  - intros (p0 & p1 & -> & Ho & Hangle%in_0_180) t w' Et Hl.
    destruct (straight_heater_connector_runs p0 p1 tlm_layers port_width port_orientation
                w t w' Ho Hangle Et Hl) as (c & p & Hrun & Hports & _).
    eauto.
Qed.

End straight_heater_connector_facts.

Lemma straight_heater_connector_assertions_witness :
  straight_heater_connector ex_tlm ex_line [(ex_heater_port "HBE0" (num 10) (num (-2)) 0).2]
    ex_tlm_layers (num 10) None empty_world = (Err AssertionError, empty_world) ∧
  ∃ c p,
    straight_heater_connector ex_tlm ex_line
      [(ex_heater_port "HBE0" (num 10) (num (-2)) 0).2;
       (ex_heater_port "HTE0" (num 10) (num 2) 0).2]
      ex_tlm_layers (num 10) None empty_world = (Ok c, empty_world) ∧
    ports c = [(NStr "0", p)].
Proof.
  split.
  - apply (proj1 (straight_heater_connector_assertions ex_tlm ex_line _ _ _ _ _)).
    by intros (p0 & p1 & [=] & _).
  - eapply (proj2 (proj2 (straight_heater_connector_assertions ex_tlm ex_line _ _ _ _ _))).
    + eexists _, _. split; [reflexivity|]. split; [reflexivity|]. left. compute_done.
    + reflexivity.
    + done.
Defined.

(** ** The port invariant *)

Section port_invariant.
Context `{Trig}.

Lemma transform_port_ok r p : 0 < width p → port_ok (transform_port r p).
Proof. intros Hw. destruct (pymod_range ((if x_reflection r then - orientation p else orientation p) + rotation r)). by repeat split. Qed.

Lemma ref_ports_ok r : widths_positive (ports (parent r)) → ports_ok (ref_ports r).
Proof.
  unfold widths_positive, ports_ok, ref_ports. intros Hw.
  apply Forall_fmap. eapply Forall_impl; [exact Hw|].
  intros [k p] Hp. by apply transform_port_ok.
Qed.

Lemma get_ref_ports_ok c h : objs_ok c → ports_ok (ref_ports (get_ref c h)).
Proof.
  intros Hc. apply ref_ports_ok. unfold get_ref.
  destruct (objs c !! h) as [r|] eqn:E.
  - rewrite (list_lookup_total_correct _ _ _ E).
    by eapply (Forall_lookup_1 _ _ _ _ Hc).
  - rewrite list_lookup_total_alt, E. simpl. constructor.
Qed.

Lemma add_ref_objs_ok child c :
  widths_positive (ports child) → objs_ok c → objs_ok (add_ref child c).2.
Proof. intros Hch Hc. apply Forall_app. split; [done|]. by constructor. Qed.

Lemma update_ref_objs_ok h f c :
  (∀ r, parent (f r) = parent r) → objs_ok c → objs_ok (update_ref h f c).
Proof.
  intros Hf Hc. unfold objs_ok, update_ref. simpl.
  apply Forall_alter; [done|]. intros r _ Hr. by rewrite Hf.
Qed.

Lemma add_port_ok name p c c' :
  add_port name p c = Ok c' → port_ok p → ports_ok (b_ports c) →
  ports_ok (b_ports c') ∧ objs c' = objs c.
Proof.
  unfold add_port. destruct (dict_get name (b_ports c)); [done|].
  intros [= <-] Hp Hc. split; [|done]. simpl.
  apply Forall_app. split; [done|]. by constructor.
Qed.

Lemma foldR_add_port_ok (l : Dict Name Port) c c' :
  foldR (λ component '(port_name, p), add_port port_name p component) c l = Ok c' →
  ports_ok l → ports_ok (b_ports c) →
  ports_ok (b_ports c') ∧ objs c' = objs c.
Proof.
  revert c. induction l as [|[k p] l IH]; intros c; simpl.
  - by intros [= <-].
  - intros Hrun Hl Hc. apply Forall_cons in Hl as [Hp Hl].
    apply Result_bind_inv in Hrun as (c1 & Hadd & Hrun).
    destruct (add_port_ok _ _ _ _ Hadd Hp Hc) as [Hc1 Ho1].
    destruct (IH _ Hrun Hl Hc1) as [Hc' Ho']. split; [done|]. congruence.
Qed.

Lemma dict_set_Forall {V} (P : Name * V → Prop) k v (d : Dict Name V) :
  P (k, v) → Forall P d → Forall P (dict_set k v d).
Proof.
  intros Hv. induction 1 as [|[k' v'] d Hx Hd IH]; simpl; [by constructor|].
  destruct (decide (k = k')); by constructor.
Qed.

Lemma set_port_orientation_ok name o c c' :
  set_port_orientation name o c = Ok c' →
  0 ≤ o → o < num 360 → ports_ok (b_ports c) →
  ports_ok (b_ports c').
Proof.
  unfold set_port_orientation.
  destruct (dict_get name (b_ports c)) as [p|] eqn:E; [|done].
  intros [= <-] H0 H1 Hc. simpl. apply dict_set_Forall; [|done].
  apply dict_get_Some_elem in E.
  unfold ports_ok in Hc. rewrite Forall_forall in Hc.
  destruct (Hc _ E) as (_ & _ & Hw). by repeat split.
Qed.

Lemma set_port_orientation_get name o c c' :
  set_port_orientation name o c = Ok c' →
  ∃ p, dict_get name (b_ports c') = Some p ∧ orientation p = o.
Proof.
  unfold set_port_orientation. destruct (dict_get name (b_ports c)) as [p|]; [|done].
  intros [= <-]. simpl. eexists. by rewrite dict_get_set_eq.
Qed.

Lemma set_port_orientation_other name name' o c c' :
  name' ≠ name →
  set_port_orientation name o c = Ok c' →
  dict_get name' (b_ports c') = dict_get name' (b_ports c).
Proof.
  intros Hne. unfold set_port_orientation.
  destruct (dict_get name (b_ports c)) as [p|]; [|done].
  intros [= <-]. simpl. by apply dict_get_set_ne.
Qed.

End port_invariant.

Section straight_with_heater_facts.
Context `{Trig}.
Variable tlm : Qc → Qc → list Layer → M Component.
Variable line : Point → Point → Qc → list Point.
Variable tlm_layers_default : list Layer.
Variable auto_rename_ports : Building → Building.

(** The port of a connector that was built. *)
Lemma straight_heater_connector_port heater_ports tlm_layers port_width port_orientation
    w c w' :
  straight_heater_connector tlm line heater_ports tlm_layers port_width port_orientation w
    = (Ok c, w') →
  ∃ p, ports c = [(NStr "0", p)] ∧ width p = port_width ∧
       0 ≤ orientation p ∧ orientation p < num 360.
Proof.
  intros Hrun.
  pose proof (straight_heater_connector_rejects tlm line heater_ports tlm_layers port_width
                port_orientation w) as Hfail.
  assert (connector_precondition heater_ports) as (p0 & p1 & -> & Ho & Hangle).
  { destruct (decide (length heater_ports = 2%nat)) as [Hlen|Hlen].
    2:{ rewrite Hfail in Hrun; [done|]. intros (? & ? & -> & _). done. }
    destruct heater_ports as [|p0 [|p1 [|]]]; try done.
    destruct (decide (orientation p0 = orientation p1)) as [Ho|Ho].
    2:{ rewrite Hfail in Hrun; [done|]. intros (? & ? & [= <- <-] & ? & _). done. }
    destruct (decide (pymod (orientation p0) (num 360) ∈ [0; num 180])) as [Ha|Ha].
    2:{ rewrite Hfail in Hrun; [done|]. intros (? & ? & [= <- <-] & _ & Hin). 
        apply Ha. by apply in_0_180. }
    exists p0, p1. by rewrite <- in_0_180. }
  clear Hfail.
  pose proof (proj2 (in_0_180 _) Hangle) as Hin.
  destruct (tlm (Q2Qc 0.5) (Q2Qc 0.5) tlm_layers w) as [[t|e] wt] eqn:Et.
  2:{ unfold straight_heater_connector in Hrun.
      rewrite (bind_lift_ok _ _ _ ()) in Hrun by done.
      rewrite (bind_lift_ok _ _ _ p0) in Hrun by done.
      rewrite (bind_lift_ok _ _ _ p1) in Hrun by done.
      rewrite (bind_lift_ok _ _ _ ()) in Hrun by (by rewrite bool_decide_true).
      cbv zeta in Hrun.
      rewrite (bind_lift_ok _ _ _ ()) in Hrun by (by rewrite bool_decide_true).
      by rewrite (bind_err _ _ _ _ _ Et) in Hrun. }
  destruct (decide (tlm_layers = [])) as [->|Hl].
  { unfold straight_heater_connector in Hrun.
    rewrite (bind_lift_ok _ _ _ ()) in Hrun by done.
    rewrite (bind_lift_ok _ _ _ p0) in Hrun by done.
    rewrite (bind_lift_ok _ _ _ p1) in Hrun by done.
    rewrite (bind_lift_ok _ _ _ ()) in Hrun by (by rewrite bool_decide_true).
    cbv zeta in Hrun.
    rewrite (bind_lift_ok _ _ _ ()) in Hrun by (by rewrite bool_decide_true).
    rewrite (bool_decide_true _ Hin) in Hrun.
    rewrite (bind_ok _ _ _ _ _ Et) in Hrun.
    rewrite sort_by_pair in Hrun.
    destruct Hangle as [Ha|Ha]; rewrite Ha in Hrun;
      by destruct (decide (port_y p1 < port_y p0)). }
  destruct (straight_heater_connector_runs tlm line p0 p1 tlm_layers port_width
              port_orientation w t wt Ho Hin Et Hl)
    as (c' & p & Hrun' & Hports & _ & _ & Hw & Hor).
  rewrite Hrun' in Hrun. injection Hrun as <- <-.
  exists p. split; [done|]. split; [done|]. rewrite Hor. apply pymod_range.
Qed.

Lemma dict_item_ok_port k d p : dict_item k d = Ok p → ports_ok d → port_ok p.
Proof.
  intros Hk%dict_item_Ok%dict_get_Some_elem Hd.
  unfold ports_ok in Hd. rewrite Forall_forall in Hd. apply (Hd _ Hk).
Qed.

(** C8, as the code has it: every port of the Component that
    [straight_with_heater] returns (with the default connector) has its
    orientation in [0, 360) and a positive width, provided that the two
    orientation overrides lie in [0, 360), that [port_width] is positive,
    that the ports of the heater have a positive width, and that
    [auto_rename_ports] keeps this property of the ports, as a function
    that only renames them does.  The overrides themselves are stored as
    they are given. *)
Theorem straight_with_heater_port_invariant length straight_heater port_width
    port_orientation_input port_orientation_output kwargs w c w' :
  (∀ b, ports_ok (b_ports b) → ports_ok (b_ports (auto_rename_ports b))) →
  (∀ kw w0 h w1, straight_heater kw w0 = (Ok h, w1) → widths_positive (ports h)) →
  0 < port_width →
  0 ≤ port_orientation_input → port_orientation_input < num 360 →
  0 ≤ port_orientation_output → port_orientation_output < num 360 →
  straight_with_heater auto_rename_ports length straight_heater
    (connector_default tlm line tlm_layers_default) port_width
    port_orientation_input port_orientation_output kwargs w = (Ok c, w') →
  ports_ok (ports c).
Proof.
  intros Hrename Hheater Hpw Hi0 Hi1 Ho0 Ho1 Hrun.
  unfold straight_with_heater in Hrun.
  apply bind_lift_inv in Hrun as (kw & _ & Hrun).
  apply bind_inv in Hrun as (heater & wa & Hh%Hheater & Hrun).
  destruct (add_ref heater Component_new) as [wg_heater b1] eqn:E1.
  assert (objs_ok b1 ∧ b_ports b1 = []) as [Hb1 Hp1].
  { change b1 with (wg_heater, b1).2. rewrite <- E1. split; [|done].
    apply add_ref_objs_ok; [done | constructor]. }
  apply bind_lift_inv in Hrun as (hbe0 & _ & Hrun).
  apply bind_lift_inv in Hrun as (hte0 & _ & Hrun).
  apply bind_inv in Hrun as (connector1 & wb & Hc1 & Hrun).
  apply bind_lift_inv in Hrun as (hbw0 & _ & Hrun).
  apply bind_lift_inv in Hrun as (htw0 & _ & Hrun).
  apply bind_inv in Hrun as (connector2 & wc & Hc2 & Hrun).
  apply straight_heater_connector_port in Hc1 as (q1 & Hq1 & Hw1 & _).
  apply straight_heater_connector_port in Hc2 as (q2 & Hq2 & Hw2 & _).
  destruct (add_ref connector1 b1) as [conn1 b2] eqn:E2.
  assert (objs_ok b2 ∧ b_ports b2 = []) as [Hb2 Hp2].
  { change b2 with (conn1, b2).2. rewrite <- E2. split; [|done].
    apply add_ref_objs_ok; [|done]. rewrite Hq1. repeat constructor. simpl. by rewrite Hw1. }
  destruct (add_ref connector2 b2) as [conn2 b3] eqn:E3.
  assert (objs_ok b3 ∧ b_ports b3 = []) as [Hb3 Hp3].
  { change b3 with (conn2, b3).2. rewrite <- E3. split; [|done].
    apply add_ref_objs_ok; [|done]. rewrite Hq2. repeat constructor. simpl. by rewrite Hw2. }
  cbv zeta in Hrun.
  set (b4 := update_ref conn1 _ b3) in Hrun.
  set (b5 := update_ref conn2 _ b4) in Hrun.
  assert (objs_ok b5 ∧ b_ports b5 = []) as [Hb5 Hp5].
  { split; [|done]. by do 2 (apply update_ref_objs_ok; [done|]). }
  apply bind_lift_inv in Hrun as (b6 & Hfold & Hrun).
  apply foldR_add_port_ok in Hfold as [Hp6 Ho6];
    [|by apply get_ref_ports_ok | rewrite Hp5; constructor].
  assert (objs_ok b6) as Hb6 by (unfold objs_ok; by rewrite Ho6).
  apply bind_lift_inv in Hrun as (p1 & Hport1 & Hrun).
  apply bind_lift_inv in Hrun as (b7 & Hadd1 & Hrun).
  apply add_port_ok in Hadd1 as [Hp7 Ho7];
    [|by eapply dict_item_ok_port, get_ref_ports_ok | done].
  assert (objs_ok b7) as Hb7 by (unfold objs_ok; by rewrite Ho7).
  apply bind_lift_inv in Hrun as (p2 & Hport2 & Hrun).
  apply bind_lift_inv in Hrun as (b8 & Hadd2 & Hrun).
  apply add_port_ok in Hadd2 as [Hp8 _];
    [|by eapply dict_item_ok_port, get_ref_ports_ok | done].
  apply bind_lift_inv in Hrun as (b9 & Hset1 & Hrun).
  apply set_port_orientation_ok in Hset1; [|done..].
  apply bind_lift_inv in Hrun as (b10 & Hset2 & Hrun).
  apply set_port_orientation_ok in Hset2; [|done..].
  apply mret_inv in Hrun as [<- _]. simpl. by apply Hrename.
Qed.

(** X23: the two orientation overrides of [straight_with_heater] are
    stored as they are given: whenever the call returns, and
    [auto_rename_ports] keeps the orientation of every port, the Component
    has a port whose orientation is [port_orientation_input] and one whose
    orientation is [port_orientation_output], whatever these values are. *)
Lemma straight_with_heater_overrides_stored length straight_heater connector port_width
    port_orientation_input port_orientation_output kwargs w c w' :
  (∀ b p, p ∈ (b_ports b).*2 →
     ∃ p', p' ∈ (b_ports (auto_rename_ports b)).*2 ∧ orientation p' = orientation p) →
  straight_with_heater auto_rename_ports length straight_heater connector port_width
    port_orientation_input port_orientation_output kwargs w = (Ok c, w') →
  ∃ p1 p2,
    p1 ∈ (ports c).*2 ∧ orientation p1 = port_orientation_input ∧
    p2 ∈ (ports c).*2 ∧ orientation p2 = port_orientation_output.
Proof.
  intros Hrename Hrun. unfold straight_with_heater in Hrun.
  apply bind_lift_inv in Hrun as (kw & _ & Hrun).
  apply bind_inv in Hrun as (heater & wa & _ & Hrun).
  destruct (add_ref heater Component_new) as [wg_heater b1].
  apply bind_lift_inv in Hrun as (hbe0 & _ & Hrun).
  apply bind_lift_inv in Hrun as (hte0 & _ & Hrun).
  apply bind_inv in Hrun as (connector1 & wb & _ & Hrun).
  apply bind_lift_inv in Hrun as (hbw0 & _ & Hrun).
  apply bind_lift_inv in Hrun as (htw0 & _ & Hrun).
  apply bind_inv in Hrun as (connector2 & wc & _ & Hrun).
  destruct (add_ref connector1 b1) as [conn1 b2].
  destruct (add_ref connector2 b2) as [conn2 b3].
  cbv zeta in Hrun.
  apply bind_lift_inv in Hrun as (b6 & _ & Hrun).
  apply bind_lift_inv in Hrun as (q1 & _ & Hrun).
  apply bind_lift_inv in Hrun as (b7 & _ & Hrun).
  apply bind_lift_inv in Hrun as (q2 & _ & Hrun).
  apply bind_lift_inv in Hrun as (b8 & _ & Hrun).
  apply bind_lift_inv in Hrun as (b9 & Hset1 & Hrun).
  apply bind_lift_inv in Hrun as (b10 & Hset2 & Hrun).
  apply mret_inv in Hrun as [<- _]. simpl.
  destruct (set_port_orientation_get _ _ _ _ Hset1) as (p1 & Hp1 & Ho1).
  destruct (set_port_orientation_get _ _ _ _ Hset2) as (p2 & Hp2 & Ho2).
  assert (NInt 1 ≠ NInt 2) as Hne by done.
  rewrite <- (set_port_orientation_other _ _ _ _ _ Hne Hset2) in Hp1.
  apply dict_get_Some_elem in Hp1, Hp2.
  destruct (Hrename b10 p1) as (p1' & Hin1 & Hor1).
  { apply list_elem_of_fmap. by exists (NInt 1, p1). }
  destruct (Hrename b10 p2) as (p2' & Hin2 & Hor2).
  { apply list_elem_of_fmap. by exists (NInt 2, p2). }
  exists p1', p2'. repeat split; [done | congruence | done | congruence].
Qed.

End straight_with_heater_facts.

(** The orientation override is stored as given: with 450 for
    [port_orientation_input], the port exposed under the name 1 has
    orientation 450, outside [0, 360). *)
Lemma straight_with_heater_orientation_not_normalized :
  ∃ c p,
    (straight_with_heater id (num 10) ex_straight_heater
       (connector_default ex_tlm ex_line ex_tlm_layers) (num 10) (num 450) (num 90) []
       empty_world).1 = Ok c ∧
    dict_get (NInt 1) (ports c) = Some p ∧
    orientation p = num 450 ∧
    ¬ port_ok p.
Proof.
  destruct (straight_with_heater id (num 10) ex_straight_heater
              (connector_default ex_tlm ex_line ex_tlm_layers) (num 10) (num 450) (num 90) []
              empty_world) as [[c|e] w'] eqn:E; vm_compute in E; [|done].
  injection E as <- <-.
  eexists _, _. split; [reflexivity|]. split; [reflexivity|]. split; compute_done.
Qed.

Lemma straight_with_heater_port_invariant_witness :
  ∃ c,
    (straight_with_heater id (num 10) ex_straight_heater
       (connector_default ex_tlm ex_line ex_tlm_layers) (num 10) (num 90) (num 90) []
       empty_world) = (Ok c, empty_world) ∧
    ports_ok (ports c).
Proof.
  destruct (straight_with_heater id (num 10) ex_straight_heater
              (connector_default ex_tlm ex_line ex_tlm_layers) (num 10) (num 90) (num 90) []
              empty_world) as [[c|e] w'] eqn:E; [|by vm_compute in E].
  assert (w' = empty_world) as ->.
  { vm_compute in E. by injection E as _ <-. }
  exists c. split; [done|].
  eapply (straight_with_heater_port_invariant ex_tlm ex_line ex_tlm_layers id (num 10)
            ex_straight_heater (num 10) (num 90) (num 90) [] empty_world c empty_world).
  - done.
  - intros kw w0 h w1 [= <- _]. repeat constructor; compute_done.
  - compute_done.
  - compute_done.
  - compute_done.
  - compute_done.
  - compute_done.
  - exact E.
Defined.

(** ** coupler90 *)

Section coupler90_facts.
Context `{Trig}.
Variable straight : ComponentFactory.

Lemma ref_port_item (r : ComponentReference) k p :
  dict_get k (ports (parent r)) = Some p →
  dict_item k (ref_ports r) = Ok (transform_port r p).
Proof. intros Hk. apply dict_item_Ok. by rewrite ref_ports_get, Hk. Qed.

Lemma add_port_fresh name p c :
  dict_get name (b_ports c) = None →
  add_port name p c =
    Ok (Build_Building (objs c) (b_polygons c) (b_references c)
          (b_ports c ++ [(name, rename_port name p)]) (b_length c)).
Proof. intros Hk. unfold add_port. by rewrite Hk. Qed.

Lemma transform_port_ref c p : midpoint (transform_port (ref c) p) = midpoint p.
Proof.
  simpl. rewrite transform_point_unrotated by done.
  destruct (midpoint p) as [x y]. unfold translate. simpl. f_equal; ring.
Qed.

Lemma transform_port_movey dy c p :
  midpoint (transform_port (movey dy (ref c)) p) = ((midpoint p).1, (midpoint p).2 + dy).
Proof.
  simpl. rewrite transform_point_unrotated by done.
  destruct (midpoint p) as [x y]. unfold translate. simpl. f_equal; ring.
Qed.

(** The run of [coupler90], for any bend: the straight is placed as it is,
    the bend is shifted up by the y coordinate of its own "W0" port plus
    the gap plus the width, both are absorbed, and four ports are exposed. *)
Lemma coupler90_runs gap radius bend xs kwargs w x w1 bend90 w2 n0 pw0 sc w3 e0 sw0 wd :
  "radius" ∉ dict_keys kwargs →
  "length" ∉ dict_keys kwargs →
  xs (("radius", VNum radius) :: kwargs) w = (Ok x, w1) →
  dict_get "width" (info x) = Some wd →
  bend_of bend xs kwargs w1 = (Ok bend90, w2) →
  dict_get (NStr "N0") (ports bend90) = Some n0 →
  dict_get (NStr "W0") (ports bend90) = Some pw0 →
  straight xs (("length", VNum ((midpoint n0).1 - (midpoint pw0).1)) :: kwargs) w2
    = (Ok sc, w3) →
  dict_get (NStr "E0") (ports sc) = Some e0 →
  dict_get (NStr "W0") (ports sc) = Some sw0 →
  let wg_ref := ref sc in
  let bend_ref := movey ((midpoint pw0).2 + gap + wd) (ref bend90) in
  coupler90 straight gap radius bend xs kwargs w =
    (Ok (Build_Component
           (ref_polygons wg_ref ++ ref_polygons bend_ref)
           []
           [(NStr "E0", rename_port "E0" (transform_port wg_ref e0));
            (NStr "N0", rename_port "N0" (transform_port bend_ref n0));
            (NStr "W0", rename_port "W0" (transform_port wg_ref sw0));
            (NStr "W1", rename_port "W1" (transform_port bend_ref pw0))]
           None), w3).
Proof.
  intros Hrad Hlen Hx Hwd Hbend Hn0 Hw0 Hsc He0 Hsw0 wg_ref bend_ref.
  unfold coupler90.
  rewrite (bind_lift_ok _ _ _ ([("radius", VNum radius)] ++ kwargs))
    by (apply keywords_ok; by repeat constructor).
  rewrite (bind_ok _ _ _ _ _ Hx).
  change (match bend with
          | AFactory f => f xs kwargs
          | AComponent b => mret b
          end) with (bend_of bend xs kwargs).
  rewrite (bind_ok _ _ _ _ _ Hbend).
  unfold add_ref, add, update_ref, get_ref.
  cbn [objs b_polygons b_references b_ports b_length Component_new app length
       lookup_total list_lookup_total alter list_alter].
  rewrite (bind_lift_ok _ _ _ n0) by (by apply dict_item_Ok).
  rewrite (bind_lift_ok _ _ _ pw0) by (by apply dict_item_Ok).
  rewrite (bind_lift_ok _ _ _ ([("length", VNum ((midpoint n0).1 - (midpoint pw0).1))] ++ kwargs))
    by (apply keywords_ok; by repeat constructor).
  rewrite (bind_ok _ _ _ _ _ Hsc).
  cbn [objs b_polygons b_references b_ports b_length Component_new app length
       lookup_total list_lookup_total alter list_alter].
  rewrite (bind_lift_ok _ _ _ wd) by (by apply dict_item_Ok).
  rewrite (bind_lift_ok _ _ _ (transform_port (ref bend90) pw0))
    by (by apply ref_port_item).
  cbn [objs b_polygons b_references b_ports b_length Component_new app length
       lookup_total list_lookup_total alter list_alter].
  assert ((midpoint (transform_port (ref bend90) pw0)).2 = (midpoint pw0).2) as ->
    by (by rewrite transform_port_ref).
  fold bend_ref. fold wg_ref.
  unfold absorb.
  cbn [objs b_polygons b_references b_ports b_length Component_new app length
       lookup_total list_lookup_total alter list_alter].
  rewrite decide_True by (apply list_elem_of_In; simpl; tauto).
  rewrite (bind_lift_ok _ _ _ _ eq_refl).
  cbn [objs b_polygons b_references b_ports b_length Component_new app length
       lookup_total list_lookup_total alter list_alter remove_first decide_rel].
  rewrite decide_True by (apply list_elem_of_In; simpl; tauto).
  rewrite (bind_lift_ok _ _ _ _ eq_refl).
  cbn [objs b_polygons b_references b_ports b_length Component_new app length
       lookup_total list_lookup_total alter list_alter remove_first].
  rewrite (bind_lift_ok _ _ _ (transform_port wg_ref e0)) by (by apply ref_port_item).
  rewrite add_port_fresh by reflexivity. rewrite (bind_lift_ok _ _ _ _ eq_refl).
  cbn [objs b_polygons b_references b_ports b_length Component_new app length
       lookup_total list_lookup_total alter list_alter remove_first].
  rewrite (bind_lift_ok _ _ _ (transform_port bend_ref n0)) by (by apply ref_port_item).
  rewrite add_port_fresh by reflexivity. rewrite (bind_lift_ok _ _ _ _ eq_refl).
  cbn [objs b_polygons b_references b_ports b_length Component_new app length
       lookup_total list_lookup_total alter list_alter remove_first].
  rewrite (bind_lift_ok _ _ _ (transform_port wg_ref sw0)) by (by apply ref_port_item).
  rewrite add_port_fresh by reflexivity. rewrite (bind_lift_ok _ _ _ _ eq_refl).
  cbn [objs b_polygons b_references b_ports b_length Component_new app length
       lookup_total list_lookup_total alter list_alter remove_first].
  rewrite (bind_lift_ok _ _ _ (transform_port bend_ref pw0)) by (by apply ref_port_item).
  rewrite add_port_fresh by reflexivity. rewrite (bind_lift_ok _ _ _ _ eq_refl).
  reflexivity.
Qed.

(** X22: absorbing is transparent in [coupler90]: the Component it
    returns has the polygons that the two references, left unabsorbed where
    they were placed, would render. *)
Lemma coupler90_absorb_transparent gap radius bend xs kwargs w x w1 bend90 w2 n0 pw0 sc w3
    e0 sw0 wd :
  "radius" ∉ dict_keys kwargs →
  "length" ∉ dict_keys kwargs →
  xs (("radius", VNum radius) :: kwargs) w = (Ok x, w1) →
  dict_get "width" (info x) = Some wd →
  bend_of bend xs kwargs w1 = (Ok bend90, w2) →
  dict_get (NStr "N0") (ports bend90) = Some n0 →
  dict_get (NStr "W0") (ports bend90) = Some pw0 →
  straight xs (("length", VNum ((midpoint n0).1 - (midpoint pw0).1)) :: kwargs) w2
    = (Ok sc, w3) →
  dict_get (NStr "E0") (ports sc) = Some e0 →
  dict_get (NStr "W0") (ports sc) = Some sw0 →
  ∃ c,
    coupler90 straight gap radius bend xs kwargs w = (Ok c, w3) ∧
    get_polygons c ≡ₚ
      get_polygons
        (Build_Component []
           [movey ((midpoint pw0).2 + gap + wd) (ref bend90); ref sc] [] None).
Proof.
  intros Hrad Hlen Hx Hwd Hbend Hn0 Hw0 Hsc He0 Hsw0.
  eexists. split; [by eapply coupler90_runs|].
  rewrite !get_polygons_unfold. simpl. rewrite !app_nil_r. apply Permutation_app_comm.
Qed.

(** C9: for every gap and radius, with a bend whose "W0" port lies on the
    x axis (as the default bend's does) and that has the ports "N0" and
    "W0", and a straight that has the ports "E0" and "W0", [coupler90]
    returns a Component that exposes exactly the four ports "E0", "N0",
    "W0", "W1", in this order: "E0" and "W0" are those of the absorbed
    straight, where it was built, and "N0" and "W1" are the bend's "N0" and
    "W0", moved up by gap plus the cross-section width.  The straight is
    the one built for length = x of the bend's "N0" minus x of its "W0".
    Both references are absorbed: the Component holds the straight's
    polygons as they are and the bend's polygons moved up by gap plus
    width, and no reference. *)
Theorem coupler90_four_ports gap radius bend xs kwargs w x w1 bend90 w2 n0 pw0 sc w3 e0 sw0 wd :
  "radius" ∉ dict_keys kwargs →
  "length" ∉ dict_keys kwargs →
  xs (("radius", VNum radius) :: kwargs) w = (Ok x, w1) →
  dict_get "width" (info x) = Some wd →
  bend_of bend xs kwargs w1 = (Ok bend90, w2) →
  dict_get (NStr "N0") (ports bend90) = Some n0 →
  dict_get (NStr "W0") (ports bend90) = Some pw0 →
  (midpoint pw0).2 = 0 →
  straight xs (("length", VNum ((midpoint n0).1 - (midpoint pw0).1)) :: kwargs) w2
    = (Ok sc, w3) →
  dict_get (NStr "E0") (ports sc) = Some e0 →
  dict_get (NStr "W0") (ports sc) = Some sw0 →
  ∃ c pe pn pw pw1,
    coupler90 straight gap radius bend xs kwargs w = (Ok c, w3) ∧
    ports c = [(NStr "E0", pe); (NStr "N0", pn); (NStr "W0", pw); (NStr "W1", pw1)] ∧
    midpoint pe = midpoint e0 ∧
    midpoint pw = midpoint sw0 ∧
    midpoint pn = ((midpoint n0).1, (midpoint n0).2 + (gap + wd)) ∧
    midpoint pw1 = ((midpoint pw0).1, (midpoint pw0).2 + (gap + wd)) ∧
    references c = [] ∧
    polygons c = ref_polygons (ref sc) ++ ref_polygons (movey (gap + wd) (ref bend90)).
Proof.
  intros Hrad Hlen Hx Hwd Hbend Hn0 Hw0 Hy Hsc He0 Hsw0.
  pose proof (coupler90_runs gap radius bend xs kwargs w x w1 bend90 w2 n0 pw0 sc w3 e0 sw0 wd
                Hrad Hlen Hx Hwd Hbend Hn0 Hw0 Hsc He0 Hsw0) as Hrun.
  cbv zeta in Hrun. rewrite Hy in Hrun.
  replace (0 + gap + wd) with (gap + wd) in Hrun by ring.
  eexists _, _, _, _, _. split; [exact Hrun|]. split; [reflexivity|].
  split; [apply transform_port_ref|]. split; [apply transform_port_ref|].
  split; [apply transform_port_movey|]. split; [apply transform_port_movey|].
  done.
Qed.

End coupler90_facts.

Lemma coupler90_four_ports_witness :
  ∃ c pe pn pw pw1,
    coupler90 ex_straight (Q2Qc 0.2) (num 10) (AFactory ex_bend90_factory) ex_strip []
      empty_world = (Ok c, empty_world) ∧
    ports c = [(NStr "E0", pe); (NStr "N0", pn); (NStr "W0", pw); (NStr "W1", pw1)] ∧
    midpoint pe = (num 10 - 0, 0) ∧
    midpoint pw = (0, 0) ∧
    midpoint pn = (num 10, num 10 + (Q2Qc 0.2 + Q2Qc 0.5)) ∧
    midpoint pw1 = (0, 0 + (Q2Qc 0.2 + Q2Qc 0.5)) ∧
    references c = [] ∧
    polygons c = ref_polygons (ref (ex_straight_of (num 10 - 0)))
                   ++ ref_polygons (movey (Q2Qc 0.2 + Q2Qc 0.5) (ref ex_bend90)).
Proof.
  eapply (coupler90_four_ports ex_straight (Q2Qc 0.2) (num 10) (AFactory ex_bend90_factory)
            ex_strip [] empty_world (Build_CrossSection [("width", Q2Qc 0.5)]) empty_world
            ex_bend90 empty_world
            (ex_optical_port "N0" (num 10) (num 10) (num 90))
            (ex_optical_port "W0" 0 0 (num 180))
            (ex_straight_of (num 10 - 0)) empty_world
            (ex_optical_port "E0" (num 10 - 0) 0 0)
            (ex_optical_port "W0" 0 0 (num 180))
            (Q2Qc 0.5)).
  - compute_done.
  - compute_done.
  - reflexivity.
  - reflexivity.
  - reflexivity.
  - reflexivity.
  - reflexivity.
  - reflexivity.
  - reflexivity.
  - reflexivity.
  - reflexivity.
Defined.

(** * Further properties *)

(** ** get_routes_bend180: what the call rejects, and the empty case *)

Section get_routes_bend180_more.
Context `{Trig}.

(** X1: [get_routes_bend180] raises TypeError, with the cache untouched,
    when [bend_factory] is a prebuilt Component (line 25 calls it) or when
    the keyword arguments already hold "angle" (line 25 passes [angle=180]
    beside them). *)
Theorem get_routes_bend180_type_errors ps bend_factory xs kwargs w :
  "angle" ∈ dict_keys kwargs ∨ (∃ c, bend_factory = AComponent c) →
  get_routes_bend180 ps bend_factory xs kwargs w = (Err TypeError, w).
Proof.
  intros Hcase. unfold get_routes_bend180.
  destruct (decide ("angle" ∈ dict_keys kwargs)) as [Hin|Hin].
  - rewrite (bind_lift_err _ _ _ TypeError); [done|].
    unfold keywords. rewrite decide_True; [done|]. by constructor.
  - destruct Hcase as [?|[c ->]]; [done|].
    by rewrite (bind_lift_ok _ _ _ ([("angle", VInt 180)] ++ kwargs))
      by (apply keywords_ok; by repeat constructor).
Qed.

(** X2: with no port to route, [get_routes_bend180] still builds the bend
    (the cache moves as the factory moves it) and still reads its [length]:
    it returns the empty Routes when the bend has a length and raises
    AttributeError when it has none.  The ports "W0" and "W1" of the bend
    are not looked at. *)
Theorem get_routes_bend180_no_ports ps f xs kwargs w bend w' :
  "angle" ∉ dict_keys kwargs →
  ports_list ps = [] →
  f xs (("angle", VInt 180) :: kwargs) w = (Ok bend, w') →
  get_routes_bend180 ps (AFactory f) xs kwargs w =
    (match comp_length bend with
     | Some _ => Ok (Build_Routes [] [] [])
     | None => Err AttributeError
     end, w').
Proof.
  intros Hkw Hps Hf. unfold get_routes_bend180.
  rewrite (bind_lift_ok _ _ _ ([("angle", VInt 180)] ++ kwargs))
    by (apply keywords_ok; by repeat constructor).
  rewrite (bind_ok _ _ _ _ _ Hf).
  unfold lift. f_equal. cbv zeta. rewrite Hps. simpl.
  unfold length_attr. by destruct (comp_length bend).
Qed.

(** X3: when the bend has a port "W0" but no port "W1", a call with at
    least one port raises KeyError from line 28, after every reference was
    connected; the bend stays built (the cache is the one the factory
    left). *)
Theorem get_routes_bend180_missing_W1 ps port rest f xs kwargs w bend w' pw0 :
  "angle" ∉ dict_keys kwargs →
  f xs (("angle", VInt 180) :: kwargs) w = (Ok bend, w') →
  dict_get (NStr "W0") (ports bend) = Some pw0 →
  dict_get (NStr "W1") (ports bend) = None →
  ports_list ps = port :: rest →
  get_routes_bend180 ps (AFactory f) xs kwargs w = (Err KeyError, w').
Proof.
  intros Hkw Hf Hw0 Hw1 Hps. unfold get_routes_bend180.
  rewrite (bind_lift_ok _ _ _ ([("angle", VInt 180)] ++ kwargs))
    by (apply keywords_ok; by repeat constructor).
  rewrite (bind_ok _ _ _ _ _ Hf).
  unfold lift. f_equal. cbv zeta.
  rewrite zip_const_r, mapR_fmap.
  assert (∀ q, ∃ r, connect "W0" q (ref bend) = Ok r ∧ parent r = bend) as Hconn.
  { intros q. destruct (connect_spec "W0" q (ref bend) pw0 Hw0) as (r & p' & Hr & Hp & _).
    eauto. }
  assert (∃ place : Port → ComponentReference,
            ∀ q, connect "W0" q (ref bend) = Ok (place q) ∧ parent (place q) = bend)
    as [place Hplace].
  { exists (λ q, match connect "W0" q (ref bend) with Ok r => r | Err _ => ref bend end).
    intros q. destruct (Hconn q) as (r & -> & Hr). done. }
  rewrite (mapR_ok _ place) by (intros q _; apply Hplace).
  rewrite Result_bind_Ok, Hps.
  change (enumerate (place <$> port :: rest))
    with ((0%nat, place port) :: zip (seq 1 (length (place <$> rest))) (place <$> rest)).
  change (mapR ?g (?x :: ?l)) with (y ← g x; ys ← mapR g l; Ok (y :: ys)).
  cbv beta iota.
  assert (dict_item (NStr "W1") (ref_ports (place port)) = Err KeyError) as ->; [|done].
  unfold dict_item. rewrite ref_ports_get.
  destruct (Hplace port) as [_ ->]. by rewrite Hw1.
Qed.

End get_routes_bend180_more.

Lemma get_routes_bend180_type_errors_witness :
  get_routes_bend180 (PortList ex_pads) (AComponent ex_bend180) ex_strip [] empty_world
    = (Err TypeError, empty_world) ∧
  get_routes_bend180 (PortList ex_pads) (AFactory ex_bend_body) ex_strip
    [("angle", VInt 90)] empty_world = (Err TypeError, empty_world).
Proof.
  split.
  - apply (get_routes_bend180_type_errors (PortList ex_pads) (AComponent ex_bend180)).
    right. by eexists.
  - apply (get_routes_bend180_type_errors (PortList ex_pads) (AFactory ex_bend_body)).
    left. compute_done.
Defined.

Lemma get_routes_bend180_no_ports_witness :
  get_routes_bend180 (PortList []) (AFactory (cell_factory ex_xs_key "bend_euler" ex_bend_body))
    ex_strip [] empty_world
  = (Ok (Build_Routes [] [] []),
     Build_World
       (<[cache_key "bend_euler" [("cross_section", VStr "strip"); ("angle", VInt 180)]
          := Build_Instance 0 ex_bend180]> ∅) 1).
Proof.
  refine (get_routes_bend180_no_ports (PortList [])
            (cell_factory ex_xs_key "bend_euler" ex_bend_body)
            ex_strip [] empty_world ex_bend180 _ _ _ _).
  - by intros ?%elem_of_nil.
  - done.
  - done.
Defined.

Lemma get_routes_bend180_missing_W1_witness :
  get_routes_bend180 (PortList ex_pads)
    (AFactory (λ _ _, mret (Build_Component [] []
                              [(NStr "W0", ex_optical_port "W0" 0 0 (num 180))] (Some 1))))
    ex_strip [] empty_world = (Err KeyError, empty_world).
Proof.
  refine (get_routes_bend180_missing_W1 (PortList ex_pads) ex_pad0 [ex_pad1] _ ex_strip []
            empty_world
            (Build_Component [] [] [(NStr "W0", ex_optical_port "W0" 0 0 (num 180))] (Some 1))
            empty_world (ex_optical_port "W0" 0 0 (num 180)) _ _ _ _ _); try done.
  by intros ?%elem_of_nil.
Defined.

(** ** coupler90: a bend off the axis, and what the call rejects *)

Section coupler90_more.
Context `{Trig}.
Variable straight : ComponentFactory.

(** X4: [coupler90] lifts the bend by the y coordinate of the bend's own
    "W0" port plus gap plus width (line 58 reads the port through the
    reference, before it moves).  The exposed "W1" therefore sits at
    y = 2 * y(W0 of the bend) + gap + width and "N0" is lifted by the same
    amount, while "E0" and "W0" stay where the straight has them: the
    distance between the straight and the bend is [gap + width] only for a
    bend whose "W0" lies on the x axis. *)
Theorem coupler90_bend_lift gap radius bend xs kwargs w x w1 bend90 w2 n0 pw0 sc w3 e0 sw0 wd :
  "radius" ∉ dict_keys kwargs →
  "length" ∉ dict_keys kwargs →
  xs (("radius", VNum radius) :: kwargs) w = (Ok x, w1) →
  dict_get "width" (info x) = Some wd →
  bend_of bend xs kwargs w1 = (Ok bend90, w2) →
  dict_get (NStr "N0") (ports bend90) = Some n0 →
  dict_get (NStr "W0") (ports bend90) = Some pw0 →
  straight xs (("length", VNum ((midpoint n0).1 - (midpoint pw0).1)) :: kwargs) w2
    = (Ok sc, w3) →
  dict_get (NStr "E0") (ports sc) = Some e0 →
  dict_get (NStr "W0") (ports sc) = Some sw0 →
  ∃ c pe pn pw pw1,
    coupler90 straight gap radius bend xs kwargs w = (Ok c, w3) ∧
    ports c = [(NStr "E0", pe); (NStr "N0", pn); (NStr "W0", pw); (NStr "W1", pw1)] ∧
    midpoint pe = midpoint e0 ∧
    midpoint pw = midpoint sw0 ∧
    midpoint pn = ((midpoint n0).1, (midpoint n0).2 + (midpoint pw0).2 + gap + wd) ∧
    midpoint pw1 = ((midpoint pw0).1, num 2 * (midpoint pw0).2 + gap + wd) ∧
    port_name pe = NStr "E0" ∧ port_name pn = NStr "N0" ∧
    port_name pw = NStr "W0" ∧ port_name pw1 = NStr "W1".
Proof.
  intros Hrad Hlen Hx Hwd Hbend Hn0 Hw0 Hsc He0 Hsw0.
  pose proof (coupler90_runs straight gap radius bend xs kwargs w x w1 bend90 w2 n0 pw0 sc w3
                e0 sw0 wd Hrad Hlen Hx Hwd Hbend Hn0 Hw0 Hsc He0 Hsw0) as Hrun.
  cbv zeta in Hrun.
  eexists _, _, _, _, _. split; [exact Hrun|]. split; [reflexivity|].
  split; [apply transform_port_ref|]. split; [apply transform_port_ref|].
  split.
  { unfold rename_port. cbn [midpoint]. rewrite transform_port_movey. f_equal. ring. }
  split.
  { unfold rename_port. cbn [midpoint]. rewrite transform_port_movey. f_equal.
    replace (num 2) with (1 + 1 : Qc) by compute_done. ring. }
  done.
Qed.

(** X5: [coupler90] needs the ports "N0" and "W0" on the bend to size the
    straight (line 46): when one of them is missing the call raises
    KeyError once the cross-section and the bend are built, and the
    [straight] factory is never called (the cache is the one the bend's
    factory left). *)
Theorem coupler90_bend_without_port gap radius bend xs kwargs w x w1 bend90 w2 :
  "radius" ∉ dict_keys kwargs →
  xs (("radius", VNum radius) :: kwargs) w = (Ok x, w1) →
  bend_of bend xs kwargs w1 = (Ok bend90, w2) →
  dict_get (NStr "N0") (ports bend90) = None ∨ dict_get (NStr "W0") (ports bend90) = None →
  coupler90 straight gap radius bend xs kwargs w = (Err KeyError, w2).
Proof.
  intros Hrad Hx Hbend Hmiss.
  unfold coupler90.
  rewrite (bind_lift_ok _ _ _ ([("radius", VNum radius)] ++ kwargs))
    by (apply keywords_ok; by repeat constructor).
  rewrite (bind_ok _ _ _ _ _ Hx).
  change (match bend with
          | AFactory f => f xs kwargs
          | AComponent b => mret b
          end) with (bend_of bend xs kwargs).
  rewrite (bind_ok _ _ _ _ _ Hbend).
  unfold add_ref, add.
  cbn [objs b_polygons b_references b_ports b_length Component_new app length].
  destruct (dict_get (NStr "N0") (ports bend90)) as [n0|] eqn:Hn0.
  - destruct Hmiss as [?|Hw0]; [done|].
    rewrite (bind_lift_ok _ _ _ n0) by (by apply dict_item_Ok).
    rewrite (bind_lift_err _ _ _ KeyError); [done|].
    unfold dict_item. by rewrite Hw0.
  - rewrite (bind_lift_err _ _ _ KeyError); [done|].
    unfold dict_item. by rewrite Hn0.
Qed.

(** X6: the keyword arguments of [coupler90] cannot hold "length", which
    lines 44 to 48 pass to [straight] beside them: the call raises
    TypeError where the straight is called, after the cross-section and the
    bend were built.  (A [radius] keyword never reaches the keyword
    arguments: Python binds it to the parameter [radius].) *)
Theorem coupler90_length_keyword gap radius bend xs kwargs w x w1 bend90 w2 n0 pw0 :
  "radius" ∉ dict_keys kwargs →
  "length" ∈ dict_keys kwargs →
  xs (("radius", VNum radius) :: kwargs) w = (Ok x, w1) →
  bend_of bend xs kwargs w1 = (Ok bend90, w2) →
  dict_get (NStr "N0") (ports bend90) = Some n0 →
  dict_get (NStr "W0") (ports bend90) = Some pw0 →
  coupler90 straight gap radius bend xs kwargs w = (Err TypeError, w2).
Proof.
  intros Hrad Hlen Hx Hbend Hn0 Hw0.
  unfold coupler90.
  rewrite (bind_lift_ok _ _ _ ([("radius", VNum radius)] ++ kwargs))
    by (apply keywords_ok; by repeat constructor).
  rewrite (bind_ok _ _ _ _ _ Hx).
  change (match bend with
          | AFactory f => f xs kwargs
          | AComponent b => mret b
          end) with (bend_of bend xs kwargs).
  rewrite (bind_ok _ _ _ _ _ Hbend).
  unfold add_ref, add.
  cbn [objs b_polygons b_references b_ports b_length Component_new app length].
  rewrite (bind_lift_ok _ _ _ n0) by (by apply dict_item_Ok).
  rewrite (bind_lift_ok _ _ _ pw0) by (by apply dict_item_Ok).
  rewrite (bind_lift_err _ _ _ TypeError); [done|].
  unfold keywords. rewrite decide_True; [done|]. by constructor.
Qed.

End coupler90_more.

(** ** straight_heater_connector: where the metal goes *)

Lemma sort_by_pair_swap {A} (key : A → Qc) (a b : A) :
  key a ≠ key b → sort_by key [b; a] = sort_by key [a; b].
Proof.
  intros Hne. rewrite !sort_by_pair.
  destruct (decide (key a < key b)) as [Hab|Hab], (decide (key b < key a)) as [Hba|Hba];
    try done.
  - exfalso. apply (Qclt_not_le _ _ Hab). by apply Qclt_le_weak.
  - exfalso. apply Hne. apply Qcle_antisym; by apply Qcnot_lt_le.
Qed.

Lemma translate_0 (p : Point) : translate (0, 0) p = p.
Proof. destruct p as [x y]. unfold translate. simpl. f_equal; ring. Qed.




Section straight_heater_connector_more.
Context `{Trig}.
Variable tlm : Qc → Qc → list Layer → M Component.
Variable line : Point → Point → Qc → list Point.


(** X8: the order in which the two heater ports are given does not matter
    when they lie at different heights and have the same width: the ports
    are sorted by y (line 200), and the only thing read from the first port
    before the sort is its width (line 197). *)
Theorem straight_heater_connector_swap p0 p1 tlm_layers port_width port_orientation w :
  port_y p0 ≠ port_y p1 →
  width p0 = width p1 →
  straight_heater_connector tlm line [p1; p0] tlm_layers port_width port_orientation w
  = straight_heater_connector tlm line [p0; p1] tlm_layers port_width port_orientation w.
Proof.
  intros Hy Hw.
  unfold straight_heater_connector.
  rewrite !(bind_lift_ok _ _ _ ()) by done.
  rewrite (bind_lift_ok _ _ _ p1) by done.
  rewrite (bind_lift_ok _ _ _ p0) by done.
  rewrite (bind_lift_ok _ _ _ p0) by done.
  rewrite (bind_lift_ok _ _ _ p1) by done.
  destruct (decide (orientation p0 = orientation p1)) as [Ho|Ho].
  - rewrite <- Ho, <- Hw.
    cbv zeta.
    rewrite (sort_by_pair_swap port_y p0 p1 Hy).
    destruct (bool_decide (pymod (orientation p0) (num 360) ∈ [0; num 180])); done.
  - rewrite !(bind_lift_err _ _ _ AssertionError); [done| |].
    + by rewrite bool_decide_false.
    + rewrite bool_decide_false; [done|]. congruence.
Qed.

(** X9: with an empty [tlm_layers] and two ports that pass the assertions,
    the call raises IndexError at [tlm_layers[-1]] (line 222), after [tlm]
    was called. *)
Theorem straight_heater_connector_no_layers p0 p1 port_width port_orientation w t w' :
  orientation p0 = orientation p1 →
  pymod (orientation p0) (num 360) ∈ [0; num 180] →
  tlm (Q2Qc 0.5) (Q2Qc 0.5) [] w = (Ok t, w') →
  straight_heater_connector tlm line [p0; p1] [] port_width port_orientation w
    = (Err IndexError, w').
Proof.
  intros Ho Hangle Htlm.
  unfold straight_heater_connector.
  rewrite (bind_lift_ok _ _ _ ()) by done.
  rewrite (bind_lift_ok _ _ _ p0) by done.
  rewrite (bind_lift_ok _ _ _ p1) by done.
  rewrite (bind_lift_ok _ _ _ ()) by (by rewrite bool_decide_true).
  cbv zeta.
  rewrite (bind_lift_ok _ _ _ ()) by (by rewrite bool_decide_true).
  rewrite (bool_decide_true _ Hangle).
  rewrite (bind_ok _ _ _ _ _ Htlm).
  rewrite sort_by_pair.
  apply in_0_180 in Hangle as [Ha|Ha]; rewrite Ha;
    by destruct (decide (port_y p1 < port_y p0)).
Qed.

End straight_heater_connector_more.

(** ** straight_with_heater: a heater without its heater ports *)

Section straight_with_heater_more.
Context `{Trig}.
Variable auto_rename_ports : Building → Building.

(** X10: [straight_with_heater] reads the ports "HBE0" and "HTE0" of the
    heater it was given before it builds anything else (line 271): when the
    heater lacks one of them the call raises KeyError, no connector is
    called, and the cache is the one the heater factory left. *)
Theorem straight_with_heater_missing_heater_port len straight_heater connector port_width
    port_orientation_input port_orientation_output kwargs w h w1 :
  "length" ∉ dict_keys kwargs →
  straight_heater (("length", VNum len) :: kwargs) w = (Ok h, w1) →
  dict_get (NStr "HBE0") (ports h) = None ∨ dict_get (NStr "HTE0") (ports h) = None →
  straight_with_heater auto_rename_ports len straight_heater connector port_width
    port_orientation_input port_orientation_output kwargs w = (Err KeyError, w1).
Proof.
  intros Hlen Hh Hmiss. unfold straight_with_heater.
  rewrite (bind_lift_ok _ _ _ ([("length", VNum len)] ++ kwargs))
    by (apply keywords_ok; by repeat constructor).
  rewrite (bind_ok _ _ _ _ _ Hh).
  unfold add_ref, add, get_ref.
  cbn [objs b_polygons b_references b_ports b_length Component_new app length
       lookup_total list_lookup_total].
  destruct (dict_get (NStr "HBE0") (ports h)) as [hbe0|] eqn:Hb.
  - destruct Hmiss as [?|Ht]; [done|].
    rewrite (bind_lift_ok _ _ _ (transform_port (ref h) hbe0)) by (by apply ref_port_item).
    rewrite (bind_lift_err _ _ _ KeyError); [done|].
    unfold dict_item. rewrite ref_ports_get. cbn [parent ref]. by rewrite Ht.
  - rewrite (bind_lift_err _ _ _ KeyError); [done|].
    unfold dict_item. rewrite ref_ports_get. cbn [parent ref]. by rewrite Hb.
Qed.

End straight_with_heater_more.

Lemma straight_with_heater_missing_heater_port_witness :
  straight_with_heater id (num 10) (λ _, mret ex_bend90)
    (connector_default ex_tlm ex_line ex_tlm_layers) (num 10) (num 90) (num 90) [] empty_world
  = (Err KeyError, empty_world).
Proof.
  refine (straight_with_heater_missing_heater_port id (num 10) (λ _, mret ex_bend90) _ (num 10)
            (num 90) (num 90) [] empty_world ex_bend90 empty_world _ _ _).
  - by intros ?%elem_of_nil.
  - done.
  - by left.
Defined.

(** ** Code that can divide by zero *)

Lemma bindZ_fine {A B} (m : MZ A) (f : A → MZ B) w a w' :
  m w = (Fine a, w') → (m ≫= f) w = f a w'.
Proof. intros Hm. unfold mbind, MZ_bind. by rewrite Hm. Qed.

Lemma bindZ_raise {A B} (m : MZ A) (f : A → MZ B) w e w' :
  m w = (Raise e, w') → (m ≫= f) w = (Raise e, w').
Proof. intros Hm. unfold mbind, MZ_bind. by rewrite Hm. Qed.

Lemma bindZ_inv {A B} (m : MZ A) (f : A → MZ B) w b w' :
  (m ≫= f) w = (Fine b, w') → ∃ a w1, m w = (Fine a, w1) ∧ f a w1 = (Fine b, w').
Proof.
  unfold mbind, MZ_bind. destruct (m w) as [[a|e] w1]; [eauto|done].
Qed.

Lemma liftM_fine {A} (m : M A) w a w' : m w = (Ok a, w') → liftM m w = (Fine a, w').
Proof. intros Hm. unfold liftM. by rewrite Hm. Qed.

Lemma liftM_raise {A} (m : M A) w e w' : m w = (Err e, w') → liftM m w = (Raise (Py e), w').
Proof. intros Hm. unfold liftM. by rewrite Hm. Qed.

Lemma liftM_inv {A} (m : M A) w a w' : liftM m w = (Fine a, w') → m w = (Ok a, w').
Proof. unfold liftM. destruct (m w) as [[a'|e] w1]; [|done]. by intros [= -> ->]. Qed.

Lemma liftR_fine {A} (r : Result A) w a : r = Ok a → liftR r w = (Fine a, w).
Proof. by intros ->. Qed.

Lemma liftR_raise {A} (r : Result A) w e : r = Err e → liftR r w = (Raise (Py e), w).
Proof. by intros ->. Qed.

Lemma liftR_inv {A} (r : Result A) w a w' : liftR r w = (Fine a, w') → r = Ok a ∧ w' = w.
Proof. destruct r; [|done]. by intros [= -> ->]. Qed.

Lemma liftZ_inv {A} (r : Res A) w a w' : liftZ r w = (Fine a, w') → r = Fine a ∧ w' = w.
Proof. by intros [= -> ->]. Qed.

Lemma mretZ_inv {A} (a b : A) (w w' : World) :
  (mret a : MZ A) w = (Fine b, w') → a = b ∧ w = w'.
Proof. by intros [= -> ->]. Qed.

(** ** add_trenches *)

Lemma np_sign_opp a : np_sign (- a) = - np_sign a.
Proof.
  unfold np_sign.
  destruct (decide (a < 0)) as [Hn|Hn], (decide (0 < a)) as [Hp|Hp].
  - exfalso. apply (Qclt_not_le _ _ Hn). by apply Qclt_le_weak.
  - rewrite decide_False, decide_True; [compute_done| |].
    + apply Qclt_minus_iff. by replace (- a + - 0) with (0 + - a) by ring;
        apply Qclt_minus_iff in Hn.
    + intros Hlt. apply Qclt_minus_iff in Hlt. apply Hp.
      by replace (0 + - - a) with a in Hlt by ring.
  - rewrite decide_True; [compute_done|].
    apply Qclt_minus_iff. by replace (0 + - - a) with a by ring.
  - rewrite decide_False, decide_False; [compute_done| |].
    + intros Hlt. apply Qclt_minus_iff in Hlt. apply Hn.
      apply Qclt_minus_iff. by replace (- a + - 0) with (0 + - a)  in Hlt by ring.
    + intros Hlt. apply Qclt_minus_iff in Hlt. apply Hp.
      by replace (0 + - - a) with a in Hlt by ring.
Qed.

Lemma Qc_opp_neg a : a < 0 ↔ 0 < - a.
Proof.
  rewrite (Qclt_minus_iff a 0), (Qclt_minus_iff 0 (- a)).
  by replace (- a + - 0) with (0 + - a) by ring.
Qed.

Lemma Qc_opp_pos a : 0 < a ↔ - a < 0.
Proof.
  rewrite (Qclt_minus_iff 0 a), (Qclt_minus_iff (- a) 0).
  by replace (0 + - - a) with (a + - 0) by ring.
Qed.

Lemma py_abs_opp a : py_abs (- a) = py_abs a.
Proof.
  unfold py_abs.
  destruct (decide (a < 0)) as [Hn|Hn], (decide (- a < 0)) as [Hp|Hp]; try ring.
  - apply Qc_opp_pos in Hp. exfalso. apply (Qclt_not_le _ _ Hn). by apply Qclt_le_weak.
  - assert (a = 0) as ->; [|ring].
    apply Qcle_antisym; apply Qcnot_lt_le; [by rewrite Qc_opp_pos|done].
Qed.

(** X11: the trenches of the lanes [k] and [-k] lie mirrored about the
    waveguide axis (lines 65 and 66 multiply a height that depends on
    [abs(lane)] by [np.sign(lane)]), and a trench of lane 0 lies on the
    axis itself, over the waveguide. *)
Theorem trench_y_mirror a tko trench_width heater_width lane :
  trench_y a tko trench_width heater_width (- lane)
    = - trench_y a tko trench_width heater_width lane ∧
  trench_y a tko trench_width heater_width 0 = 0.
Proof.
  unfold trench_y. cbv zeta. split.
  - rewrite np_sign_opp, py_abs_opp. ring.
  - replace (np_sign 0) with (0 : Qc) by compute_done. ring.
Qed.






Lemma remove_first_snoc h l : h ∉ l → remove_first h (l ++ [h]) = l.
Proof.
  induction l as [|x l IH]; intros Hnot; simpl.
  - by rewrite decide_True.
  - rewrite decide_False by (intros ->; apply Hnot; left).
    f_equal. apply IH. intros Hin. apply Hnot. by right.
Qed.

Lemma handles_ok_fresh c : handles_ok c → length (objs c) ∉ b_references c.
Proof.
  intros Hok Hin. unfold handles_ok in Hok. rewrite Forall_forall in Hok.
  apply Hok in Hin. lia.
Qed.

Lemma only_polygons_added_refl c : only_polygons_added c c.
Proof.
  repeat split; try done; exists []; by rewrite app_nil_r.
Qed.

Lemma only_polygons_added_trans c1 c2 c3 :
  only_polygons_added c1 c2 → only_polygons_added c2 c3 → only_polygons_added c1 c3.
Proof.
  intros (Hp & Hr & Hl & [gs Hg] & [os Ho]) (Hp' & Hr' & Hl' & [gs' Hg'] & [os' Ho']).
  repeat split; try congruence.
  - exists (gs ++ gs'). by rewrite Hg', Hg, app_assoc.
  - exists (os ++ os'). by rewrite Ho', Ho, app_assoc.
Qed.

Lemma only_polygons_added_handles c c' :
  only_polygons_added c c' → handles_ok c → handles_ok c'.
Proof.
  intros (_ & Hr & _ & _ & [os Ho]) Hok. unfold handles_ok in *.
  rewrite Hr, Ho, length_app. eapply Forall_impl; [exact Hok|]. simpl. lia.
Qed.

Section add_trenches_facts.
Context `{Trig}.
Variable hline : Qc → Qc → Layer → M Component.

(** A reference that is added and absorbed at once leaves its polygons
    behind and nothing else. *)
Lemma add_absorb r c :
  handles_ok c →
  ∃ c', absorb (add r c).1 (add r c).2 = Ok c' ∧ only_polygons_added c c'.
Proof.
  intros Hok. unfold absorb, add.
  cbn [fst snd objs b_polygons b_references b_ports b_length].
  rewrite decide_True by (apply elem_of_app; right; by left).
  eexists. split; [reflexivity|].
  repeat split; cbn [objs b_polygons b_references b_ports b_length]; try done.
  - apply remove_first_snoc. by apply handles_ok_fresh.
  - by eexists.
  - by eexists.
Qed.

Lemma place_segments_frame trench_width sstw layer_trench y segs :
  ∀ c x w x' c' w',
    handles_ok c →
    place_segments hline c trench_width sstw layer_trench x y segs w = (Fine (x', c'), w') →
    only_polygons_added c c'.
Proof.
  unfold place_segments.
  induction segs as [|s segs IH]; intros c x w x' c' w' Hok Hrun.
  - apply mretZ_inv in Hrun as [[= <- <-] _]. apply only_polygons_added_refl.
  - cbn [foldMZ] in Hrun.
    apply bindZ_inv in Hrun as ([x1 c1] & w1 & Hstep & Hrest).
    apply bindZ_inv in Hstep as (t & wa & _ & Hstep).
    apply bindZ_inv in Hstep as (w0 & wb & _ & Hstep).
    apply bindZ_inv in Hstep as (r & wc & _ & Hstep).
    destruct (add_absorb r c Hok) as (c2 & Habs & Hext).
    destruct (add r c) as [h cadd]. cbn [fst snd] in Habs.
    apply bindZ_inv in Hstep as (c3 & wd & Hc3 & Hstep).
    apply liftR_inv in Hc3 as [Hc3 _]. rewrite Habs in Hc3. injection Hc3 as <-.
    apply mretZ_inv in Hstep as [[= <- <-] _].
    eapply only_polygons_added_trans; [exact Hext|].
    eapply IH; [|exact Hrest]. by eapply only_polygons_added_handles.
Qed.

Lemma add_trenches_frame c settings sstw trench_width trench_keep_out trenches layer_trench
    w c' w' :
  handles_ok c →
  add_trenches hline c settings sstw trench_width trench_keep_out trenches layer_trench w
    = (Fine c', w') →
  only_polygons_added c c'.
Proof.
  intros Hok Hrun.
  unfold add_trenches in Hrun.
  apply bindZ_inv in Hrun as (hw & w1 & _ & Hrun).
  apply bindZ_inv in Hrun as (hs & w2 & _ & Hrun).
  apply bindZ_inv in Hrun as (wd & w3 & _ & Hrun).
  apply bindZ_inv in Hrun as (len & w4 & _ & Hrun).
  cbv zeta in Hrun.
  destruct (bool_decide (0 < trench_width)).
  2:{ apply mretZ_inv in Hrun as [<- _]. apply only_polygons_added_refl. }
  clear w w1 w2 w3.
  revert c w4 Hok Hrun.
  induction trenches as [|t ts IH]; intros c w Hok Hrun.
  - apply mretZ_inv in Hrun as [<- _]. apply only_polygons_added_refl.
  - cbn [foldMZ] in Hrun.
    apply bindZ_inv in Hrun as (c1 & w1 & Hstep & Hrest).
    apply bindZ_inv in Hstep as (l & wa & _ & Hstep).
    apply bindZ_inv in Hstep as (x0 & wb & _ & Hstep).
    apply bindZ_inv in Hstep as (segs & wc & _ & Hstep).
    apply bindZ_inv in Hstep as ([x1 c2] & wd' & Hplace & Hstep).
    apply mretZ_inv in Hstep as [<- <-]. cbn [snd] in *.
    apply place_segments_frame in Hplace; [|done].
    eapply only_polygons_added_trans; [exact Hplace|].
    eapply IH; [|exact Hrest]. by eapply only_polygons_added_handles.
Qed.

(** X13: [add_trenches] only adds polygons.  Whenever it returns, the
    ports, the references and the [length] of the component are the ones it
    had, and its own polygons are still there, in front of the new ones:
    every trench segment is absorbed as soon as it is added (lines 83 and
    84). *)
Theorem add_trenches_only_adds_polygons c settings sstw trench_width trench_keep_out trenches
    layer_trench w c' w' :
  handles_ok c →
  add_trenches hline c settings sstw trench_width trench_keep_out trenches layer_trench w
    = (Fine c', w') →
  ports (finalize c') = ports (finalize c) ∧
  references (finalize c') = references (finalize c) ∧
  comp_length (finalize c') = comp_length (finalize c) ∧
  ∃ gs, polygons (finalize c') = polygons (finalize c) ++ gs.
Proof.
  intros Hok Hrun.
  destruct (add_trenches_frame _ _ _ _ _ _ _ _ _ _ Hok Hrun)
    as (Hp & Hr & Hl & [gs Hg] & [os Ho]).
  unfold finalize. cbn [ports references comp_length polygons].
  repeat split; try done.
  - rewrite Hr. apply Forall_fmap_ext_1.
    eapply Forall_impl; [exact Hok|]. intros h Hh. simpl in Hh.
    unfold get_ref. rewrite Ho. by apply lookup_total_app_l.
  - by exists gs.
Qed.

(** X14: with a [trench_width] that is zero or negative (line 60)
    [add_trenches] returns the component as it is: no trench is read and
    [hline] is not called.  The four settings are read before that (lines 52
    to 55): when one is missing the call raises KeyError all the same. *)
Theorem add_trenches_disabled c settings sstw trench_width trench_keep_out trenches
    layer_trench w :
  trench_width ≤ 0 →
  add_trenches hline c settings sstw trench_width trench_keep_out trenches layer_trench w =
    (if decide (Forall (λ k, k ∈ dict_keys settings)
                  ["heater_width"; "heater_spacing"; "width"; "length"])
     then Fine c else Raise (Py KeyError), w).
Proof.
  intros Htw. unfold add_trenches.
  assert (∀ k, dict_item k settings = Err KeyError ∨
               (k ∈ dict_keys settings ∧ ∃ v, dict_item k settings = Ok v)) as Hitem.
  { intros k. unfold dict_item. destruct (dict_get k settings) as [v|] eqn:Hk; [|by left].
    right. split; [|by eexists].
    apply dict_get_Some_elem in Hk. apply list_elem_of_fmap. by exists (k, v). }
  assert (∀ k, dict_item k settings = Err KeyError → k ∉ dict_keys settings) as Hnot.
  { intros k Hk. apply dict_get_None. unfold dict_item in Hk.
    by destruct (dict_get k settings). }
  destruct (Hitem "heater_width") as [E1|[I1 [v1 E1]]].
  { rewrite (bindZ_raise _ _ _ (Py KeyError) w) by (by apply liftR_raise).
    rewrite decide_False; [done|]. intros Hall. apply (Hnot _ E1).
    by apply Forall_cons_1 in Hall as [? _]. }
  rewrite (bindZ_fine _ _ _ v1 w) by (by apply liftR_fine).
  destruct (Hitem "heater_spacing") as [E2|[I2 [v2 E2]]].
  { rewrite (bindZ_raise _ _ _ (Py KeyError) w) by (by apply liftR_raise).
    rewrite decide_False; [done|]. intros Hall. apply (Hnot _ E2).
    by apply Forall_cons_1 in Hall as [_ [? _]%Forall_cons_1]. }
  rewrite (bindZ_fine _ _ _ v2 w) by (by apply liftR_fine).
  destruct (Hitem "width") as [E3|[I3 [v3 E3]]].
  { rewrite (bindZ_raise _ _ _ (Py KeyError) w) by (by apply liftR_raise).
    rewrite decide_False; [done|]. intros Hall. apply (Hnot _ E3).
    by apply Forall_cons_1 in Hall as [_ [_ [? _]%Forall_cons_1]%Forall_cons_1]. }
  rewrite (bindZ_fine _ _ _ v3 w) by (by apply liftR_fine).
  destruct (Hitem "length") as [E4|[I4 [v4 E4]]].
  { rewrite (bindZ_raise _ _ _ (Py KeyError) w) by (by apply liftR_raise).
    rewrite decide_False; [done|]. intros Hall. apply (Hnot _ E4).
    by apply Forall_cons_1 in Hall
      as [_ [_ [_ [? _]%Forall_cons_1]%Forall_cons_1]%Forall_cons_1]. }
  rewrite (bindZ_fine _ _ _ v4 w) by (by apply liftR_fine).
  cbv zeta.
  rewrite bool_decide_false by (by apply Qcle_not_lt).
  rewrite decide_True; [done|]. by repeat constructor.
Qed.

(** X15: a trench with "nb_segments" 0 and no "segments" makes
    [add_trenches] raise ZeroDivisionError (line 71 divides by the count),
    before [hline] is called for it. *)
Theorem add_trenches_zero_segments c settings sstw trench_width trench_keep_out trench rest
    layer_trench w heater_width heater_spacing wd len l x0 :
  dict_get "heater_width" settings = Some heater_width →
  dict_get "heater_spacing" settings = Some heater_spacing →
  dict_get "width" settings = Some wd →
  dict_get "length" settings = Some len →
  0 < trench_width →
  lane trench = Some l →
  x_start_offset trench = Some x0 →
  segments trench = None →
  nb_segments trench = Some 0%Z →
  add_trenches hline c settings sstw trench_width trench_keep_out (trench :: rest)
    layer_trench w = (Raise ZeroDivisionError, w).
Proof.
  intros H1 H2 H3 H4 Htw Hlane Hx Hseg Hnb. unfold add_trenches.
  rewrite (bindZ_fine _ _ _ heater_width w) by (by apply liftR_fine, dict_item_Ok).
  rewrite (bindZ_fine _ _ _ heater_spacing w) by (by apply liftR_fine, dict_item_Ok).
  rewrite (bindZ_fine _ _ _ wd w) by (by apply liftR_fine, dict_item_Ok).
  rewrite (bindZ_fine _ _ _ len w) by (by apply liftR_fine, dict_item_Ok).
  cbv zeta. rewrite bool_decide_true by done.
  cbn [foldMZ].
  rewrite (bindZ_raise _ _ _ ZeroDivisionError w); [done|].
  rewrite (bindZ_fine _ _ _ l w) by (by rewrite Hlane).
  rewrite (bindZ_fine _ _ _ x0 w) by (by rewrite Hx).
  rewrite (bindZ_raise _ _ _ ZeroDivisionError w); [done|].
  unfold liftZ, trench_segments. by rewrite Hseg, Hnb.
Qed.

End add_trenches_facts.

(** ** heater *)

Section heater_facts.
Context `{Trig}.
Variable hline : Qc → Qc → Layer → M Component.

Lemma transform_point_ref c p : transform_point (ref c) p = p.
Proof. rewrite transform_point_unrotated by done. apply translate_0. Qed.

Lemma transform_polygon_ref c g : transform_polygon (ref c) g = g.
Proof.
  destruct g as [pts l]. unfold transform_polygon. cbn [points polygon_layer]. f_equal.
  rewrite <- (list_fmap_id pts) at 2. apply list_fmap_ext. intros _ p _.
  apply transform_point_ref.
Qed.

Lemma ref_polygons_ref c : ref_polygons (ref c) = get_polygons c.
Proof.
  unfold ref_polygons. cbn [parent ref].
  rewrite <- (list_fmap_id (get_polygons c)) at 2. apply list_fmap_ext. intros _ g _.
  apply transform_polygon_ref.
Qed.

(** X16: [heater] is [hline] with its ports retagged.  It fails only when
    [hline] does; otherwise the Component it returns holds the polygons of
    the [hline] where they were, no reference, and the ports of the [hline]
    under the same names, at the same places and with the same widths, each
    with the layer [layer_heater] and the type "heater" (lines 29 to 33; the
    orientation is read through the reference, which gives it modulo
    360). *)
Theorem heater_retags_ports len wd layer_heater w :
  heater hline len wd layer_heater w =
    match hline len wd layer_heater w with
    | (Ok h, w') =>
        (Ok (Build_Component (get_polygons h) []
               ((λ kp, (kp.1,
                        Build_Port (port_name kp.2) (midpoint kp.2)
                          (pymod (orientation kp.2) (num 360)) (width kp.2)
                          layer_heater "heater")) <$> ports h)
               None), w')
    | (Err e, w') => (Err e, w')
    end.
Proof.
  unfold heater.
  destruct (hline len wd layer_heater w) as [[h|e] w'] eqn:Hh.
  2:{ by rewrite (bind_err _ _ _ _ _ Hh). }
  rewrite (bind_ok _ _ _ _ _ Hh).
  unfold add_ref, add, set_ports, get_ref, absorb.
  cbn [objs b_polygons b_references b_ports b_length Component_new app length
       lookup_total list_lookup_total].
  rewrite decide_True by (by left).
  rewrite (bind_lift_ok _ _ _ _ eq_refl).
  unfold finalize.
  cbn [objs b_polygons b_references b_ports b_length Component_new app length
       lookup_total list_lookup_total remove_first fmap list_fmap].
  rewrite decide_True by done.
  unfold mret, M_ret. f_equal. f_equal. f_equal.
  - apply ref_polygons_ref.
  - unfold ref_ports. cbn [parent ref].
    rewrite <- list_fmap_compose. apply list_fmap_ext. intros _ [k p] _.
    unfold retag_port, prod_map. cbn [fst snd compose id port_name width].
    f_equal. f_equal.
    + apply transform_port_ref.
    + cbn [orientation transform_port x_reflection ref rotation]. f_equal. ring.
Qed.

End heater_facts.

(** ** straight_heater *)

Lemma foldR_add_port_names (g : Port → Result Name) l :
  ∀ c c',
    foldR (λ c p, name ← g p; add_port name p c) c l = Ok c' →
    ∃ names,
      mapR g l = Ok names ∧
      b_ports c' = b_ports c ++ exposed names l ∧
      objs c' = objs c ∧ b_polygons c' = b_polygons c ∧
      b_references c' = b_references c ∧ b_length c' = b_length c ∧
      (NoDup (dict_keys (b_ports c)) → NoDup (dict_keys (b_ports c'))).
Proof.
  induction l as [|x l IH]; intros c c' Hrun.
  - injection Hrun as <-. exists []. rewrite app_nil_r. by repeat split.
  - cbn [foldR] in Hrun.
    apply Result_bind_inv in Hrun as (c1 & Hstep & Hrest).
    apply Result_bind_inv in Hstep as (name & Hname & Hadd).
    unfold add_port in Hadd.
    destruct (dict_get name (b_ports c)) eqn:Hfresh; [done|].
    injection Hadd as <-.
    destruct (IH _ _ Hrest) as (names & Hnames & Hp & Ho & Hg & Hr & Hl & Hnd).
    cbn [objs b_polygons b_references b_ports b_length] in *.
    exists (name :: names). cbn [mapR]. rewrite Hname, Result_bind_Ok, Hnames.
    split; [done|]. split.
    { rewrite Hp, <- app_assoc. done. }
    repeat split; try done.
    intros Hnd0. apply Hnd. unfold dict_keys. rewrite fmap_app. cbn [fmap list_fmap fst].
    apply NoDup_app. split; [done|]. split.
    + intros k Hk [->|[]%elem_of_nil]%elem_of_cons. by apply dict_get_None in Hfresh.
    + apply NoDup_singleton.
Qed.

Lemma dict_get_elem {V} (d : Dict Name V) k v :
  NoDup (dict_keys d) → (k, v) ∈ d → dict_get k d = Some v.
Proof.
  intros Hnd [i Hi]%list_elem_of_lookup. by eapply dict_get_lookup.
Qed.

Lemma exposed_elem (g : Port → Result Name) l names i p :
  mapR g l = Ok names → l !! i = Some p →
  ∃ n, g p = Ok n ∧ (n, rename_port n p) ∈ exposed names l.
Proof.
  intros Hm%mapR_inv Hi.
  destruct (Forall2_lookup_l _ _ _ _ _ Hm Hi) as (n & Hn & Hg).
  exists n. split; [done|].
  apply list_elem_of_lookup. exists i. unfold exposed.
  by rewrite lookup_zip_with, Hn, Hi.
Qed.

Lemma ref_ports_values_lookup `{Trig} r i p :
  dict_values (ports (parent r)) !! i = Some p →
  dict_values (ref_ports r) !! i = Some (transform_port r p).
Proof.
  unfold ref_ports, dict_values. intros ([k q] & -> & Hi)%list_lookup_fmap_Some.
  rewrite <- list_fmap_compose. apply list_lookup_fmap_Some. by exists (k, q).
Qed.

Lemma exposed_keys (g : Port → Result Name) l names :
  mapR g l = Ok names → dict_keys (exposed names l) = names.
Proof.
  intros Hm%mapR_inv. unfold exposed, dict_keys.
  induction Hm as [|p n l names _ _ IH]; [done|].
  cbn [zip_with fmap list_fmap fst]. f_equal. exact IH.
Qed.

Section straight_heater_facts.
Context `{Trig}.
Variable hline : Qc → Qc → Layer → M Component.
Variable get_waveguide_settings : string → Kwargs → M Kwargs.

(** What a call of [straight_heater] that returns has done. *)
Lemma straight_heater_inv len heater_width heater_spacing sstw trench_width trench_keep_out
    trenches layer_heater straight_factory layer_trench waveguide waveguide_settings
    w c settings w' :
  straight_heater hline get_waveguide_settings len heater_width heater_spacing sstw
    trench_width trench_keep_out trenches layer_heater straight_factory layer_trench waveguide
    waveguide_settings w = (Fine (c, settings), w') →
  ∃ h w1 ws w2 v wd wgc w3 names_w names_t names_b gs,
    heater_cell hline len heater_width layer_heater w = (Ok h, w1) ∧
    get_waveguide_settings waveguide waveguide_settings w1 = (Ok ws, w2) ∧
    dict_get "width" ws = Some v ∧ as_num v = Ok wd ∧
    straight_factory ([("length", VNum len); ("waveguide", VStr waveguide)] ++ ws) w2
      = (Ok wgc, w3) ∧
    let y := heater_spacing + (wd + heater_width) / num 2 in
    let top := movey y (ref h) in
    let bot := movey (- y) (ref h) in
    mapR (λ p, Ok (port_name p)) (dict_values (ref_ports (ref wgc))) = Ok names_w ∧
    mapR (λ p, prefix_name "HT" (port_name p)) (dict_values (ref_ports top)) = Ok names_t ∧
    mapR (λ p, prefix_name "HB" (port_name p)) (dict_values (ref_ports bot)) = Ok names_b ∧
    ports c = exposed names_w (dict_values (ref_ports (ref wgc)))
                ++ exposed names_t (dict_values (ref_ports top))
                ++ exposed names_b (dict_values (ref_ports bot)) ∧
    NoDup (dict_keys (ports c)) ∧
    references c = [] ∧
    polygons c = ref_polygons top ++ ref_polygons bot ++ ref_polygons (ref wgc) ++ gs ∧
    settings = [("heater_width", heater_width); ("heater_spacing", heater_spacing);
                ("length", len); ("width", wd)].
Proof.
  intros Hrun. unfold straight_heater in Hrun.
  apply bindZ_inv in Hrun as (h & w1 & Hh%liftM_inv & Hrun).
  apply bindZ_inv in Hrun as (ws & w2 & Hws%liftM_inv & Hrun).
  apply bindZ_inv in Hrun as (wd & w2' & [Hwd ->]%liftR_inv & Hrun).
  apply Result_bind_inv in Hwd as (v & Hv%dict_item_Ok & Hwd).
  unfold add_ref, add, update_ref, get_ref in Hrun.
  cbn [objs b_polygons b_references b_ports b_length Component_new app length
       lookup_total list_lookup_total alter list_alter] in Hrun.
  apply bindZ_inv in Hrun as (kw & w2' & [Hkw ->]%liftR_inv & Hrun).
  apply keywords_inv in Hkw as ->.
  apply bindZ_inv in Hrun as (wgc & w3 & Hwg%liftM_inv & Hrun).
  cbn [objs b_polygons b_references b_ports b_length Component_new app length
       lookup_total list_lookup_total alter list_alter foldR] in Hrun.
  set (top := movey (heater_spacing + (wd + heater_width) / num 2) (ref h)) in *.
  set (bot := movey (- (heater_spacing + (wd + heater_width) / num 2)) (ref h)) in *.
  apply bindZ_inv in Hrun as (cB & w3' & [HcB ->]%liftR_inv & Hrun).
  unfold absorb in HcB.
  cbn [objs b_polygons b_references b_ports b_length app] in HcB.
  rewrite decide_True in HcB by (by left).
  rewrite Result_bind_Ok in HcB.
  cbn [objs b_polygons b_references b_ports b_length app] in HcB.
  change (remove_first 0 [0; 1; 2])%nat with [1; 2]%nat in HcB.
  rewrite decide_True in HcB by (by left).
  rewrite Result_bind_Ok in HcB.
  cbn [objs b_polygons b_references b_ports b_length app] in HcB.
  change (remove_first 1 [1; 2])%nat with [2]%nat in HcB.
  rewrite decide_True in HcB by (by left).
  rewrite Result_bind_Ok in HcB.
  cbn [objs b_polygons b_references b_ports b_length app] in HcB.
  change (remove_first 2 [2])%nat with (@nil nat) in HcB.
  unfold get_ref in HcB.
  cbn [objs lookup_total list_lookup_total] in HcB.
  injection HcB as <-.
  cbn [objs lookup_total list_lookup_total] in Hrun.
  apply bindZ_inv in Hrun as (c1 & w3' & [Hf1 ->]%liftR_inv & Hrun).
  apply (foldR_add_port_names (λ p, Ok (port_name p))) in Hf1
    as (names_w & Hnw & Hp1 & Ho1 & Hg1 & Hr1 & Hl1 & Hnd1).
  rewrite Ho1 in Hrun. cbn [objs lookup_total list_lookup_total] in Hrun.
  apply bindZ_inv in Hrun as (c2 & w3' & [Hf2 ->]%liftR_inv & Hrun).
  apply (foldR_add_port_names (λ p, prefix_name "HT" (port_name p))) in Hf2
    as (names_t & Hnt & Hp2 & Ho2 & Hg2 & Hr2 & Hl2 & Hnd2).
  rewrite Ho2, Ho1 in Hrun. cbn [objs lookup_total list_lookup_total] in Hrun.
  apply bindZ_inv in Hrun as (c3 & w3' & [Hf3 ->]%liftR_inv & Hrun).
  apply (foldR_add_port_names (λ p, prefix_name "HB" (port_name p))) in Hf3
    as (names_b & Hnb & Hp3 & Ho3 & Hg3 & Hr3 & Hl3 & Hnd3).
  apply bindZ_inv in Hrun as (c4 & w4 & Htr & Hrun).
  apply mretZ_inv in Hrun as [[= <- <-] <-].
  cbn [objs b_polygons b_references b_ports b_length app] in *.
  apply add_trenches_frame in Htr as (Hp4 & Hr4 & Hl4 & [gs Hg4] & [os Ho4]).
  2:{ unfold handles_ok. rewrite Hr3, Hr2, Hr1. constructor. }
  exists h, w1, ws, w2, v, wd, wgc, w3, names_w, names_t, names_b, gs.
  repeat (split; [done|]).
  unfold finalize. cbn [ports references polygons].
  split; [by rewrite Hp4, Hp3, Hp2, Hp1, app_assoc|].
  split; [rewrite Hp4; apply Hnd3, Hnd2, Hnd1; constructor|].
  split; [by rewrite Hr4, Hr3, Hr2, Hr1|].
  split; [|done].
  by rewrite Hg4, Hg3, Hg2, Hg1, <- !app_assoc.
Qed.

(** X17: how [straight_heater] exposes the heater's ports (lines 133, 134
    and 150 to 154).  Whenever the call returns, every port of the heater
    has a string name [s] and is exposed twice, as "HT" + s and as
    "HB" + s: the first lies [y_heater] above the place it has in the
    heater, the second [y_heater] below, where [y_heater] is
    heater_spacing + (width + heater_width) / 2 and [width] is the stored
    setting; both keep the heater port's orientation (modulo 360), width,
    layer and type.  In particular the ports "HT" + s and "HB" + s always
    face the same way, as [straight_heater_connector] asserts of its two
    ports. *)
Theorem straight_heater_heater_ports len heater_width heater_spacing sstw trench_width
    trench_keep_out trenches layer_heater straight_factory layer_trench waveguide
    waveguide_settings w c settings w' :
  straight_heater hline get_waveguide_settings len heater_width heater_spacing sstw
    trench_width trench_keep_out trenches layer_heater straight_factory layer_trench waveguide
    waveguide_settings w = (Fine (c, settings), w') →
  ∃ h w1 wd,
    heater_cell hline len heater_width layer_heater w = (Ok h, w1) ∧
    dict_get "width" settings = Some wd ∧
    ∀ p, p ∈ dict_values (ports h) →
      ∃ s pt pb,
        port_name p = NStr s ∧
        dict_get (NStr ("HT" +:+ s)) (ports c) = Some pt ∧
        dict_get (NStr ("HB" +:+ s)) (ports c) = Some pb ∧
        midpoint pt =
          ((midpoint p).1, (midpoint p).2 + (heater_spacing + (wd + heater_width) / num 2)) ∧
        midpoint pb =
          ((midpoint p).1, (midpoint p).2 - (heater_spacing + (wd + heater_width) / num 2)) ∧
        orientation pt = pymod (orientation p) (num 360) ∧
        orientation pb = orientation pt ∧
        width pt = width p ∧ width pb = width p ∧
        layer pt = layer p ∧ layer pb = layer p ∧
        port_type pt = port_type p ∧ port_type pb = port_type p.
Proof.
  intros Hrun.
  destruct (straight_heater_inv _ _ _ _ _ _ _ _ _ _ _ _ _ _ _ _ Hrun)
    as (h & w1 & ws & w2 & v & wd & wgc & w3 & names_w & names_t & names_b & gs &
        Hh & _ & _ & _ & _ & Hrest).
  cbv zeta in Hrest.
  destruct Hrest as (_ & Hnt & Hnb & Hports & Hnd & _ & _ & ->).
  exists h, w1, wd. split; [done|]. split; [done|].
  intros p [i Hi]%list_elem_of_lookup.
  set (y := heater_spacing + (wd + heater_width) / num 2) in *.
  destruct (exposed_elem _ _ _ _ _ Hnt (ref_ports_values_lookup (movey y (ref h)) i p Hi))
    as (nt & Hgt & Het).
  destruct (exposed_elem _ _ _ _ _ Hnb (ref_ports_values_lookup (movey (- y) (ref h)) i p Hi))
    as (nb & Hgb & Heb).
  cbn [port_name transform_port] in Hgt, Hgb.
  destruct (port_name p) as [s|z] eqn:Hname; [|done].
  injection Hgt as <-. injection Hgb as <-.
  eexists s, _, _. split; [done|].
  split.
  { apply dict_get_elem; [done|]. rewrite Hports, !elem_of_app. right. left. exact Het. }
  split.
  { apply dict_get_elem; [done|]. rewrite Hports, !elem_of_app. right. right. exact Heb. }
  unfold rename_port. cbn [midpoint orientation width layer port_type].
  split; [apply transform_port_movey|].
  split.
  { rewrite transform_port_movey. f_equal. }
  cbn [transform_port orientation width layer port_type x_reflection rotation movey move ref].
  split; [f_equal; ring|].
  done.
Qed.

(** X18: what the Component of [straight_heater] is made of.  Whenever the
    call returns, the Component has no reference left (line 143 absorbs the
    three of them); its polygons are those of the heater moved up by
    [y_heater], those of the heater moved down by [y_heater], those of the
    waveguide where it was built, and then the trenches; the ports of the
    waveguide are exposed under their own names, where they were, before
    the heater ports; and the four settings hold the arguments and the
    width, which is the number that the settings returned by
    [get_waveguide_settings] hold under "width" (line 127) and the one that
    [y_heater] = heater_spacing + (width + heater_width) / 2 is computed
    from. *)
Theorem straight_heater_structure len heater_width heater_spacing sstw trench_width
    trench_keep_out trenches layer_heater straight_factory layer_trench waveguide
    waveguide_settings w c settings w' :
  straight_heater hline get_waveguide_settings len heater_width heater_spacing sstw
    trench_width trench_keep_out trenches layer_heater straight_factory layer_trench waveguide
    waveguide_settings w = (Fine (c, settings), w') →
  ∃ h w1 ws w2 v wgc w3 wd gs,
    heater_cell hline len heater_width layer_heater w = (Ok h, w1) ∧
    get_waveguide_settings waveguide waveguide_settings w1 = (Ok ws, w2) ∧
    dict_get "width" ws = Some v ∧
    as_num v = Ok wd ∧
    straight_factory ([("length", VNum len); ("waveguide", VStr waveguide)] ++ ws) w2
      = (Ok wgc, w3) ∧
    settings = [("heater_width", heater_width); ("heater_spacing", heater_spacing);
                ("length", len); ("width", wd)] ∧
    references c = [] ∧
    polygons c =
      ref_polygons (movey (heater_spacing + (wd + heater_width) / num 2) (ref h))
        ++ ref_polygons (movey (- (heater_spacing + (wd + heater_width) / num 2)) (ref h))
        ++ get_polygons wgc ++ gs ∧
    Datatypes.length (ports c)
      = (Datatypes.length (ports wgc) + 2 * Datatypes.length (ports h))%nat ∧
    take (Datatypes.length (ports wgc)) (dict_keys (ports c))
      = port_name <$> dict_values (ports wgc) ∧
    ∀ p, p ∈ dict_values (ports wgc) →
      ∃ p', dict_get (port_name p) (ports c) = Some p' ∧
            midpoint p' = midpoint p ∧ width p' = width p ∧
            layer p' = layer p ∧ port_type p' = port_type p.
Proof.
  intros Hrun.
  destruct (straight_heater_inv _ _ _ _ _ _ _ _ _ _ _ _ _ _ _ _ Hrun)
    as (h & w1 & ws & w2 & v & wd & wgc & w3 & names_w & names_t & names_b & gs &
        Hh & Hws & Hv & Hwd & Hwg & Hrest).
  cbv zeta in Hrest.
  destruct Hrest as (Hnw & Hnt & Hnb & Hports & Hnd & Hrefs & Hpolys & ->).
  exists h, w1, ws, w2, v, wgc, w3, wd, gs.
  repeat (split; [done|]).
  split; [by rewrite Hpolys, ref_polygons_ref|].
  assert (∀ r, Datatypes.length (dict_values (ref_ports r))
               = Datatypes.length (ports (parent r))) as Hlen.
  { intros r. unfold dict_values, ref_ports. by rewrite !length_fmap. }
  assert (∀ (g : Port → Result Name) l names,
            mapR g l = Ok names → Datatypes.length (exposed names l) = Datatypes.length l)
    as Hexp.
  { intros g l names Hm. apply mapR_inv, Forall2_length in Hm.
    unfold exposed. rewrite length_zip_with. lia. }
  assert (dict_keys (exposed names_w (dict_values (ref_ports (ref wgc))))
          = port_name <$> dict_values (ports wgc)) as Hkeys.
  { rewrite (exposed_keys _ _ _ Hnw).
    rewrite (mapR_ok _ port_name) in Hnw by done. injection Hnw as <-.
    unfold ref_ports, dict_values. cbn [parent ref]. rewrite <- !list_fmap_compose.
    by apply list_fmap_ext. }
  split.
  { rewrite Hports, !length_app, (Hexp _ _ _ Hnw), (Hexp _ _ _ Hnt), (Hexp _ _ _ Hnb), !Hlen.
    cbn [parent ref movey move]. lia. }
  split.
  { rewrite Hports. unfold dict_keys at 1. rewrite fmap_app.
    fold (dict_keys (exposed names_w (dict_values (ref_ports (ref wgc))))).
    rewrite Hkeys.
    rewrite take_app_length'; [done|].
    unfold dict_values. by rewrite !length_fmap. }
  intros p [i Hi]%list_elem_of_lookup.
  pose proof (ref_ports_values_lookup (ref wgc) i p Hi) as Hlook.
  destruct (exposed_elem _ _ _ _ _ Hnw Hlook) as (n & [= <-] & He).
  eexists. split.
  { apply dict_get_elem; [done|]. rewrite Hports, !elem_of_app. left. exact He. }
  unfold rename_port. cbn [midpoint width layer port_type].
  split; [apply transform_port_ref|]. done.
Qed.

End straight_heater_facts.

(** ** fiber_array *)

Lemma fiber_name_inj (i j : nat) :
  NStr ("F" +:+ pretty i) = NStr ("F" +:+ pretty j) → i = j.
Proof. intros [= Heq]. change ("" +:+ ?s) with s in Heq. by apply (inj pretty) in Heq. Qed.

Lemma pymod_0 : pymod 0 (num 360) = 0.
Proof. apply pymod_small; [done|apply num_360_pos]. Qed.

Lemma alter_app_r_last {A} (f : A → A) (l : list A) (x : A) :
  alter f (length l) (l ++ [x]) = l ++ [f x].
Proof. induction l as [|y l IH]; [done|]. simpl. f_equal. apply IH. Qed.

Lemma alter_app_l_lt {A} (f : A → A) (l1 l2 : list A) i :
  (i < length l1)%nat → alter f i (l1 ++ l2) = alter f i l1 ++ l2.
Proof.
  revert i. induction l1 as [|y l1 IH]; intros [|i] Hi; simpl in *; try lia; [done|].
  f_equal. apply IH. lia.
Qed.

Section fiber_array_facts.
Context `{Trig}.
Variable circle : Qc → Layer → M Component.
Variable default_midpoint : Point.
Variable default_layer : Layer.
Variable default_port_type : string.

Lemma fiber_array_step pitch core_diameter cladding_diameter layer_core layer_cladding
    (k : nat) (b : Building) (w : World) :
  fiber_array_inv circle default_midpoint default_layer default_port_type pitch core_diameter
    cladding_diameter layer_core layer_cladding k b →
  let body := λ (c : Building) (i : nat),
    co ← circle (core_diameter / num 2) layer_core;
    let '(core, c) := add_ref co c in
    cl ← circle (cladding_diameter / num 2) layer_cladding;
    let '(cladding, c) := add_ref cl c in
    let c := update_ref core (movex (num (Z.of_nat i) * pitch)) c in
    let c := update_ref cladding (movex (num (Z.of_nat i) * pitch)) c in
    lift (add_port_fields (NStr ("F" +:+ pretty i)) default_midpoint core_diameter 0
            default_layer default_port_type c) in
  (∃ e w', body b k w = (Err e, w') ∧
           ∃ r l w0, circle r l w0 = (Err e, w')) ∨
  (∃ b' w', body b k w = (Ok b', w') ∧
            fiber_array_inv circle default_midpoint default_layer default_port_type pitch
              core_diameter cladding_diameter layer_core layer_cladding (S k) b').
Proof.
  intros (Hlen & Hrefs & Hpolys & Hlength & Hports & Hobjs) body. subst body. cbv beta.
  destruct (circle (core_diameter / num 2) layer_core w) as [[co|e] w1] eqn:Hco.
  2:{ left. exists e, w1. rewrite (bind_err _ _ _ _ _ Hco). eauto. }
  rewrite (bind_ok _ _ _ _ _ Hco).
  unfold add_ref, add. cbn [objs b_polygons b_references b_ports b_length].
  destruct (circle (cladding_diameter / num 2) layer_cladding w1) as [[cl|e] w2] eqn:Hcl.
  2:{ left. exists e, w2. rewrite (bind_err _ _ _ _ _ Hcl). eauto. }
  rewrite (bind_ok _ _ _ _ _ Hcl).
  unfold add_ref, add, update_ref. cbn [objs b_polygons b_references b_ports b_length].
  right.
  unfold add_port_fields, add_port.
  cbn [objs b_polygons b_references b_ports b_length].
  assert (dict_get (NStr ("F" +:+ pretty k)) (b_ports b) = None) as ->.
  { apply dict_get_None. rewrite Hports. unfold dict_keys.
    rewrite <- list_fmap_compose. intros (j & Hj & Hin)%list_elem_of_fmap.
    cbn [compose fst fiber_port] in Hj. apply fiber_name_inj in Hj as <-.
    apply elem_of_seq in Hin. lia. }
  eexists _, _. split; [reflexivity|].
  unfold fiber_array_inv. cbn [objs b_polygons b_references b_ports b_length].
  rewrite !length_app. cbn [length].
  rewrite (alter_app_l_lt _ (objs b ++ [ref co]) [ref cl]) by (rewrite length_app; simpl; lia).
  rewrite alter_app_r_last.
  replace (length (objs b) + 1)%nat
    with (length ((objs b ++ [movex (num (Z.of_nat k) * pitch) (ref co)])))
    by (rewrite length_app; simpl; lia).
  rewrite alter_app_r_last.
  rewrite !length_app. cbn [length].
  split; [lia|]. split.
  { rewrite Hrefs, Hlen. replace (2 * S k)%nat with (2 * k + 1 + 1)%nat by lia.
    rewrite !seq_app. cbn [seq]. by rewrite !Nat.add_0_l. }
  split; [done|]. split; [done|]. split.
  { rewrite Hports, seq_S, fmap_app. cbn [fmap list_fmap Nat.add].
    unfold fiber_port, rename_port. cbn [midpoint orientation width layer port_type].
    by rewrite pymod_0. }
  intros i Hi. destruct (decide (i < k)%nat) as [Hlt|Hge].
  - destruct (Hobjs i Hlt) as (co' & cl' & Hc0 & Hc1 & H0 & H1). exists co', cl'.
    rewrite <- !app_assoc.
    rewrite !lookup_app_l by (rewrite Hlen; lia). done.
  - assert (i = k) as -> by lia. exists co, cl.
    split; [eauto|]. split; [eauto|].
    rewrite <- !app_assoc. rewrite <- Hlen.
    rewrite (lookup_app_r (objs b)) by lia. rewrite Nat.sub_diag.
    rewrite (lookup_app_r (objs b)) by lia.
    replace (length (objs b) + 1 - length (objs b))%nat with 1%nat by lia. done.
Qed.

Lemma fiber_array_loop pitch core_diameter cladding_diameter layer_core layer_cladding
    (m : nat) :
  ∀ (k : nat) (b : Building) (w : World),
    fiber_array_inv circle default_midpoint default_layer default_port_type pitch core_diameter
      cladding_diameter layer_core layer_cladding k b →
    let body := λ (c : Building) (i : nat),
      co ← circle (core_diameter / num 2) layer_core;
      let '(core, c) := add_ref co c in
      cl ← circle (cladding_diameter / num 2) layer_cladding;
      let '(cladding, c) := add_ref cl c in
      let c := update_ref core (movex (num (Z.of_nat i) * pitch)) c in
      let c := update_ref cladding (movex (num (Z.of_nat i) * pitch)) c in
      lift (add_port_fields (NStr ("F" +:+ pretty i)) default_midpoint core_diameter 0
              default_layer default_port_type c) in
    (∃ e w', foldM body b (seq k m) w = (Err e, w') ∧
             ∃ r l w0, circle r l w0 = (Err e, w')) ∨
    (∃ b' w', foldM body b (seq k m) w = (Ok b', w') ∧
              fiber_array_inv circle default_midpoint default_layer default_port_type pitch
                core_diameter cladding_diameter layer_core layer_cladding (k + m) b').
Proof.
  induction m as [|m IH]; intros k b w Hinv body.
  - right. exists b, w. split; [done|]. by rewrite Nat.add_0_r.
  - cbn [seq foldM].
    destruct (fiber_array_step pitch core_diameter cladding_diameter layer_core layer_cladding
                k b w Hinv) as [(e & w1 & Hstep & Hc)|(b1 & w1 & Hstep & Hinv1)].
    + left. exists e, w1. split; [|done]. subst body. by rewrite (bind_err _ _ _ _ _ Hstep).
    + subst body. rewrite (bind_ok _ _ _ _ _ Hstep).
      replace (k + S m)%nat with (S k + m)%nat by lia.
      apply (IH (S k) b1 w1 Hinv1).
Qed.

Lemma fiber_array_inv_0 pitch core_diameter cladding_diameter layer_core layer_cladding :
  fiber_array_inv circle default_midpoint default_layer default_port_type pitch core_diameter
    cladding_diameter layer_core layer_cladding 0 Component_new.
Proof. repeat split; try done. intros i Hi. lia. Qed.

Lemma get_ref_seq (b : Building) :
  get_ref b <$> seq 0 (length (objs b)) = objs b.
Proof.
  unfold get_ref. apply list_eq. intros i. rewrite list_lookup_fmap.
  destruct (decide (i < length (objs b))%nat) as [Hlt|Hge].
  - rewrite lookup_seq_lt by done. simpl.
    destruct (lookup_lt_is_Some_2 _ _ Hlt) as [r Hr].
    by rewrite Hr, (list_lookup_total_correct _ _ _ Hr).
  - rewrite lookup_seq_ge by lia. simpl. symmetry. apply lookup_ge_None. lia.
Qed.

(** X19: the ports of a fibre array.  Whenever [fiber_array] returns, the
    Component has one port a fibre, named "F0", "F1", ... in this order, of
    width [core_diameter] and orientation 0, and every one of them lies at
    the same place, the default position of [add_port]: line 42 gives the
    ports no position, so they do not follow the fibres that lines 40 and
    41 move.  The Component has no polygon of its own. *)
Theorem fiber_array_ports n pitch core_diameter cladding_diameter layer_core layer_cladding
    w c w' :
  fiber_array circle default_midpoint default_layer default_port_type n pitch core_diameter
    cladding_diameter layer_core layer_cladding w = (Ok c, w') →
  ports c
    = (λ i : nat,
         (NStr ("F" +:+ pretty i),
          Build_Port (NStr ("F" +:+ pretty i)) default_midpoint 0 core_diameter default_layer
            default_port_type)) <$> seq 0 (Z.to_nat n) ∧
  polygons c = [].
Proof.
  intros Hrun. unfold fiber_array in Hrun.
  apply bind_inv in Hrun as (b & w1 & Hloop & Hret).
  apply mret_inv in Hret as [<- _].
  destruct (fiber_array_loop pitch core_diameter cladding_diameter layer_core layer_cladding
              (Z.to_nat n) 0 Component_new w
              (fiber_array_inv_0 pitch core_diameter cladding_diameter layer_core
                 layer_cladding))
    as [(e & w2 & Hloop' & _)|(b' & w2 & Hloop' & Hinv)];
    cbv zeta in Hloop'; rewrite Hloop' in Hloop; [done|].
  injection Hloop as -> ->.
  destruct Hinv as (_ & _ & Hpolys & _ & Hports & _).
  unfold finalize. cbn [ports polygons]. done.
Qed.

(** X20: the fibres of a fibre array.  Whenever [fiber_array] returns, the
    Component holds two references a fibre, the core and then the cladding,
    to what [circle] built for half the core diameter and for half the
    cladding diameter; both references of the fibre [i] are moved to
    [(i * pitch, 0)], neither rotated nor mirrored. *)
Theorem fiber_array_references n pitch core_diameter cladding_diameter layer_core
    layer_cladding w c w' :
  fiber_array circle default_midpoint default_layer default_port_type n pitch core_diameter
    cladding_diameter layer_core layer_cladding w = (Ok c, w') →
  length (references c) = (2 * Z.to_nat n)%nat ∧
  ∀ i, (i < Z.to_nat n)%nat →
    ∃ co cl,
      (∃ w0 w1, circle (core_diameter / num 2) layer_core w0 = (Ok co, w1)) ∧
      (∃ w0 w1, circle (cladding_diameter / num 2) layer_cladding w0 = (Ok cl, w1)) ∧
      references c !! (2 * i)%nat
        = Some (Build_ComponentReference co (num (Z.of_nat i) * pitch, 0) 0 false) ∧
      references c !! (2 * i + 1)%nat
        = Some (Build_ComponentReference cl (num (Z.of_nat i) * pitch, 0) 0 false).
Proof.
  intros Hrun. unfold fiber_array in Hrun.
  apply bind_inv in Hrun as (b & w1 & Hloop & Hret).
  apply mret_inv in Hret as [<- _].
  destruct (fiber_array_loop pitch core_diameter cladding_diameter layer_core layer_cladding
              (Z.to_nat n) 0 Component_new w
              (fiber_array_inv_0 pitch core_diameter cladding_diameter layer_core
                 layer_cladding))
    as [(e & w2 & Hloop' & _)|(b' & w2 & Hloop' & Hinv)];
    cbv zeta in Hloop'; rewrite Hloop' in Hloop; [done|].
  injection Hloop as -> ->.
  destruct Hinv as (Hlen & Hrefs & _ & _ & _ & Hobjs).
  unfold finalize. cbn [references].
  rewrite Hrefs, <- Hlen, get_ref_seq.
  split; [done|].
  intros i Hi. destruct (Hobjs i Hi) as (co & cl & Hc0 & Hc1 & H0 & H1).
  exists co, cl. split; [done|]. split; [done|].
  assert (∀ x (d : Component),
            movex x (ref d) = Build_ComponentReference d (x, 0) 0 false) as Hmove.
  { intros x d. unfold movex, move, ref, translate.
    cbn [parent origin rotation x_reflection fst snd]. f_equal. f_equal; ring. }
  by rewrite H0, H1, !Hmove.
Qed.

(** X21: [fiber_array] adds no failure of its own.  For [n <= 0] it
    returns the empty Component and does not call [circle]; for a positive
    core diameter (the width that line 42 gives the ports) and any [n], a
    call that raises does so because a call of [circle] raised: the names
    "F0", "F1", ... never clash. *)
Theorem fiber_array_fails_only_in_circle n pitch core_diameter cladding_diameter layer_core
    layer_cladding w :
  ((n ≤ 0)%Z →
     fiber_array circle default_midpoint default_layer default_port_type n pitch core_diameter
       cladding_diameter layer_core layer_cladding w
     = (Ok (Build_Component [] [] [] None), w)) ∧
  (0 < core_diameter →
   ∀ e w',
     fiber_array circle default_midpoint default_layer default_port_type n pitch core_diameter
       cladding_diameter layer_core layer_cladding w = (Err e, w') →
     ∃ r l w0, circle r l w0 = (Err e, w')).
Proof.
  split.
  - intros Hn. unfold fiber_array. by rewrite Z2Nat.nonpos by done.
  - intros _ e w' Hrun. unfold fiber_array in Hrun.
    destruct (fiber_array_loop pitch core_diameter cladding_diameter layer_core layer_cladding
                (Z.to_nat n) 0 Component_new w
                (fiber_array_inv_0 pitch core_diameter cladding_diameter layer_core
                   layer_cladding))
      as [(e' & w2 & Hloop' & Hc)|(b' & w2 & Hloop' & Hinv)]; cbv zeta in Hloop'.
    + rewrite (bind_err _ _ _ _ _ Hloop') in Hrun. by injection Hrun as <- <-.
    + by rewrite (bind_ok _ _ _ _ _ Hloop') in Hrun.
Qed.

End fiber_array_facts.

(** ** The properties above on the worked examples *)

Lemma coupler90_bend_lift_witness :
  ∃ c pe pn pw pw1,
    coupler90 ex_straight (Q2Qc 0.2) (num 10) (AComponent ex_bend90_raised) ex_strip []
      empty_world = (Ok c, empty_world) ∧
    ports c = [(NStr "E0", pe); (NStr "N0", pn); (NStr "W0", pw); (NStr "W1", pw1)] ∧
    midpoint pe = (num 10 - 0, 0) ∧
    midpoint pw = (0, 0) ∧
    midpoint pn = (num 10, num 13 + num 3 + Q2Qc 0.2 + Q2Qc 0.5) ∧
    midpoint pw1 = (0, num 2 * num 3 + Q2Qc 0.2 + Q2Qc 0.5) ∧
    port_name pe = NStr "E0" ∧ port_name pn = NStr "N0" ∧
    port_name pw = NStr "W0" ∧ port_name pw1 = NStr "W1".
Proof.
  eapply (coupler90_bend_lift ex_straight (Q2Qc 0.2) (num 10) (AComponent ex_bend90_raised)
            ex_strip [] empty_world (Build_CrossSection [("width", Q2Qc 0.5)]) empty_world
            ex_bend90_raised empty_world
            (ex_optical_port "N0" (num 10) (num 13) (num 90))
            (ex_optical_port "W0" 0 (num 3) (num 180))
            (ex_straight_of (num 10 - 0)) empty_world
            (ex_optical_port "E0" (num 10 - 0) 0 0)
            (ex_optical_port "W0" 0 0 (num 180))
            (Q2Qc 0.5)).
  - compute_done.
  - compute_done.
  - reflexivity.
  - reflexivity.
  - reflexivity.
  - reflexivity.
  - reflexivity.
  - reflexivity.
  - reflexivity.
  - reflexivity.
Defined.

Lemma coupler90_bend_without_port_witness :
  coupler90 ex_straight (Q2Qc 0.2) (num 10) (AComponent ex_bend180) ex_strip [] empty_world
    = (Err KeyError, empty_world).
Proof.
  refine (coupler90_bend_without_port ex_straight (Q2Qc 0.2) (num 10) (AComponent ex_bend180)
            ex_strip [] empty_world (Build_CrossSection [("width", Q2Qc 0.5)]) empty_world
            ex_bend180 empty_world _ _ _ _).
  - compute_done.
  - reflexivity.
  - reflexivity.
  - by left.
Defined.

Lemma coupler90_length_keyword_witness :
  coupler90 ex_straight (Q2Qc 0.2) (num 10) (AComponent ex_bend90) ex_strip
    [("length", VNum (num 5))] empty_world = (Err TypeError, empty_world).
Proof.
  refine (coupler90_length_keyword ex_straight (Q2Qc 0.2) (num 10) (AComponent ex_bend90)
            ex_strip [("length", VNum (num 5))] empty_world
            (Build_CrossSection [("width", Q2Qc 0.5)]) empty_world ex_bend90 empty_world
            (ex_optical_port "N0" (num 10) (num 10) (num 90))
            (ex_optical_port "W0" 0 0 (num 180)) _ _ _ _ _ _).
  - compute_done.
  - compute_done.
  - reflexivity.
  - reflexivity.
  - reflexivity.
  - reflexivity.
Defined.


Lemma straight_heater_connector_swap_witness :
  straight_heater_connector ex_tlm ex_line
    [(ex_heater_port "HTW0" 0 (num 2) (num 180)).2;
     (ex_heater_port "HBW0" 0 (num (-2)) (num 180)).2]
    ex_tlm_layers (num 10) None empty_world
  = straight_heater_connector ex_tlm ex_line
      [(ex_heater_port "HBW0" 0 (num (-2)) (num 180)).2;
       (ex_heater_port "HTW0" 0 (num 2) (num 180)).2]
      ex_tlm_layers (num 10) None empty_world.
Proof.
  apply (straight_heater_connector_swap ex_tlm ex_line
           (ex_heater_port "HBW0" 0 (num (-2)) (num 180)).2
           (ex_heater_port "HTW0" 0 (num 2) (num 180)).2).
  - compute_done.
  - reflexivity.
Defined.

Lemma straight_heater_connector_no_layers_witness :
  straight_heater_connector ex_tlm ex_line
    [(ex_heater_port "HBE0" (num 10) (num (-2)) 0).2;
     (ex_heater_port "HTE0" (num 10) (num 2) 0).2]
    [] (num 10) None empty_world = (Err IndexError, empty_world).
Proof.
  refine (straight_heater_connector_no_layers ex_tlm ex_line _ _ (num 10) None empty_world
            (Build_Component [] [] [] None) empty_world _ _ _).
  - reflexivity.
  - apply in_0_180. left. compute_done.
  - reflexivity.
Defined.

Lemma add_trenches_only_adds_polygons_witness :
  ∃ c' w',
    add_trenches ex_hline ex_trench_base ex_settings (num 2) (Q2Qc 0.5) (num 2) ex_trenches
      (3, 0)%Z empty_world = (Fine c', w') ∧
    ports (finalize c') = ports (finalize ex_trench_base) ∧
    references (finalize c') = references (finalize ex_trench_base) ∧
    comp_length (finalize c') = comp_length (finalize ex_trench_base) ∧
    ∃ gs, polygons (finalize c') = polygons (finalize ex_trench_base) ++ gs.
Proof.
  destruct (add_trenches ex_hline ex_trench_base ex_settings (num 2) (Q2Qc 0.5) (num 2)
              ex_trenches (3, 0)%Z empty_world) as [[c'|e] w'] eqn:E.
  - exists c', w'. split; [reflexivity|].
    apply (add_trenches_only_adds_polygons ex_hline ex_trench_base ex_settings (num 2)
             (Q2Qc 0.5) (num 2) ex_trenches (3, 0)%Z empty_world c' w'); [constructor|exact E].
  - by vm_compute in E.
Defined.

Lemma add_trenches_disabled_witness :
  add_trenches ex_hline ex_trench_base ex_settings (num 2) 0 (num 2) ex_trenches (3, 0)%Z
    empty_world = (Fine ex_trench_base, empty_world) ∧
  add_trenches ex_hline ex_trench_base [] (num 2) 0 (num 2) ex_trenches (3, 0)%Z
    empty_world = (Raise (Py KeyError), empty_world).
Proof.
  split.
  - by rewrite (add_trenches_disabled ex_hline ex_trench_base ex_settings (num 2) 0 (num 2)
                  ex_trenches (3, 0)%Z empty_world) by done.
  - by rewrite (add_trenches_disabled ex_hline ex_trench_base [] (num 2) 0 (num 2)
                  ex_trenches (3, 0)%Z empty_world) by done.
Defined.

Lemma add_trenches_zero_segments_witness :
  add_trenches ex_hline ex_trench_base ex_settings (num 2) (Q2Qc 0.5) (num 2)
    (ex_trench_empty :: ex_trenches) (3, 0)%Z empty_world
  = (Raise ZeroDivisionError, empty_world).
Proof.
  by apply (add_trenches_zero_segments ex_hline ex_trench_base ex_settings (num 2) (Q2Qc 0.5)
              (num 2) ex_trench_empty ex_trenches (3, 0)%Z empty_world
              (Q2Qc 0.5) (Q2Qc 1.2) (Q2Qc 0.5) (num 10) 1 0).
Defined.

Lemma straight_heater_heater_ports_witness :
  ∃ c settings w' h w1 wd,
    straight_heater ex_hline ex_get_waveguide_settings (num 10) (Q2Qc 0.5) (Q2Qc 1.2) (num 2)
      (Q2Qc 0.5) (num 2) ex_trenches (47, 0)%Z ex_straight_factory (3, 0)%Z "strip" []
      empty_world = (Fine (c, settings), w') ∧
    heater_cell ex_hline (num 10) (Q2Qc 0.5) (47, 0)%Z empty_world = (Ok h, w1) ∧
    dict_get "width" settings = Some wd ∧
    ∀ p, p ∈ dict_values (ports h) →
      ∃ s pt pb,
        port_name p = NStr s ∧
        dict_get (NStr ("HT" +:+ s)) (ports c) = Some pt ∧
        dict_get (NStr ("HB" +:+ s)) (ports c) = Some pb ∧
        midpoint pt =
          ((midpoint p).1, (midpoint p).2 + (Q2Qc 1.2 + (wd + Q2Qc 0.5) / num 2)) ∧
        midpoint pb =
          ((midpoint p).1, (midpoint p).2 - (Q2Qc 1.2 + (wd + Q2Qc 0.5) / num 2)) ∧
        orientation pt = pymod (orientation p) (num 360) ∧
        orientation pb = orientation pt ∧
        width pt = width p ∧ width pb = width p ∧
        layer pt = layer p ∧ layer pb = layer p ∧
        port_type pt = port_type p ∧ port_type pb = port_type p.
Proof.
  destruct (straight_heater ex_hline ex_get_waveguide_settings (num 10) (Q2Qc 0.5) (Q2Qc 1.2)
              (num 2) (Q2Qc 0.5) (num 2) ex_trenches (47, 0)%Z ex_straight_factory (3, 0)%Z
              "strip" [] empty_world) as [[[c settings]|e] w'] eqn:E.
  - destruct (straight_heater_heater_ports ex_hline ex_get_waveguide_settings _ _ _ _ _ _ _ _ _
                _ _ _ _ _ _ _ E) as (h & w1 & wd & Hh & Hwd & Hp).
    exists c, settings, w', h, w1, wd.
    exact (conj eq_refl (conj Hh (conj Hwd Hp))).
  - exfalso.
    assert (is_fine
              (straight_heater ex_hline ex_get_waveguide_settings (num 10) (Q2Qc 0.5)
                 (Q2Qc 1.2) (num 2) (Q2Qc 0.5) (num 2) ex_trenches (47, 0)%Z
                 ex_straight_factory (3, 0)%Z "strip" [] empty_world).1 = true) as Hfine
      by (vm_compute; reflexivity).
    rewrite E in Hfine. discriminate Hfine.
Defined.

Lemma straight_heater_structure_witness :
  ∃ c settings w' h ws v wgc wd gs,
    straight_heater ex_hline ex_get_waveguide_settings (num 10) (Q2Qc 0.5) (Q2Qc 1.2) (num 2)
      (Q2Qc 0.5) (num 2) ex_trenches (47, 0)%Z ex_straight_factory (3, 0)%Z "strip" []
      empty_world = (Fine (c, settings), w') ∧
    dict_get "width" ws = Some v ∧
    as_num v = Ok wd ∧
    settings = [("heater_width", Q2Qc 0.5); ("heater_spacing", Q2Qc 1.2);
                ("length", num 10); ("width", wd)] ∧
    references c = [] ∧
    polygons c =
      ref_polygons (movey (Q2Qc 1.2 + (wd + Q2Qc 0.5) / num 2) (ref h))
        ++ ref_polygons (movey (- (Q2Qc 1.2 + (wd + Q2Qc 0.5) / num 2)) (ref h))
        ++ get_polygons wgc ++ gs ∧
    length (ports c) = (length (ports wgc) + 2 * length (ports h))%nat.
Proof.
  destruct (straight_heater ex_hline ex_get_waveguide_settings (num 10) (Q2Qc 0.5) (Q2Qc 1.2)
              (num 2) (Q2Qc 0.5) (num 2) ex_trenches (47, 0)%Z ex_straight_factory (3, 0)%Z
              "strip" [] empty_world) as [[[c settings]|e] w'] eqn:E.
  - destruct (straight_heater_structure ex_hline ex_get_waveguide_settings _ _ _ _ _ _ _ _ _
                _ _ _ _ _ _ _ E)
      as (h & w1 & ws & w2 & v & wgc & w3 & wd & gs & _ & _ & Hv & Hwd & _ & Hs & Hr & Hg &
          Hl & _).
    exists c, settings, w', h, ws, v, wgc, wd, gs.
    exact (conj eq_refl (conj Hv (conj Hwd (conj Hs (conj Hr (conj Hg Hl)))))).
  - exfalso.
    assert (is_fine
              (straight_heater ex_hline ex_get_waveguide_settings (num 10) (Q2Qc 0.5)
                 (Q2Qc 1.2) (num 2) (Q2Qc 0.5) (num 2) ex_trenches (47, 0)%Z
                 ex_straight_factory (3, 0)%Z "strip" [] empty_world).1 = true) as Hfine
      by (vm_compute; reflexivity).
    rewrite E in Hfine. discriminate Hfine.
Defined.

Lemma fiber_array_ports_witness :
  ∃ c w',
    fiber_array ex_circle (0, 0) (1, 0)%Z "optical" 3 (num 127) (num 10) (num 125) (1, 0)%Z
      (111, 0)%Z empty_world = (Ok c, w') ∧
    ports c
      = (λ i : nat,
           (NStr ("F" +:+ pretty i),
            Build_Port (NStr ("F" +:+ pretty i)) (0, 0) 0 (num 10) (1, 0)%Z "optical"))
          <$> seq 0 (Z.to_nat 3) ∧
    polygons c = [].
Proof.
  destruct (fiber_array ex_circle (0, 0) (1, 0)%Z "optical" 3 (num 127) (num 10) (num 125)
              (1, 0)%Z (111, 0)%Z empty_world) as [[c|e] w'] eqn:E.
  - exists c, w'. split; [reflexivity|].
    exact (fiber_array_ports ex_circle (0, 0) (1, 0)%Z "optical" 3 (num 127) (num 10) (num 125)
             (1, 0)%Z (111, 0)%Z empty_world c w' E).
  - by vm_compute in E.
Defined.

Lemma fiber_array_references_witness :
  ∃ c w',
    fiber_array ex_circle (0, 0) (1, 0)%Z "optical" 3 (num 127) (num 10) (num 125) (1, 0)%Z
      (111, 0)%Z empty_world = (Ok c, w') ∧
    length (references c) = 6%nat ∧
    ∃ co cl,
      references c !! 4%nat = Some (Build_ComponentReference co (num 2 * num 127, 0) 0 false) ∧
      references c !! 5%nat = Some (Build_ComponentReference cl (num 2 * num 127, 0) 0 false).
Proof.
  destruct (fiber_array ex_circle (0, 0) (1, 0)%Z "optical" 3 (num 127) (num 10) (num 125)
              (1, 0)%Z (111, 0)%Z empty_world) as [[c|e] w'] eqn:E.
  - exists c, w'. split; [reflexivity|].
    destruct (fiber_array_references ex_circle (0, 0) (1, 0)%Z "optical" 3 (num 127) (num 10)
                (num 125) (1, 0)%Z (111, 0)%Z empty_world c w' E) as [Hlen Hrefs].
    split; [exact Hlen|].
    destruct (Hrefs 2%nat) as (co & cl & _ & _ & H0 & H1); [simpl; lia|].
    exists co, cl. exact (conj H0 H1).
  - by vm_compute in E.
Defined.

Lemma fiber_array_fails_only_in_circle_witness :
  fiber_array ex_circle (0, 0) (1, 0)%Z "optical" (-1) (num 127) (num 10) (num 125) (1, 0)%Z
    (111, 0)%Z empty_world = (Ok (Build_Component [] [] [] None), empty_world) ∧
  ∃ r l w0, ex_circle_broken r l w0 = (Err ValueError, empty_world).
Proof.
  split.
  - apply (proj1 (fiber_array_fails_only_in_circle ex_circle (0, 0) (1, 0)%Z "optical" (-1)
                    (num 127) (num 10) (num 125) (1, 0)%Z (111, 0)%Z empty_world)).
    done.
  - apply (proj2 (fiber_array_fails_only_in_circle ex_circle_broken (0, 0) (1, 0)%Z "optical" 2
                    (num 127) (num 10) (num 125) (1, 0)%Z (111, 0)%Z empty_world)).
    + compute_done.
    + reflexivity.
Defined.

Lemma coupler90_absorb_transparent_witness :
  ∃ c,
    coupler90 ex_straight (Q2Qc 0.2) (num 10) (AFactory ex_bend90_factory) ex_strip []
      empty_world = (Ok c, empty_world) ∧
    get_polygons c ≡ₚ
      get_polygons
        (Build_Component []
           [movey (0 + Q2Qc 0.2 + Q2Qc 0.5) (ref ex_bend90); ref (ex_straight_of (num 10 - 0))]
           [] None).
Proof.
  eapply (coupler90_absorb_transparent ex_straight (Q2Qc 0.2) (num 10)
            (AFactory ex_bend90_factory) ex_strip [] empty_world
            (Build_CrossSection [("width", Q2Qc 0.5)]) empty_world
            ex_bend90 empty_world
            (ex_optical_port "N0" (num 10) (num 10) (num 90))
            (ex_optical_port "W0" 0 0 (num 180))
            (ex_straight_of (num 10 - 0)) empty_world
            (ex_optical_port "E0" (num 10 - 0) 0 0)
            (ex_optical_port "W0" 0 0 (num 180))
            (Q2Qc 0.5)).
  - compute_done.
  - compute_done.
  - reflexivity.
  - reflexivity.
  - reflexivity.
  - reflexivity.
  - reflexivity.
  - reflexivity.
  - reflexivity.
  - reflexivity.
Defined.

Lemma straight_with_heater_overrides_stored_witness :
  ∃ c w' p1 p2,
    straight_with_heater id (num 10) ex_straight_heater
      (connector_default ex_tlm ex_line ex_tlm_layers) (num 10) (num 450) (num (-90)) []
      empty_world = (Ok c, w') ∧
    p1 ∈ (ports c).*2 ∧ orientation p1 = num 450 ∧
    p2 ∈ (ports c).*2 ∧ orientation p2 = num (-90).
Proof.
  destruct (straight_with_heater id (num 10) ex_straight_heater
              (connector_default ex_tlm ex_line ex_tlm_layers) (num 10) (num 450) (num (-90)) []
              empty_world) as [[c|e] w'] eqn:E.
  - destruct (straight_with_heater_overrides_stored id (num 10) ex_straight_heater
                (connector_default ex_tlm ex_line ex_tlm_layers) (num 10) (num 450) (num (-90))
                [] empty_world c w') as (p1 & p2 & Hp).
    + intros b p Hp. exists p. split; [exact Hp|reflexivity].
    + exact E.
    + exists c, w', p1, p2. exact (conj eq_refl Hp).
  - by vm_compute in E.
Defined.

